(** * Vitals acquisition and derivation pipeline (ThingSpeakService.js)

    A shallow embedding of the service module of the patient-monitoring
    dashboard: the feed-record parser, the ECG variability and blood-pressure
    estimators, the status classifier, the location resolver, the historical
    series assembler and the CSV exporter.

    JavaScript Numbers are IEEE-754 binary64 values; they are modelled by
    Rocq's primitive floats, whose operations are the same binary64
    operations (round to nearest, ties to even).  Functions that draw from
    [Math.random], read [localStorage] or may raise run in a small
    state-and-outcome monad. *)

From Stdlib Require Import ZArith String Ascii DecimalString List Bool Lia Floats.
Import ListNotations.
Set Warnings "-inexact-float,-register-all".

(** ** JavaScript numbers and the [Math] built-ins the service calls *)

Module Js.

Local Open Scope float_scope.

(** The Number nearest to an integer ([ecgSamples.length], the results of
    [Math.floor] and [Math.round]). *)
Definition of_Z (n : Z) : float := SF2Prim (binary_normalize prec emax n 0 false).
Definition of_nat (n : nat) : float := of_Z (Z.of_nat n).

(** [isNaN(x)] on a Number. *)
Definition isNaN (x : float) : bool := is_nan x.

(** [!x] on a Number: true for [0], [-0] and [NaN]. *)
Definition falsy (x : float) : bool := is_nan x || (x =? 0).

(** [x === y] and [x !== y] on Numbers. *)
Definition strict_eq (x y : float) : bool := x =? y.
Definition strict_neq (x y : float) : bool := negb (x =? y).

(** [x > y] is [y < x]. *)
Definition gtb (x y : float) : bool := y <? x.

(** Neither [NaN] nor an infinity. *)
Definition finite (x : float) : bool := negb (is_nan x) && negb (is_infinity x).

(** [Math.min(a, b)] and [Math.max(a, b)]: [NaN] if either argument is
    [NaN]; [-0] is smaller than [+0]. *)
Definition Math_min (a b : float) : float :=
  if is_nan a || is_nan b then nan
  else if a <? b then a
  else if b <? a then b
  else if get_sign a then a else b.

Definition Math_max (a b : float) : float :=
  if is_nan a || is_nan b then nan
  else if a <? b then b
  else if b <? a then a
  else if get_sign a then b else a.

(** [Math.floor(x)]: the largest integral Number not above [x]. *)
Definition Math_floor (x : float) : float :=
  match Prim2SF x with
  | S754_finite s m e =>
      if (0 <=? e)%Z then x
      else of_Z (Z.shiftr (cond_Zopp s (Zpos m)) (- e))
  | _ => x
  end.

(** [Math.round(x)]: the integral Number nearest to [x], a tie going to
    the one nearer to [+Infinity]; [-0] when [-0.5 <= x < 0]. *)
Definition Math_round (x : float) : float :=
  match Prim2SF x with
  | S754_finite s m e =>
      if (0 <=? e)%Z then x
      else
        let n := Z.shiftr (2 * cond_Zopp s (Zpos m) + 2 ^ (- e)) (1 - e) in
        if (n =? 0)%Z then (if s then neg_zero else zero) else of_Z n
  | _ => x
  end.

(** [Math.pow(x, 2)].  The language leaves the precision of [Math.pow] to
    the engine; the square is taken here as the binary64 product, which is
    what engines return for the exponent 2. *)
Definition Math_pow2 (x : float) : float := x * x.

End Js.

(** ** The random source and the outcome of a call *)

Inductive error := SyntaxError | TypeError | RangeError | Error (message : string).

(** A call returns a value, raises, or leaves the fragment of JavaScript
    this development covers (a JSON payload of a shape whose coercions are
    not modelled). *)
Inductive outcome (A : Type) :=
| Ret (a : A)
| Throw (e : error)
| Unmodelled.
Arguments Ret {A} a.
Arguments Throw {A} e.
Arguments Unmodelled {A}.

(** The values [Math.random()] returns, in call order, and how many of them
    have been drawn. *)
Record rng := { draws : nat -> float; drawn : nat }.

Definition Math_random (g : rng) : float * rng :=
  (draws g (drawn g), {| draws := draws g; drawn := S (drawn g) |}).

(** ** Blood-pressure estimator *)

Record bp := { systolic : float; diastolic : float }.

Section Estimator.
Local Open Scope float_scope.

(** [clampValue(value, min, max)]. *)
Definition clampValue (value min max : float) : float :=
  Js.Math_max min (Js.Math_min max value).

Definition sum (xs : list float) : float :=
  fold_left (fun sum value => sum + value) xs 0.

(** The standard deviation computed by lines 141-144 of the service. *)
Definition populationStdDev (ecgSamples : list float) : float :=
  let mean := sum ecgSamples / Js.of_nat (length ecgSamples) in
  let squaredDiffs := map (fun value => Js.Math_pow2 (value - mean)) ecgSamples in
  let avgSquaredDiff := sum squaredDiffs / Js.of_nat (length squaredDiffs) in
  sqrt avgSquaredDiff.

(** [calculateEcgVariability(ecgSamples)]; [None] is a [null] argument. *)
Definition calculateEcgVariability (ecgSamples : option (list float)) : float :=
  match ecgSamples with
  | None => 0
  | Some xs =>
      if (length xs <? 10)%nat then 0
      else
        let stdDev := populationStdDev xs in
        let normalizedVariability := Js.Math_min (stdDev / 0.5) 1 in
        normalizedVariability
  end.

(** [randomVariation()]: [Math.floor(Math.random() * 10) - 5]. *)
Definition randomVariation (g : rng) : float * rng :=
  let (r, g') := Math_random g in (Js.Math_floor (r * 10) - 5, g').

(** The guard of line 78. *)
Definition insufficient (ecgSamples : option (list float)) (heartRate : float) : bool :=
  match ecgSamples with
  | None => true
  | Some xs => (length xs <? 10)%nat || Js.falsy heartRate || Js.isNaN heartRate
  end.

Definition baselineSystolic : float := 120.
Definition baselineDiastolic : float := 80.

(** [calculateBP(ecgSamples, heartRate, spo2)]. *)
Definition calculateBP (ecgSamples : option (list float)) (heartRate spo2 : float)
    (g : rng) : bp * rng :=
  if insufficient ecgSamples heartRate then
    let (v1, g1) := randomVariation g in
    let (v2, g2) := randomVariation g1 in
    ({| systolic := baselineSystolic + v1; diastolic := baselineDiastolic + v2 |}, g2)
  else
    let ecgVariability := calculateEcgVariability ecgSamples in
    let heartRateEffect :=
      if heartRate <? 60 then -10 * (1 - (heartRate / 60))
      else if Js.gtb heartRate 100 then 15 * ((heartRate - 100) / 50)
      else 0 in
    let spo2Effect := if spo2 <? 95 then 5 * ((95 - spo2) / 5) else 0 in
    let ecgEffect := ecgVariability * 10 in
    let ageEffect := 0 in
    let systolic := Js.Math_round (baselineSystolic + (heartRateEffect * 0.6)
                                   + (spo2Effect * 0.2) + (ecgEffect * 0.2) + ageEffect) in
    let diastolic := Js.Math_round (baselineDiastolic + (heartRateEffect * 0.4)
                                    + (spo2Effect * 0.1) + (ecgEffect * 0.1) + ageEffect) in
    ({| systolic := clampValue systolic 80 200;
        diastolic := clampValue diastolic 40 120 |}, g).

End Estimator.

(** ** Strings, [parseFloat] and [parseInt]

    A JavaScript string is modelled by a Rocq [string], one character per
    UTF-16 code unit; the model covers code units below 256. *)

Module Parse.

Definition code (c : ascii) : nat := nat_of_ascii c.

Definition is_digit (c : ascii) : bool := (48 <=? code c)%nat && (code c <=? 57)%nat.

Definition is_hex_digit (c : ascii) : bool :=
  is_digit c || ((65 <=? code c)%nat && (code c <=? 70)%nat)
             || ((97 <=? code c)%nat && (code c <=? 102)%nat).

Definition digit_val (c : ascii) : Z :=
  let n := Z.of_nat (code c) in
  if is_digit c then n - 48
  else if (97 <=? n)%Z then n - 87
  else n - 55.

(** White space and line terminators that [parseFloat] and [parseInt]
    strip from the front: TAB, LF, VT, FF, CR, SP, NBSP. *)
Definition is_space (c : ascii) : bool :=
  ((9 <=? code c)%nat && (code c <=? 13)%nat) || (code c =? 32)%nat || (code c =? 160)%nat.

Fixpoint skip_ws (s : list ascii) : list ascii :=
  match s with
  | c :: r => if is_space c then skip_ws r else s
  | [] => []
  end.

Fixpoint take_while (p : ascii -> bool) (s : list ascii) : list ascii * list ascii :=
  match s with
  | c :: r => if p c then let (ds, rest) := take_while p r in (c :: ds, rest) else ([], s)
  | [] => ([], [])
  end.

Definition parse_sign (s : list ascii) : bool * list ascii :=
  match s with
  | c :: r => if (code c =? 45)%nat then (true, r)
              else if (code c =? 43)%nat then (false, r) else (false, s)
  | [] => (false, [])
  end.

Fixpoint starts_with (p s : list ascii) : bool :=
  match p, s with
  | [], _ => true
  | a :: p', b :: s' => (code a =? code b)%nat && starts_with p' s'
  | _ :: _, [] => false
  end.

(** The integer a digit sequence denotes in the given radix. *)
Definition digits_value (radix : Z) (ds : list ascii) : Z :=
  fold_left (fun acc c => radix * acc + digit_val c)%Z ds 0%Z.

(** The Number nearest to [N / D] for [0 <= N] and [0 < D], with the sign
    [neg]: the quotient is taken with 1075 extra binary places, which is
    below the last place of every binary64 value, and rounded once. *)
Definition round_ratio (neg : bool) (N D : Z) : float :=
  let '(q, r) := Z.div_eucl (Z.shiftl N 1075) D in
  SF2Prim (binary_round_aux prec emax neg q (-1075)
             (if (r =? 0)%Z then loc_Exact else loc_Inexact (Z.compare (2 * r) D))).

Definition signed_zero (neg : bool) : float := if neg then neg_zero else zero.
Definition signed_infinity (neg : bool) : float := if neg then neg_infinity else infinity.

(** The Number nearest to [M * 10 ^ E] for [0 <= M].  Exponents far
    outside the binary64 range are answered without building the power. *)
Definition of_decimal (neg : bool) (M E : Z) : float :=
  if (M =? 0)%Z then signed_zero neg
  else if (310 <? E)%Z then signed_infinity neg
  else if (E + Z.log2 M + 1 <? -330)%Z then signed_zero neg
  else if (0 <=? E)%Z then round_ratio neg (M * 10 ^ E) 1
  else round_ratio neg M (10 ^ (- E)).

(** The value of an optional exponent part [e[+-]digits]; [0] when the
    part is absent or has no digit. *)
Definition exponent_part (s : list ascii) : Z * list ascii :=
  match s with
  | c :: r =>
      if (code c =? 101)%nat || (code c =? 69)%nat then
        let (neg, r1) := parse_sign r in
        let (ds, r2) := take_while is_digit r1 in
        match ds with
        | [] => (0%Z, s)
        | _ => (cond_Zopp neg (digits_value 10 ds), r2)
        end
      else (0%Z, s)
  | [] => (0%Z, [])
  end.

(** [parseFloat(string)]: the longest prefix, after leading white space,
    that is a decimal literal; [NaN] when there is none. *)
Definition parseFloat_chars (input : list ascii) : float :=
  let (neg, s) := parse_sign (skip_ws input) in
  if starts_with (list_ascii_of_string "Infinity") s then signed_infinity neg
  else
    let (ip, s1) := take_while is_digit s in
    let (fp, s2) :=
      match s1 with
      | c :: r => if (code c =? 46)%nat then take_while is_digit r else ([], s1)
      | [] => ([], s1)
      end in
    match ip ++ fp with
    | [] => nan
    | ds => let (ex, _) := exponent_part s2 in
            of_decimal neg (digits_value 10 ds) (ex - Z.of_nat (length fp))
    end.

(** [parseInt(string)] with no radix: an optional sign, an optional [0x]
    prefix selecting radix 16, then the longest run of digits; [NaN] when
    there is no digit. *)
Definition parseInt_chars (input : list ascii) : float :=
  let (neg, s) := parse_sign (skip_ws input) in
  let (hex, s1) :=
    match s with
    | z :: x :: r =>
        if (code z =? 48)%nat && ((code x =? 120)%nat || (code x =? 88)%nat)
        then (true, r) else (false, s)
    | _ => (false, s)
    end in
  let (ds, _) := take_while (if hex then is_hex_digit else is_digit) s1 in
  match ds with
  | [] => nan
  | _ => let n := digits_value (if hex then 16 else 10) ds in
         if (n =? 0)%Z then signed_zero neg else round_ratio neg n 1
  end.

End Parse.

(** A field of a feed record as the provider's JSON delivers it: a string,
    [null], or absent. *)
Inductive field := FUndefined | FNull | FStr (s : string).

(** [ToString] of a field value. *)
Definition field_text (f : field) : string :=
  match f with
  | FUndefined => "undefined"
  | FNull => "null"
  | FStr s => s
  end.

(** [!!f]: only a non-empty string is truthy. *)
Definition field_truthy (f : field) : bool :=
  match f with
  | FStr s => negb (String.eqb s "")
  | _ => false
  end.

Definition parseFloat (f : field) : float :=
  Parse.parseFloat_chars (list_ascii_of_string (field_text f)).

Definition parseInt (f : field) : float :=
  Parse.parseInt_chars (list_ascii_of_string (field_text f)).

(** ** JSON values and [JSON.parse] *)

Inductive jsval :=
| VUndefined
| VNull
| VBool (b : bool)
| VNum (x : float)
| VStr (s : string)
| VArr (elems : list jsval)
| VObj (props : list (string * jsval)).

(** Objects are kept as association lists and read through [obj_get];
    a property that is set again keeps its place and takes the new value. *)
Fixpoint obj_get (props : list (string * jsval)) (k : string) : jsval :=
  match props with
  | [] => VUndefined
  | (k', v) :: r => if String.eqb k k' then v else obj_get r k
  end.

Fixpoint obj_set (props : list (string * jsval)) (k : string) (v : jsval)
    : list (string * jsval) :=
  match props with
  | [] => [(k, v)]
  | (k', v') :: r => if String.eqb k k' then (k, v) :: r else (k', v') :: obj_set r k v
  end.

Module Json.

Import Parse.

(** JSON white space: TAB, LF, CR, SP. *)
Definition is_jws (c : ascii) : bool :=
  (code c =? 9)%nat || (code c =? 10)%nat || (code c =? 13)%nat || (code c =? 32)%nat.

Fixpoint skip_jws (s : list ascii) : list ascii :=
  match s with
  | c :: r => if is_jws c then skip_jws r else s
  | [] => []
  end.

Definition result (A : Type) : Type := outcome (A * list ascii).

(** Consume the literal [lit] and answer [v]. *)
Definition expect (lit : string) (v : jsval) (s : list ascii) : result jsval :=
  let p := list_ascii_of_string lit in
  if starts_with p s then Ret (v, skipn (length p) s) else Throw SyntaxError.

(** A JSON number: an optional minus sign, an integer part with no leading
    zero, an optional fraction and an optional exponent, each with at least
    one digit. *)
Definition parse_number (s : list ascii) : result jsval :=
  let (neg, s0) :=
    match s with
    | c :: r => if (code c =? 45)%nat then (true, r) else (false, s)
    | [] => (false, s)
    end in
  let int_part :=
    match s0 with
    | c :: r =>
        if (code c =? 48)%nat then Some ([c], r)
        else if is_digit c then Some (take_while is_digit s0)
        else None
    | [] => None
    end in
  match int_part with
  | None => Throw SyntaxError
  | Some (ip, s1) =>
      let frac :=
        match s1 with
        | c :: r =>
            if (code c =? 46)%nat then
              match take_while is_digit r with
              | ([], _) => None
              | (fp, s2) => Some (fp, s2)
              end
            else Some ([], s1)
        | [] => Some ([], s1)
        end in
      match frac with
      | None => Throw SyntaxError
      | Some (fp, s2) =>
          let expo :=
            match s2 with
            | c :: r =>
                if (code c =? 101)%nat || (code c =? 69)%nat then
                  let (eneg, r1) := parse_sign r in
                  match take_while is_digit r1 with
                  | ([], _) => None
                  | (ds, s3) => Some (cond_Zopp eneg (digits_value 10 ds), s3)
                  end
                else Some (0%Z, s2)
            | [] => Some (0%Z, s2)
            end in
          match expo with
          | None => Throw SyntaxError
          | Some (ex, s3) =>
              Ret (VNum (of_decimal neg (digits_value 10 (ip ++ fp))
                           (ex - Z.of_nat (length fp))), s3)
          end
      end
  end.

(** The characters of a string literal after its opening quote.  An escape
    [\uXXXX] of a code unit above 255 is outside the model. *)
Fixpoint parse_chars (s : list ascii) (acc : list ascii) : result string :=
  match s with
  | [] => Throw SyntaxError
  | c :: r =>
      if (code c =? 34)%nat then Ret (string_of_list_ascii (rev acc), r)
      else if (code c <? 32)%nat then Throw SyntaxError
      else if (code c =? 92)%nat then
        match r with
        | e :: r' =>
            let simple (a : nat) := parse_chars r' (ascii_of_nat a :: acc) in
            if (code e =? 34)%nat then simple 34%nat
            else if (code e =? 92)%nat then simple 92%nat
            else if (code e =? 47)%nat then simple 47%nat
            else if (code e =? 98)%nat then simple 8%nat
            else if (code e =? 102)%nat then simple 12%nat
            else if (code e =? 110)%nat then simple 10%nat
            else if (code e =? 114)%nat then simple 13%nat
            else if (code e =? 116)%nat then simple 9%nat
            else if (code e =? 117)%nat then
              match r' with
              | h1 :: h2 :: h3 :: h4 :: r'' =>
                  if forallb is_hex_digit [h1; h2; h3; h4] then
                    let u := digits_value 16 [h1; h2; h3; h4] in
                    if (u <? 256)%Z then parse_chars r'' (ascii_of_nat (Z.to_nat u) :: acc)
                    else Unmodelled
                  else Throw SyntaxError
              | _ => Throw SyntaxError
              end
            else Throw SyntaxError
        | [] => Throw SyntaxError
        end
      else parse_chars r (c :: acc)
  end.

(** Values, array elements and object members; the fuel bounds the number
    of nested calls and [2 * length + 2] is enough for every text. *)
Fixpoint parse_value (fuel : nat) (s : list ascii) : result jsval :=
  match fuel with
  | O => Unmodelled
  | S f =>
      match skip_jws s with
      | [] => Throw SyntaxError
      | c :: r =>
          if (code c =? 110)%nat then expect "null" VNull (c :: r)
          else if (code c =? 116)%nat then expect "true" (VBool true) (c :: r)
          else if (code c =? 102)%nat then expect "false" (VBool false) (c :: r)
          else if (code c =? 34)%nat then
            match parse_chars r [] with
            | Ret (str, r') => Ret (VStr str, r')
            | Throw e => Throw e
            | Unmodelled => Unmodelled
            end
          else if (code c =? 91)%nat then
            match skip_jws r with
            | d :: r' => if (code d =? 93)%nat then Ret (VArr [], r')
                         else parse_elements f r []
            | [] => Throw SyntaxError
            end
          else if (code c =? 123)%nat then
            match skip_jws r with
            | d :: r' => if (code d =? 125)%nat then Ret (VObj [], r')
                         else parse_members f r []
            | [] => Throw SyntaxError
            end
          else parse_number (c :: r)
      end
  end
with parse_elements (fuel : nat) (s : list ascii) (acc : list jsval) : result jsval :=
  match fuel with
  | O => Unmodelled
  | S f =>
      match parse_value f s with
      | Ret (v, r) =>
          match skip_jws r with
          | d :: r' =>
              if (code d =? 44)%nat then parse_elements f r' (v :: acc)
              else if (code d =? 93)%nat then Ret (VArr (rev (v :: acc)), r')
              else Throw SyntaxError
          | [] => Throw SyntaxError
          end
      | Throw e => Throw e
      | Unmodelled => Unmodelled
      end
  end
with parse_members (fuel : nat) (s : list ascii) (acc : list (string * jsval)) : result jsval :=
  match fuel with
  | O => Unmodelled
  | S f =>
      match skip_jws s with
      | q :: r =>
          if (code q =? 34)%nat then
            match parse_chars r [] with
            | Ret (k, r1) =>
                match skip_jws r1 with
                | colon :: r2 =>
                    if (code colon =? 58)%nat then
                      match parse_value f r2 with
                      | Ret (v, r3) =>
                          match skip_jws r3 with
                          | d :: r4 =>
                              if (code d =? 44)%nat then parse_members f r4 (obj_set acc k v)
                              else if (code d =? 125)%nat then Ret (VObj (obj_set acc k v), r4)
                              else Throw SyntaxError
                          | [] => Throw SyntaxError
                          end
                      | Throw e => Throw e
                      | Unmodelled => Unmodelled
                      end
                    else Throw SyntaxError
                | [] => Throw SyntaxError
                end
            | Throw e => Throw e
            | Unmodelled => Unmodelled
            end
          else Throw SyntaxError
      | [] => Throw SyntaxError
      end
  end.

(** [JSON.parse(text)] on a string: one value, then only white space. *)
Definition parse_text (text : string) : outcome jsval :=
  let s := list_ascii_of_string text in
  match parse_value (2 * length s + 2) s with
  | Ret (v, r) => match skip_jws r with [] => Ret v | _ => Throw SyntaxError end
  | Throw e => Throw e
  | Unmodelled => Unmodelled
  end.

End Json.

(** [JSON.parse(f)]: the argument is first converted to a string, so
    [null] parses to [null] and [undefined] is a syntax error. *)
Definition JSON_parse (f : field) : outcome jsval := Json.parse_text (field_text f).

Local Open Scope string_scope.

(** ** Feed records *)

Record FeedRecord := {
  created_at : field;
  field1 : field;   (* temperature *)
  field2 : field;   (* alert level *)
  field3 : field;   (* heart rate *)
  field4 : field;   (* SpO2 *)
  field5 : field;   (* latitude *)
  field6 : field;   (* longitude *)
  field7 : field;   (* average ECG *)
  field8 : field    (* ECG sample array, JSON *)
}.

Definition field_value (f : field) : jsval :=
  match f with
  | FUndefined => VUndefined
  | FNull => VNull
  | FStr s => VStr s
  end.

(** The ECG payloads the estimator is modelled on: [null] and arrays of
    Numbers.  Any other JSON value is outside the model. *)
Definition as_number (v : jsval) : option float :=
  match v with
  | VNum x => Some x
  | _ => None
  end.

Fixpoint all_numbers (l : list jsval) : option (list float) :=
  match l with
  | [] => Some []
  | v :: r =>
      match as_number v, all_numbers r with
      | Some x, Some xs => Some (x :: xs)
      | _, _ => None
      end
  end.

Definition as_samples (v : jsval) : outcome (option (list float)) :=
  match v with
  | VNull => Ret None
  | VArr l => match all_numbers l with
              | Some xs => Ret (Some xs)
              | None => Unmodelled
              end
  | _ => Unmodelled
  end.

(** ** Strings the service builds

    A string result is kept as the sequence of its pieces; the decimal text
    of a Number and the renderings of a date are left unexpanded. *)

Inductive chunk :=
| Lit (s : string)          (* these characters *)
| NumText (x : float)       (* the text of the Number [x] *)
| IsoText (t : float)       (* [toISOString()] of the date with time value [t] *)
| LocaleText (t : float).   (* [toLocaleString()] of that date *)

Definition text := list chunk.

(** A value that is a string or a Number. *)
Inductive display :=
| DText (t : text)
| DNum (x : float).

Definition ToString (d : display) : text :=
  match d with
  | DText t => t
  | DNum x => [NumText x]
  end.

(** [items.join(sep)]. *)
Fixpoint join (sep : string) (items : list text) : text :=
  match items with
  | [] => []
  | [t] => t
  | t :: r => (t ++ Lit sep :: join sep r)%list
  end.

Definition decimal (n : Z) : string := NilZero.string_of_uint (N.to_uint (Z.to_N n)).

(** [x.toFixed(1)]: the integer [n] with [n / 10] nearest to [|x|], the
    larger one on a tie, written with one fraction digit; the plain text of
    the Number when [|x| >= 1e21] or [x] is not finite. *)
Definition toFixed1 (x : float) : text :=
  match Prim2SF x with
  | S754_nan => [Lit "NaN"]
  | S754_infinity s => [Lit (if s then "-Infinity" else "Infinity")]
  | S754_zero _ => [Lit "0.0"]
  | S754_finite s m e =>
      if (1e21 <=? abs x)%float then [NumText x]
      else
        let n := if (0 <=? e)%Z then (10 * Zpos m * 2 ^ e)%Z
                 else Z.shiftr (20 * Zpos m + 2 ^ (- e)) (1 - e) in
        [Lit ((if s then "-" else "") ++ decimal (n / 10) ++ "." ++ decimal (n mod 10))]
  end.

(** ** Location resolver *)

(** [localStorage]: each key holds a string.  An entry written by the
    service itself is kept as the value that was passed to
    [JSON.stringify]. *)
Inductive stored :=
| Raw (s : string)
| Stringified (v : jsval).

Definition store := list (string * stored).

Fixpoint getItem (st : store) (k : string) : option stored :=
  match st with
  | [] => None
  | (k', v) :: r => if String.eqb k k' then Some v else getItem r k
  end.

Definition setItem (st : store) (k : string) (v : stored) : store := (k, v) :: st.

(** [JSON.parse(JSON.stringify(v))]: a Number that is not finite becomes
    [null], [-0] becomes [0], an [undefined] property is dropped and an
    [undefined] element becomes [null]. *)
Fixpoint reparse (v : jsval) : jsval :=
  match v with
  | VNum x => if Js.finite x then (if (x =? 0)%float then VNum 0 else VNum x) else VNull
  | VArr l => VArr (map (fun e => match e with VUndefined => VNull | _ => reparse e end) l)
  | VObj kvs =>
      VObj ((fix members (kvs : list (string * jsval)) :=
               match kvs with
               | [] => []
               | (k, VUndefined) :: r => members r
               | (k, e) :: r => (k, reparse e) :: members r
               end) kvs)
  | _ => v
  end.

(** [JSON.parse(storedLocation)]. *)
Definition parse_stored (s : stored) : outcome jsval :=
  match s with
  | Raw str => Json.parse_text str
  | Stringified VUndefined => Throw SyntaxError
  | Stringified v => Ret (reparse v)
  end.

(** [if (storedLocation)]: an empty string is falsy. *)
Definition stored_truthy (s : stored) : bool :=
  match s with
  | Raw str => negb (String.eqb str "")
  | Stringified _ => true
  end.

Definition index_key (i : nat) : string := NilZero.string_of_uint (Nat.to_uint i).

Fixpoint indexed (i : nat) (l : list jsval) : list (string * jsval) :=
  match l with
  | [] => []
  | v :: r => (index_key i, v) :: indexed (S i) r
  end.

(** The own enumerable properties [{...v}] copies. *)
Definition spread (v : jsval) : list (string * jsval) :=
  match v with
  | VObj kvs => kvs
  | VArr l => indexed 0 l
  | VStr s => indexed 0 (map (fun c => VStr (String c EmptyString)) (list_ascii_of_string s))
  | _ => []
  end.

(** The test of lines 186 and 203. *)
Definition valid_fix (lat lng : float) : bool :=
  negb (Js.isNaN lat) && negb (Js.isNaN lng) && Js.strict_neq lat 0 && Js.strict_neq lng 0.

Definition location (lat lng : float) (isLastKnown : bool) (timestamp : field) : jsval :=
  VObj [("lat", VNum lat); ("lng", VNum lng); ("accuracy", VNum 15);
        ("isLastKnown", VBool isLastKnown); ("timestamp", field_value timestamp)].

Definition no_location : jsval :=
  VObj [("lat", VNull); ("lng", VNull); ("accuracy", VNum 15); ("isLastKnown", VBool true)].

(** The loop of lines 199-214. *)
Fixpoint historicalLocation (feeds : list FeedRecord) : option jsval :=
  match feeds with
  | [] => None
  | feed :: rest =>
      let lat := parseFloat (field5 feed) in
      let lng := parseFloat (field6 feed) in
      if valid_fix lat lng then Some (location lat lng true (created_at feed))
      else historicalLocation rest
  end.

Definition location_key (channelId : string) : string := "lastKnownLocation_" ++ channelId.

(** Lines 216-229: the cached entry with [isLastKnown] set, or the empty
    location when there is none or it does not parse. *)
Definition storedLocation (channelId : string) (st : store) : outcome jsval :=
  match getItem st (location_key channelId) with
  | Some storedLocation =>
      if stored_truthy storedLocation then
        match parse_stored storedLocation with
        | Ret v => Ret (VObj (obj_set (spread v) "isLastKnown" (VBool true)))
        | Throw _ => Ret no_location
        | Unmodelled => Unmodelled
        end
      else Ret no_location
  | None => Ret no_location
  end.

(** [latestEntry?.f]. *)
Definition optional (f : FeedRecord -> field) (entry : option FeedRecord) : field :=
  match entry with
  | Some e => f e
  | None => FUndefined
  end.

(** [getLastValidLocation(feeds, channelId)]. *)
Definition getLastValidLocation (feeds : list FeedRecord) (channelId : string) (st : store)
    : outcome jsval :=
  let latestEntry := hd_error feeds in
  let latitude := parseFloat (optional field5 latestEntry) in
  let longitude := parseFloat (optional field6 latestEntry) in
  if valid_fix latitude longitude then
    match latestEntry with
    | Some e => Ret (location latitude longitude false (created_at e))
    | None => Throw TypeError
    end
  else
    match historicalLocation feeds with
    | Some loc => Ret loc
    | None => storedLocation channelId st
    end.

(** ** The snapshot of current vitals *)

Module Vitals.
Record t := {
  temperature : display;
  alertLevel : float;
  heartRate : display;
  spo2 : display;
  avgEcg : display;
  ecgSamples : list float;
  bp : bp
}.
End Vitals.

Module Status.
Record t := {
  temperature : string;
  heartRate : string;
  spo2 : string;
  bp : string;
  alert : string
}.
End Status.

Record snapshot := {
  vitals : Vitals.t;
  location_of : jsval;
  status : Status.t;
  lastUpdated : text
}.

(** What a call may read and change: the random source and [localStorage]. *)
Record world := { random : rng; localStorage : store }.

Definition with_random (w : world) (g : rng) : world :=
  {| random := g; localStorage := localStorage w |}.

(** [!!v] for a JSON value. *)
Definition truthy (v : jsval) : bool :=
  match v with
  | VUndefined | VNull => false
  | VBool b => b
  | VNum x => negb (Js.falsy x)
  | VStr s => negb (String.eqb s "")
  | VArr _ | VObj _ => true
  end.

Definition member (v : jsval) (k : string) : jsval :=
  match v with
  | VObj kvs => obj_get kvs k
  | _ => VUndefined
  end.

(** ** Historical series *)

Record bp_entry := { entry_systolic : option float; entry_diastolic : option float }.

Module Series.
Record t := {
  timestamps : list float;
  temperature : list (option float);
  alertLevel : list (option float);
  heartRate : list (option float);
  spo2 : list (option float);
  bp : list bp_entry;
  avgEcg : list (option float)
}.
End Series.

Record historical := { raw_feeds : list FeedRecord; formatted : Series.t }.

Section Pipeline.

(** [Date.parse]: the time value of the date a string denotes, [NaN] when
    it denotes none.  Which strings beyond the ISO format denote a date is
    left to the engine, so the function is a parameter. *)
Variable Date_parse : string -> float.

(** The time value of [new Date(f)]. *)
Definition Date_new (f : field) : float :=
  match f with
  | FStr s => Date_parse s
  | FNull => 0%float
  | FUndefined => nan
  end.

(** [date.toISOString()] raises a [RangeError] on an invalid date. *)
Definition toISOString (t : float) : outcome text :=
  if Js.isNaN t then Throw RangeError else Ret [IsoText t].

Definition toLocaleString (t : float) : text := [LocaleText t].

Local Open Scope float_scope.

(** [mapThingSpeakToPatientVitals(data, channelId)], on [data.feeds];
    [None] is the [null] result. *)
Definition mapThingSpeakToPatientVitals (feeds : list FeedRecord) (channelId : string)
    (w : world) : outcome (option snapshot) * world :=
  match feeds with
  | [] => (Ret None, w)
  | latestEntry :: _ =>
      match getLastValidLocation feeds channelId (localStorage w) with
      | Throw e => (Throw e, w)
      | Unmodelled => (Unmodelled, w)
      | Ret locationData =>
          let w1 :=
            if truthy (member locationData "lat") && truthy (member locationData "lng")
            then {| random := random w;
                    localStorage := setItem (localStorage w) (location_key channelId)
                                      (Stringified locationData) |}
            else w in
          let temperature := parseFloat (field1 latestEntry) in
          let alertLevel := parseInt (field2 latestEntry) in
          let heartRate := parseFloat (field3 latestEntry) in
          let spo2 := parseFloat (field4 latestEntry) in
          let avgEcg := parseFloat (field7 latestEntry) in
          match JSON_parse (field8 latestEntry) with
          | Throw e => (Throw e, w1)
          | Unmodelled => (Unmodelled, w1)
          | Ret parsed =>
              match as_samples parsed with
              | Throw e => (Throw e, w1)
              | Unmodelled => (Unmodelled, w1)
              | Ret ecgSamples =>
                  let (bp, g) := calculateBP ecgSamples heartRate spo2 (random w1) in
                  (Ret (Some {|
                     vitals := {|
                       Vitals.temperature :=
                         if Js.isNaN temperature then DText [Lit "--"]
                         else DText (toFixed1 temperature);
                       Vitals.alertLevel := if Js.isNaN alertLevel then 0 else alertLevel;
                       Vitals.heartRate :=
                         if Js.isNaN heartRate then DText [Lit "--"]
                         else DNum (Js.Math_round heartRate);
                       Vitals.spo2 :=
                         if Js.isNaN spo2 then DText [Lit "--"] else DNum (Js.Math_round spo2);
                       Vitals.avgEcg := if Js.isNaN avgEcg then DText [Lit "--"] else DNum avgEcg;
                       Vitals.ecgSamples := match ecgSamples with Some xs => xs | None => [] end;
                       Vitals.bp := bp
                     |};
                     location_of := locationData;
                     status := {|
                       Status.temperature :=
                         if Js.gtb temperature 37.8 then "Elevated"
                         else if temperature <? 35.5 then "Low" else "Normal";
                       Status.heartRate :=
                         if Js.gtb heartRate 100 then "Elevated"
                         else if heartRate <? 60 then "Low" else "Normal";
                       Status.spo2 := if spo2 <? 95 then "Low" else "Normal";
                       Status.bp :=
                         if Js.gtb (systolic bp) 140 || Js.gtb (diastolic bp) 90 then "Elevated"
                         else if (systolic bp <? 90) || (diastolic bp <? 60) then "Low"
                         else "Normal";
                       Status.alert :=
                         if Js.strict_eq alertLevel 0 then "Normal"
                         else if Js.strict_eq alertLevel 1 then "Moderate Risk"
                         else "High Risk"
                     |};
                     lastUpdated := toLocaleString (Date_new (created_at latestEntry))
                   |}), with_random w1 g)
              end
          end
      end
  end.

(** ** CSV exporter *)

Definition headers : list text :=
  [[Lit "timestamp"]; [Lit "temperature"]; [Lit "alertLevel"]; [Lit "heartRate"];
   [Lit "spo2"]; [Lit "latitude"]; [Lit "longitude"]; [Lit "avgEcg"];
   [Lit "systolicBP"]; [Lit "diastolicBP"]].

(** [feed.field8 ? JSON.parse(feed.field8) : []], as samples. *)
Definition samples_of (feed : FeedRecord) : outcome (option (list float)) :=
  if field_truthy (field8 feed) then
    match JSON_parse (field8 feed) with
    | Ret parsed => as_samples parsed
    | Throw e => Throw e
    | Unmodelled => Unmodelled
    end
  else Ret (Some []).

(** The array [row] of lines 355-366, given the estimate for the record. *)
Definition row_cells (feed : FeedRecord) (iso : text) (bp : bp) : list display :=
  let temperature := parseFloat (field1 feed) in
  let alertLevel := parseInt (field2 feed) in
  let heartRate := parseFloat (field3 feed) in
  let spo2 := parseFloat (field4 feed) in
  let latitude := parseFloat (field5 feed) in
  let longitude := parseFloat (field6 feed) in
  let avgEcg := parseFloat (field7 feed) in
  [ DText iso;
    if Js.isNaN temperature then DText [Lit ""] else DText (toFixed1 temperature);
    if Js.isNaN alertLevel then DText [Lit ""] else DNum alertLevel;
    if Js.isNaN heartRate then DText [Lit ""] else DNum (Js.Math_round heartRate);
    if Js.isNaN spo2 then DText [Lit ""] else DNum (Js.Math_round spo2);
    if Js.isNaN latitude then DText [Lit ""] else DNum latitude;
    if Js.isNaN longitude then DText [Lit ""] else DNum longitude;
    if Js.isNaN avgEcg then DText [Lit ""] else DNum avgEcg;
    DNum (systolic bp);
    DNum (diastolic bp) ].

(** The callback of [data.feeds.forEach]: the cells of one record. *)
Definition feed_row (feed : FeedRecord) (g : rng) : outcome (list display) * rng :=
  match samples_of feed with
  | Throw e => (Throw e, g)
  | Unmodelled => (Unmodelled, g)
  | Ret ecgSamples =>
      let (bp, g1) := calculateBP ecgSamples (parseFloat (field3 feed)) (parseFloat (field4 feed)) g in
      match toISOString (Date_new (created_at feed)) with
      | Throw e => (Throw e, g1)
      | Unmodelled => (Unmodelled, g1)
      | Ret iso => (Ret (row_cells feed iso bp), g1)
      end
  end.

(** [data.feeds.forEach(...)], pushing one joined row per record. *)
Fixpoint forEach_feed (feeds : list FeedRecord) (csvRows : list text) (g : rng)
    : outcome (list text) * rng :=
  match feeds with
  | [] => (Ret csvRows, g)
  | feed :: rest =>
      match feed_row feed g with
      | (Ret row, g1) => forEach_feed rest (csvRows ++ [join "," (map ToString row)]) g1
      | (Throw e, g1) => (Throw e, g1)
      | (Unmodelled, g1) => (Unmodelled, g1)
      end
  end.

Definition newline : string := String (ascii_of_nat 10) EmptyString.

(** The array [csvRows] when the loop has finished. *)
Definition csvRows (feeds : list FeedRecord) (g : rng) : outcome (list text) * rng :=
  forEach_feed feeds [join "," headers] g.

(** [convertThingSpeakDataToCSV(data)], on [data.feeds]; [None] is the
    [null] result. *)
Definition convertThingSpeakDataToCSV (feeds : list FeedRecord) (g : rng)
    : outcome (option text) * rng :=
  match feeds with
  | [] => (Ret None, g)
  | _ =>
      match csvRows feeds g with
      | (Ret rows, g1) => (Ret (Some (join newline rows)), g1)
      | (Throw e, g1) => (Throw e, g1)
      | (Unmodelled, g1) => (Unmodelled, g1)
      end
  end.

(** ** Historical series assembler *)

Definition number_or_null (x : float) : option float :=
  if Js.isNaN x then None else Some x.

Definition null_bp : bp_entry := {| entry_systolic := None; entry_diastolic := None |}.

(** The callback of the [bp] series, lines 645-655: an exception raised
    inside is caught and gives the [null] entry. *)
Definition bp_of_feed (feed : FeedRecord) (g : rng) : outcome bp_entry * rng :=
  match samples_of feed with
  | Throw _ => (Ret null_bp, g)
  | Unmodelled => (Unmodelled, g)
  | Ret ecgSamples =>
      let heartRate := parseFloat (field3 feed) in
      let spo2 := parseFloat (field4 feed) in
      let (bp, g1) := calculateBP ecgSamples heartRate spo2 g in
      (Ret {| entry_systolic := Some (systolic bp); entry_diastolic := Some (diastolic bp) |}, g1)
  end.

(** [limitedFeeds.map(...)] for the [bp] series, threading the random
    source through the records in order. *)
Fixpoint map_bp (feeds : list FeedRecord) (g : rng) : outcome (list bp_entry) * rng :=
  match feeds with
  | [] => (Ret [], g)
  | feed :: rest =>
      match bp_of_feed feed g with
      | (Ret b, g1) =>
          match map_bp rest g1 with
          | (Ret bs, g2) => (Ret (b :: bs), g2)
          | other => other
          end
      | (Throw e, g1) => (Throw e, g1)
      | (Unmodelled, g1) => (Unmodelled, g1)
      end
  end.

(** [feeds.slice(-10)]. *)
Definition slice_last (n : nat) (feeds : list FeedRecord) : list FeedRecord :=
  skipn (length feeds - n) feeds.

(** [fetchHistoricalData] from the point where the response has been read
    (line 613), on [data.feeds]. *)
Definition fetchHistoricalData (feeds : list FeedRecord) (g : rng) : outcome historical * rng :=
  match feeds with
  | [] => (Throw (Error "No historical data available from ThingSpeak"), g)
  | _ =>
      let limitedFeeds := slice_last 10 feeds in
      match map_bp limitedFeeds g with
      | (Ret bps, g1) =>
          (Ret {| raw_feeds := limitedFeeds;
                  formatted := {|
                    Series.timestamps := map (fun feed => Date_new (created_at feed)) limitedFeeds;
                    Series.temperature :=
                      map (fun feed => number_or_null (parseFloat (field1 feed))) limitedFeeds;
                    Series.alertLevel :=
                      map (fun feed => number_or_null (parseInt (field2 feed))) limitedFeeds;
                    Series.heartRate :=
                      map (fun feed => number_or_null (parseFloat (field3 feed))) limitedFeeds;
                    Series.spo2 :=
                      map (fun feed => number_or_null (parseFloat (field4 feed))) limitedFeeds;
                    Series.bp := bps;
                    Series.avgEcg :=
                      map (fun feed => number_or_null (parseFloat (field7 feed))) limitedFeeds
                  |} |}, g1)
      | (Throw e, g1) => (Throw e, g1)
      | (Unmodelled, g1) => (Unmodelled, g1)
      end
  end.

End Pipeline.

(** ** Requests to the provider

    The asynchronous functions of the service are modelled from call to
    settlement: the outcome is what the returned promise settles to.
    [console] output is not modelled. *)

(** What the service reads in a response body [data]: a falsy body, a body
    without (truthy) [feeds], or a body whose [feeds] is an array of
    records. *)
Inductive payload :=
| PNull
| PNoFeeds
| PFeeds (feeds : list FeedRecord).

(** A property of a record as a field; the provider sends strings and
    [null]. *)
Definition as_field (v : jsval) : option field :=
  match v with
  | VUndefined => Some FUndefined
  | VNull => Some FNull
  | VStr s => Some (FStr s)
  | _ => None
  end.

Definition as_record (v : jsval) : option FeedRecord :=
  match v with
  | VObj props =>
      match as_field (obj_get props "created_at"),
            as_field (obj_get props "field1"), as_field (obj_get props "field2"),
            as_field (obj_get props "field3"), as_field (obj_get props "field4"),
            as_field (obj_get props "field5"), as_field (obj_get props "field6"),
            as_field (obj_get props "field7"), as_field (obj_get props "field8") with
      | Some c, Some f1, Some f2, Some f3, Some f4, Some f5, Some f6, Some f7, Some f8 =>
          Some {| created_at := c; field1 := f1; field2 := f2; field3 := f3; field4 := f4;
                  field5 := f5; field6 := f6; field7 := f7; field8 := f8 |}
      | _, _, _, _, _, _, _, _, _ => None
      end
  | _ => None
  end.

Fixpoint as_records (elems : list jsval) : option (list FeedRecord) :=
  match elems with
  | [] => Some []
  | v :: r =>
      match as_record v, as_records r with
      | Some feed, Some feeds => Some (feed :: feeds)
      | _, _ => None
      end
  end.

(** The view of a body that the tests [!data], [!data.feeds] and the
    loops over [data.feeds] take.  A truthy [feeds] that is no array, or
    records with properties other than strings and [null], are outside the
    model. *)
Definition as_payload (data : jsval) : outcome payload :=
  if negb (truthy data) then Ret PNull
  else
    match data with
    | VObj props =>
        let feeds := obj_get props "feeds" in
        if negb (truthy feeds) then Ret PNoFeeds
        else
          match feeds with
          | VArr elems =>
              match as_records elems with
              | Some records => Ret (PFeeds records)
              | None => Unmodelled
              end
          | _ => Unmodelled
          end
    | _ => Ret PNoFeeds
    end.

(** A response: [ok], [status], and what [json()] settles to. *)
Module Response.
Record t := { ok : bool; status : nat; json : outcome jsval }.
End Response.

(** A file handed to the browser by a click on a temporary link: the
    [download] attribute and the parts the [Blob] was made of.  The name
    of line 496, [patient_data_<channelId>_<day>.csv], holds the first ten
    characters of the ISO text of the current date. *)
Inductive blob_part := PartText (t : text) | PartNull.

Inductive file_name :=
| FileName (name : text)
| DatedFileName (channelId : string) (today : float).

Record download := { download_name : file_name; blob : list blob_part }.

(** The page a call runs in: the random source and [localStorage], what
    [fetch] settles to for a URL given the URLs requested before, the URLs
    requested so far, the files downloaded so far, the time value of the clock, and the running
    interval timers (identifier and period in milliseconds) with the next
    free identifier. *)
Record page := {
  world_of : world;
  respond : list text -> text -> outcome Response.t;
  requests : list text;
  downloads : list download;
  now : float;
  intervals : list (nat * float);
  next_interval : nat
}.

Definition with_world (p : page) (w : world) : page :=
  {| world_of := w; respond := respond p; requests := requests p;
     downloads := downloads p; now := now p;
     intervals := intervals p; next_interval := next_interval p |}.

(** [await fetch(url)]. *)
Definition fetch (url : text) (p : page) : outcome Response.t * page :=
  (respond p (requests p) url,
   {| world_of := world_of p; respond := respond p; requests := (requests p ++ [url])%list;
      downloads := downloads p; now := now p;
      intervals := intervals p; next_interval := next_interval p |}).

(** The link of lines 408-418: created, clicked and removed. *)
Definition click_download (name : file_name) (parts : list blob_part) (p : page) : page :=
  {| world_of := world_of p; respond := respond p; requests := requests p;
     downloads := (downloads p ++ [{| download_name := name; blob := parts |}])%list;
     now := now p; intervals := intervals p; next_interval := next_interval p |}.

Definition DEFAULT_READ_API_KEY : string := "MWFBV98HOZOHTHY4".
Definition BASE_URL : string := "https://api.thingspeak.com/channels".

Definition status_text (n : nat) : string := NilZero.string_of_uint (Nat.to_uint n).

Definition api_error (r : Response.t) : error :=
  Error ("ThingSpeak API error: " ++ status_text (Response.status r)).

(** [!channelId] for a channel id given as a string. *)
Definition no_channel (channelId : string) : bool := String.eqb channelId "".

Definition has_no_feeds (data : payload) : bool :=
  match data with
  | PFeeds (_ :: _) => false
  | _ => true
  end.

(** [fetchLatestData(channelId, apiKey, results)]; an error caught at line
    32 is raised again unchanged. *)
Definition fetchLatestData (channelId apiKey : string) (results : float) (p : page)
    : outcome jsval * page :=
  if no_channel channelId then (Throw (Error "Channel ID is required"), p)
  else
    let url := [Lit (BASE_URL ++ "/" ++ channelId ++ "/feeds.json?api_key=" ++ apiKey
                     ++ "&results="); NumText results] in
    match fetch url p with
    | (Ret response, p1) =>
        if negb (Response.ok response) then (Throw (api_error response), p1)
        else
          match Response.json response with
          | Ret data =>
              match as_payload data with
              | Ret view =>
                  if has_no_feeds view
                  then (Throw (Error "No data available from ThingSpeak"), p1)
                  else (Ret data, p1)
              | Throw e => (Throw e, p1)
              | Unmodelled => (Unmodelled, p1)
              end
          | Throw e => (Throw e, p1)
          | Unmodelled => (Unmodelled, p1)
          end
    | (Throw e, p1) => (Throw e, p1)
    | (Unmodelled, p1) => (Unmodelled, p1)
    end.

(** [fetchDataSinceLastUpdate(channelId, lastTimestamp, apiKey)], where
    [lastTimestamp] is [null] or the ISO string of the date with the given
    time value. *)
Definition fetchDataSinceLastUpdate (channelId : string) (lastTimestamp : option float)
    (apiKey : string) (p : page) : outcome jsval * page :=
  if no_channel channelId then (Throw (Error "Channel ID is required"), p)
  else
    let timestampParam :=
      match lastTimestamp with
      | Some t => [Lit "&start="; IsoText t]
      | None => [Lit ""]
      end in
    let url := (Lit (BASE_URL ++ "/" ++ channelId ++ "/feeds.json?api_key=" ++ apiKey)
                :: timestampParam)%list in
    match fetch url p with
    | (Ret response, p1) =>
        if negb (Response.ok response) then (Throw (api_error response), p1)
        else (Response.json response, p1)
    | (Throw e, p1) => (Throw e, p1)
    | (Unmodelled, p1) => (Unmodelled, p1)
    end.

Section Clients.

Variable Date_parse : string -> float.

(** The time value of the date [days] calendar days before the date with
    time value [t], in the local time zone (lines 387-388: [setDate] of
    [getDate() - days]). *)
Variable days_before : float -> float -> float.

(** [mapThingSpeakToPatientVitals(data, channelId)] on a response body:
    reading [data.feeds] raises on [null] and [undefined]. *)
Definition mapThingSpeakToPatientVitals_data (data : jsval) (channelId : string) (w : world)
    : outcome (option snapshot) * world :=
  match data with
  | VUndefined | VNull => (Throw TypeError, w)
  | _ =>
      match as_payload data with
      | Ret (PFeeds feeds) => mapThingSpeakToPatientVitals Date_parse feeds channelId w
      | Ret _ => (Ret None, w)
      | Throw e => (Throw e, w)
      | Unmodelled => (Unmodelled, w)
      end
  end.

(** [convertThingSpeakDataToCSV(data)] on a response body. *)
Definition convertThingSpeakDataToCSV_data (data : jsval) (g : rng)
    : outcome (option text) * rng :=
  match as_payload data with
  | Ret (PFeeds feeds) => convertThingSpeakDataToCSV Date_parse feeds g
  | Ret _ => (Ret None, g)
  | Throw e => (Throw e, g)
  | Unmodelled => (Unmodelled, g)
  end.

(** [getPatientVitals(channelId)]. *)
Definition getPatientVitals (channelId : string) (p : page) : outcome snapshot * page :=
  if no_channel channelId then (Throw (Error "Channel ID is required"), p)
  else
    match fetchLatestData channelId DEFAULT_READ_API_KEY 1 p with
    | (Ret data, p1) =>
        match mapThingSpeakToPatientVitals_data data channelId (world_of p1) with
        | (Ret (Some vitals), w) => (Ret vitals, with_world p1 w)
        | (Ret None, w) =>
            (Throw (Error "Failed to map ThingSpeak data to vitals"), with_world p1 w)
        | (Throw e, w) => (Throw e, with_world p1 w)
        | (Unmodelled, w) => (Unmodelled, with_world p1 w)
        end
    | (Throw e, p1) => (Throw e, p1)
    | (Unmodelled, p1) => (Unmodelled, p1)
    end.

(** [downloadThingSpeakDataAsCSV(channelId, filename, days)]; [true] is
    the only value it returns. *)
Definition downloadThingSpeakDataAsCSV (channelId : string) (filename : text) (days : float)
    (p : page) : outcome bool * page :=
  if no_channel channelId then (Throw (Error "Channel ID is required"), p)
  else
    match toISOString (days_before (now p) days) with
    | Ret start =>
        let url := (Lit (BASE_URL ++ "/" ++ channelId ++ "/feeds.json?api_key="
                         ++ DEFAULT_READ_API_KEY ++ "&start=") :: start)%list in
        match fetch url p with
        | (Ret response, p1) =>
            if negb (Response.ok response) then (Throw (api_error response), p1)
            else
              match Response.json response with
              | Ret data =>
                  match convertThingSpeakDataToCSV_data data (random (world_of p1)) with
                  | (Ret (Some csvContent), g) =>
                      (Ret true,
                       click_download (FileName filename) [PartText csvContent]
                         (with_world p1 (with_random (world_of p1) g)))
                  | (Ret None, g) =>
                      (Throw (Error "No data available to download"),
                       with_world p1 (with_random (world_of p1) g))
                  | (Throw e, g) => (Throw e, with_world p1 (with_random (world_of p1) g))
                  | (Unmodelled, g) => (Unmodelled, with_world p1 (with_random (world_of p1) g))
                  end
              | Throw e => (Throw e, p1)
              | Unmodelled => (Unmodelled, p1)
              end
        | (Throw e, p1) => (Throw e, p1)
        | (Unmodelled, p1) => (Unmodelled, p1)
        end
    | Throw e => (Throw e, p)
    | Unmodelled => (Unmodelled, p)
    end.

End Clients.

(** ** The patient page (PatientDetail component)

    The functions of the component that consume what the service returns:
    the chart data built from a historical series and the alert shown for
    a snapshot. *)

Module PatientDetail.

Local Open Scope float_scope.

(** An element read from an array by index: [None] is [undefined] (past
    the end); inside, [None] is [null]. *)
Definition element := option (option float).

(** The test of line 587:
    [value !== undefined && !isNaN(value) && value !== null];
    [isNaN(null)] is false, so [null] is excluded by the last conjunct. *)
Definition valid_value (value : element) : bool :=
  match value with
  | None => false
  | Some None => false
  | Some (Some x) => negb (Js.isNaN x)
  end.

(** [array.map((item, index) => f(item, index))]. *)
Fixpoint map_index {A B : Type} (f : A -> nat -> B) (items : list A) (index : nat) : list B :=
  match items with
  | [] => []
  | item :: rest => f item index :: map_index f rest (S index)
  end.

Record chart := { labels : list float; data : list element }.

(** [prepareHistoricalChartData(timestamps, values, label, color)]: the
    labels and the data of its one dataset. *)
Definition prepareHistoricalChartData (timestamps : list float) (values : list (option float))
    : chart :=
  let validData :=
    filter (fun item => valid_value (snd item))
      (map_index (fun time index => (time, nth_error values index)) timestamps 0) in
  {| labels := map fst validData; data := map snd validData |}.

Record bp_chart := {
  bp_labels : list float;
  systolic_data : list element;
  diastolic_data : list element
}.

(** [prepareBPChartData(timestamps, bpData)]: [bpData[index]?.systolic] is
    [undefined] past the end of [bpData]. *)
Definition prepareBPChartData (timestamps : list float) (bpData : list bp_entry) : bp_chart :=
  let validData :=
    filter (fun item => valid_value (fst (snd item)) && valid_value (snd (snd item)))
      (map_index
         (fun time index =>
            (time, (option_map entry_systolic (nth_error bpData index),
                    option_map entry_diastolic (nth_error bpData index))))
         timestamps 0) in
  {| bp_labels := map fst validData;
     systolic_data := map (fun item => fst (snd item)) validData;
     diastolic_data := map (fun item => snd (snd item)) validData |}.

(** Line 450: the level set by hand, when there is one ([None] is
    [null]), else the level of the snapshot. *)
Definition effectiveAlertLevel (manualAlertLevel : option float) (patientData : snapshot)
    : float :=
  match manualAlertLevel with
  | Some level => level
  | None => Vitals.alertLevel (vitals patientData)
  end.

(** Lines 451-452. *)
Definition alertStatusText (effectiveAlertLevel : float) : string :=
  if Js.strict_eq effectiveAlertLevel 0 then "Normal"
  else if Js.strict_eq effectiveAlertLevel 1 then "Moderate Risk" else "High Risk".

(** [getAlertClass(alertLevel)]: a [switch] compares with [===]. *)
Definition getAlertClass (alertLevel : float) : string :=
  if Js.strict_eq alertLevel 0 then "normal"
  else if Js.strict_eq alertLevel 1 then "moderate-risk"
  else if Js.strict_eq alertLevel 2 then "high-risk"
  else "normal".

(** Line 650: the alert banner is rendered when [effectiveAlertLevel > 0]. *)
Definition banner_shown (effectiveAlertLevel : float) : bool := Js.gtb effectiveAlertLevel 0.

End PatientDetail.

(** ** Continuous logging to [localStorage]

    [startContinuousDataLogging] returns a controller whose methods share
    three variables.  Each method is modelled from call to settlement,
    with no other call in between; the storage quota is not modelled. *)

(** [localStorage.removeItem(k)]. *)
Definition removeItem (st : store) (k : string) : store :=
  filter (fun entry => negb (String.eqb k (fst entry))) st.

(** [v.k] for the properties the logger reads ([feeds], [created_at]),
    none of which a string, a number, a boolean or an array has. *)
Definition get_property (v : jsval) (k : string) : outcome jsval :=
  match v with
  | VUndefined | VNull => Throw TypeError
  | VObj props => Ret (obj_get props k)
  | _ => Ret VUndefined
  end.

(** [feeds.length > n] for a truthy [feeds]. *)
Definition length_above (feeds : jsval) (n : nat) : outcome bool :=
  match feeds with
  | VArr elems => Ret (n <? length elems)%nat
  | VStr s => Ret (n <? String.length s)%nat
  | VNum _ | VBool _ => Ret false
  | _ => Unmodelled
  end.

(** [feeds[feeds.length - 1]] for an array or a string that is not empty. *)
Definition last_element (feeds : jsval) : outcome jsval :=
  match feeds with
  | VArr elems => Ret (last elems VUndefined)
  | VStr s =>
      Ret (match rev (list_ascii_of_string s) with
           | c :: _ => VStr (String c EmptyString)
           | [] => VUndefined
           end)
  | _ => Unmodelled
  end.

(** The elements [...v] contributes to an array literal; a value that is
    not iterable raises. *)
Definition iterate (v : jsval) : outcome (list jsval) :=
  match v with
  | VArr elems => Ret elems
  | VStr s => Ret (map (fun c => VStr (String c EmptyString)) (list_ascii_of_string s))
  | _ => Throw TypeError
  end.

Module Logger.

(** The variables [intervalId], [isLogging] and [lastTimestamp];
    [lastTimestamp] is [null] or the ISO string of the date with the given
    time value. *)
Record t := { intervalId : option nat; isLogging : bool; lastTimestamp : option float }.

Definition initial : t := {| intervalId := None; isLogging := false; lastTimestamp := None |}.

(** Computations on the controller and the page that may raise; what was
    changed before an exception stays changed. *)
Definition state := (t * page)%type.
Definition M (A : Type) := state -> outcome A * state.

Definition ret {A : Type} (a : A) : M A := fun s => (Ret a, s).

Definition bind {A B : Type} (m : M A) (k : A -> M B) : M B :=
  fun s =>
    match m s with
    | (Ret a, s1) => k a s1
    | (Throw e, s1) => (Throw e, s1)
    | (Unmodelled, s1) => (Unmodelled, s1)
    end.

Definition lift {A : Type} (o : outcome A) : M A := fun s => (o, s).

(** [try { body } catch (error) { handler }]. *)
Definition try_catch {A : Type} (body : M A) (handler : M A) : M A :=
  fun s =>
    match body s with
    | (Throw _, s1) => handler s1
    | r => r
    end.

Notation "'do' x <- m ; k" := (bind m (fun x => k))
  (at level 10, x name, m at level 100, k at level 200).
Notation "m ;; k" := (bind m (fun _ => k)) (at level 100, right associativity).

Definition on_page {A : Type} (f : page -> outcome A * page) : M A :=
  fun s => let (r, p) := f (snd s) in (r, (fst s, p)).

Definition update_store (f : store -> store) : M unit :=
  fun s =>
    let p := snd s in
    (Ret tt, (fst s, with_world p {| random := random (world_of p);
                                     localStorage := f (localStorage (world_of p)) |})).

Definition localStorage_getItem (k : string) : M (option stored) :=
  fun s => (Ret (getItem (localStorage (world_of (snd s))) k), s).

Definition localStorage_setItem (k : string) (v : stored) : M unit :=
  update_store (fun st => setItem st k v).

Definition localStorage_removeItem (k : string) : M unit :=
  update_store (fun st => removeItem st k).

Definition set_lastTimestamp (v : option float) : M unit :=
  fun s => (Ret tt, ({| intervalId := intervalId (fst s); isLogging := isLogging (fst s);
                        lastTimestamp := v |}, snd s)).

(** [setInterval(callback, period)] and [clearInterval(id)]. *)
Definition setInterval (period : float) : M nat :=
  fun s =>
    let p := snd s in
    (Ret (next_interval p),
     (fst s, {| world_of := world_of p; respond := respond p; requests := requests p;
                downloads := downloads p; now := now p;
                intervals := (intervals p ++ [(next_interval p, period)])%list;
                next_interval := S (next_interval p) |})).

Definition clearInterval (id : option nat) : M unit :=
  fun s =>
    let p := snd s in
    (Ret tt,
     (fst s, {| world_of := world_of p; respond := respond p; requests := requests p;
                downloads := downloads p; now := now p;
                intervals :=
                  match id with
                  | Some i => filter (fun timer => negb (Nat.eqb i (fst timer))) (intervals p)
                  | None => intervals p
                  end;
                next_interval := next_interval p |})).

Section Controller.

Variable Date_parse : string -> float.

(** The arguments of [startContinuousDataLogging]. *)
Variable channelId : string.
Variable intervalMinutes : float.

Definition storageKey : string := "thingspeak_data_" ++ channelId.

(** The time value of [new Date(v)] for what [created_at] can hold. *)
Definition date_of (v : jsval) : outcome float :=
  match v with
  | VStr s => Ret (Date_parse s)
  | VUndefined => Ret nan
  | VNull => Ret 0%float
  | _ => Unmodelled
  end.

(** [new Date(latestEntry.created_at).toISOString()] for the last element
    of [feeds], as the time value of that date. *)
Definition latest_timestamp (feeds : jsval) : outcome float :=
  match last_element feeds with
  | Ret latestEntry =>
      match get_property latestEntry "created_at" with
      | Ret created =>
          match date_of created with
          | Ret t =>
              match toISOString t with
              | Ret _ => Ret t
              | Throw e => Throw e
              | Unmodelled => Unmodelled
              end
          | Throw e => Throw e
          | Unmodelled => Unmodelled
          end
      | Throw e => Throw e
      | Unmodelled => Unmodelled
      end
  | Throw e => Throw e
  | Unmodelled => Unmodelled
  end.

(** [v.feeds && v.feeds.length > 0], on a [v] whose [feeds] can be read. *)
Definition feeds_present (v : jsval) : outcome bool :=
  match get_property v "feeds" with
  | Ret feeds => if truthy feeds then length_above feeds 0 else Ret false
  | Throw e => Throw e
  | Unmodelled => Unmodelled
  end.

(** [initFromStorage()], lines 444-459. *)
Definition initFromStorage : M unit :=
  do storedData <- localStorage_getItem storageKey;
  match storedData with
  | Some storedData =>
      if stored_truthy storedData then
        try_catch
          (do parsedData <- lift (parse_stored storedData);
           do present <- lift (feeds_present parsedData);
           if present then
             do feeds <- lift (get_property parsedData "feeds");
             do t <- lift (latest_timestamp feeds);
             set_lastTimestamp (Some t)
           else ret tt)
          (localStorage_removeItem storageKey)
      else ret tt
  | None => ret tt
  end.

Definition blob_of (csvContent : option text) : list blob_part :=
  match csvContent with
  | Some t => [PartText t]
  | None => [PartNull]
  end.

Definition convertToCSV (data : jsval) : M (option text) :=
  fun s =>
    let p := snd s in
    let (r, g) := convertThingSpeakDataToCSV_data Date_parse data (random (world_of p)) in
    (r, (fst s, with_world p (with_random (world_of p) g))).

Definition download_file (name : file_name) (parts : list blob_part) : M unit :=
  fun s => (Ret tt, (fst s, click_download name parts (snd s))).

(** [{...data, feeds: feeds}]. *)
Definition with_feeds (data feeds : jsval) : jsval :=
  VObj (obj_set (spread data) "feeds" feeds).

(** [fetchAndStore()], lines 462-513. *)
Definition fetchAndStore : M unit :=
  try_catch
    (do lastTimestamp <- (fun s => (Ret (lastTimestamp (fst s)), s));
     do data <- on_page (fetchDataSinceLastUpdate channelId lastTimestamp DEFAULT_READ_API_KEY);
     do present <- lift (if truthy data then feeds_present data else Ret false);
     if present then
       do feeds <- lift (get_property data "feeds");
       do t <- lift (latest_timestamp feeds);
       set_lastTimestamp (Some t);;
       do storedData <- localStorage_getItem storageKey;
       do mergedData <-
         match storedData with
         | Some storedData =>
             if stored_truthy storedData then
               do parsedData <- lift (parse_stored storedData);
               do stored_feeds <- lift (get_property parsedData "feeds");
               do old <- lift (iterate stored_feeds);
               do new <- lift (iterate feeds);
               ret (with_feeds data (VArr (old ++ new)))
             else ret data
         | None => ret data
         end;
       localStorage_setItem storageKey (Stringified mergedData);;
       do merged_feeds <- lift (get_property mergedData "feeds");
       do large <- lift (length_above merged_feeds 1000);
       if large then
         do csvContent <- convertToCSV mergedData;
         do today <- (fun s => (Ret (now (snd s)), s));
         download_file (DatedFileName channelId today) (blob_of csvContent);;
         localStorage_setItem storageKey (Stringified (with_feeds data feeds))
       else ret tt
     else ret tt)
    (ret tt).

(** [start()]: [undefined] ([None]) when already logging, else [true]. *)
Definition start : M (option bool) :=
  fun s =>
    if isLogging (fst s) then (Ret None, s)
    else
      (initFromStorage;;
       fetchAndStore;;
       do id <- setInterval (intervalMinutes * 60 * 1000)%float;
       fun s1 =>
         (Ret (Some true),
          ({| intervalId := Some id; isLogging := true;
              lastTimestamp := lastTimestamp (fst s1) |}, snd s1))) s.

(** [stop()]. *)
Definition stop : M (option bool) :=
  fun s =>
    if negb (isLogging (fst s)) then (Ret None, s)
    else
      (clearInterval (intervalId (fst s));;
       fun s1 =>
         (Ret (Some true),
          ({| intervalId := None; isLogging := false;
              lastTimestamp := lastTimestamp (fst s1) |}, snd s1))) s.

(** [exportToCSV(filename)]; [None] is the default name. *)
Definition exportToCSV (filename : option text) : M bool :=
  let filename :=
    match filename with
    | Some name => name
    | None => [Lit ("patient_data_" ++ channelId ++ ".csv")]
    end in
  do storedData <- localStorage_getItem storageKey;
  match storedData with
  | Some storedData =>
      if stored_truthy storedData then
        try_catch
          (do parsedData <- lift (parse_stored storedData);
           do csvContent <- convertToCSV parsedData;
           download_file (FileName filename) (blob_of csvContent);;
           ret true)
          (ret false)
      else ret false
  | None => ret false
  end.

(** [getStoredData()]. *)
Definition getStoredData : M jsval :=
  do storedData <- localStorage_getItem storageKey;
  match storedData with
  | Some storedData =>
      if stored_truthy storedData then lift (parse_stored storedData) else ret VNull
  | None => ret VNull
  end.

(** [clearStoredData()]. *)
Definition clearStoredData : M bool :=
  localStorage_removeItem storageKey;;
  set_lastTimestamp None;;
  ret true.

End Controller.

(** [startContinuousDataLogging(channelId, intervalMinutes)]: the controller
    in its first state. *)
Definition startContinuousDataLogging (channelId : string) : outcome t :=
  if no_channel channelId then Throw (Error "Channel ID is required") else Ret initial.

End Logger.

(** * Vocabulary of the properties

    The service's functions are above.  What follows names the quantities
    the properties speak about and the sample data they are tried on. *)

Close Scope string_scope.

Section Vocabulary.
Variable Date_parse : string -> float.
Local Open Scope float_scope.

(** ** Blood-pressure estimate

    The effects of lines 93-111, as functions of the inputs. *)
Definition hrEffect (heartRate : float) : float :=
  if (60 <=? heartRate) && (heartRate <=? 100) then 0
  else if heartRate <? 60 then -10 * (1 - heartRate / 60)
  else 15 * ((heartRate - 100) / 50).

(** [5 * (95 - spo2) / 5] whenever [spo2 >= 95] does not hold, which
    includes a [spo2] that is not a number. *)
Definition spo2Effect_claimed (spo2 : float) : float :=
  if 95 <=? spo2 then 0 else 5 * ((95 - spo2) / 5).

(** The effect the service computes: the test is [spo2 < 95]. *)
Definition spo2Effect (spo2 : float) : float :=
  if spo2 <? 95 then 5 * ((95 - spo2) / 5) else 0.

Definition ecgEffect (samples : list float) : float :=
  10 * calculateEcgVariability (Some samples).

(** The rounded sums of lines 118 and 122, clamped as lines 125-128 do. *)
Definition estimate (samples : list float) (heartRate spo2 : float) : bp :=
  {| systolic := clampValue (Js.Math_round
        (120 + 0.6 * hrEffect heartRate + 0.2 * spo2Effect spo2 + 0.2 * ecgEffect samples)) 80 200;
     diastolic := clampValue (Js.Math_round
        (80 + 0.4 * hrEffect heartRate + 0.1 * spo2Effect spo2 + 0.1 * ecgEffect samples)) 40 120 |}.

Definition twenty_samples : list float := flat_map (fun _ => [1.5; 0.3]) (repeat tt 10).

Definition no_draws : rng := {| draws := fun _ => 0; drawn := 0 |}.

(** A zero, an infinity or a finite number with the sign [s]. *)
Definition signed (s : bool) (x : spec_float) : Prop :=
  match x with
  | S754_nan => False
  | S754_zero s' | S754_infinity s' | S754_finite s' _ _ => s' = s
  end.

Definition is_num (x : spec_float) : Prop := x <> S754_nan.

(** Finite values (zero included) *)
Definition SFfinite (x : spec_float) : Prop :=
  match x with
  | S754_zero _ | S754_finite _ _ _ => True
  | _ => False
  end.

Definition mean (xs : list float) : float := sum xs / Js.of_nat (length xs).




Definition within (lo hi x : float) : bool := (lo <=? x) && (x <=? hi).

(** ** The snapshot of current vitals *)

Definition unavailable : display := DText [Lit "--"].

(** How the snapshot shows a parsed vital: to one decimal, rounded, or as
    it is; ["--"] stands for a value that is not a number. *)
Definition shown_fixed (x : float) : display :=
  if Js.isNaN x then unavailable else DText (toFixed1 x).

Definition shown_rounded (x : float) : display :=
  if Js.isNaN x then unavailable else DNum (Js.Math_round x).

Definition shown_number (x : float) : display :=
  if Js.isNaN x then unavailable else DNum x.

Definition display_nan (d : display) : bool :=
  match d with
  | DNum x => is_nan x
  | DText _ => false
  end.

(** Sample data: a [Date.parse] that knows one timestamp, a random source
    that always yields 0.5, and feed records. *)
Definition example_Date_parse (s : string) : float :=
  if String.eqb s "2024-01-01T00:00:00Z" then 1704067200000 else nan.

Definition steady_draws : rng := {| draws := fun _ => 0.5; drawn := 0 |}.

Definition empty_world : world := {| random := steady_draws; localStorage := [] |}.

Definition unparsed_record : FeedRecord :=
  {| created_at := FStr "2024-01-01T00:00:00Z";
     field1 := FStr "n/a"; field2 := FStr "abc"; field3 := FNull; field4 := FStr "";
     field5 := FStr "0"; field6 := FStr "5"; field7 := FUndefined; field8 := FStr "[]" |}.

Definition rounded_record : FeedRecord :=
  {| created_at := FStr "2024-01-01T00:00:00Z";
     field1 := FStr "37.25"; field2 := FStr "1"; field3 := FStr "72.6"; field4 := FStr "97.5";
     field5 := FStr "17.385"; field6 := FStr "78.4867"; field7 := FStr "Infinity";
     field8 := FStr "[0.1,0.1,0.1,0.1,0.1,0.1,0.1,0.1,0.1,0.1,0.1,0.1]" |}.

(** ** Location resolver *)

(** The first record, in the order given, whose coordinates pass the test. *)
Definition first_fix (feeds : list FeedRecord) : option FeedRecord :=
  find (fun feed => valid_fix (parseFloat (field5 feed)) (parseFloat (field6 feed))) feeds.

Definition last_known (feed : FeedRecord) : jsval :=
  location (parseFloat (field5 feed)) (parseFloat (field6 feed)) true (created_at feed).

Definition zero_latitude_record : FeedRecord :=
  {| created_at := FStr "2024-01-01T00:02:00Z";
     field1 := FStr "36.9"; field2 := FStr "0"; field3 := FStr "70"; field4 := FStr "98";
     field5 := FStr "0"; field6 := FStr "5"; field7 := FStr "0.4"; field8 := FStr "[]" |}.

Definition earlier_fix_record : FeedRecord :=
  {| created_at := FStr "2024-01-01T00:00:00Z";
     field1 := FStr "36.8"; field2 := FStr "0"; field3 := FStr "71"; field4 := FStr "98";
     field5 := FStr "17.385"; field6 := FStr "78.4867"; field7 := FStr "0.4"; field8 := FStr "[]" |}.

Definition infinite_latitude_record : FeedRecord :=
  {| created_at := FStr "2024-01-01T00:00:00Z";
     field1 := FStr "36.8"; field2 := FStr "0"; field3 := FStr "71"; field4 := FStr "98";
     field5 := FStr "Infinity"; field6 := FStr "5"; field7 := FStr "0.4"; field8 := FStr "[]" |}.

(** The cache of [channelId] in [st] holds text that parses to [entry]. *)
Definition cached (st : store) (channelId : string) (entry : jsval) : Prop :=
  exists s, getItem st (location_key channelId) = Some s
            /\ stored_truthy s = true /\ parse_stored s = Ret entry.

(** The cache has no entry for [channelId], or an empty one, or one that
    is not JSON. *)
Definition nothing_cached (st : store) (channelId : string) : Prop :=
  match getItem st (location_key channelId) with
  | None => True
  | Some s => stored_truthy s = false \/ exists e, parse_stored s = Throw e
  end.

Definition infinite_history : list FeedRecord := [zero_latitude_record; infinite_latitude_record].

(** A cache as the snapshot leaves it after a fix for channel 42. *)
Definition cached_fix : store :=
  [(location_key "42",
    Stringified (location 17.385 78.4867 false (FStr "2024-01-01T00:00:00Z")))].

(** ** CSV exporter *)

(** The cells of the row of a record, given the estimate made for it. *)
Definition record_cells (feed : FeedRecord) (estimate : bp) : list display :=
  row_cells feed [IsoText (Date_new Date_parse (created_at feed))] estimate.

Definition record_row (p : FeedRecord * bp) : text :=
  join "," (map ToString (record_cells (fst p) (snd p))).

(** A record the exporter can process. *)
Definition exportable (feed : FeedRecord) : Prop :=
  (exists samples, samples_of feed = Ret samples)
  /\ Js.isNaN (Date_new Date_parse (created_at feed)) = false.

(** The characters of a text made of literal pieces only. *)
Fixpoint literal (t : text) : option string :=
  match t with
  | [] => Some EmptyString
  | Lit s :: r => option_map (String.append s) (literal r)
  | _ => None
  end.

Definition empty_cell : display := DText [Lit ""].

Definition csv_fixed (x : float) : display :=
  if Js.isNaN x then empty_cell else DText (toFixed1 x).

Definition csv_rounded (x : float) : display :=
  if Js.isNaN x then empty_cell else DNum (Js.Math_round x).

Definition csv_number (x : float) : display :=
  if Js.isNaN x then empty_cell else DNum x.

Definition malformed_record : FeedRecord :=
  {| created_at := FStr "2024-01-01T00:00:00Z";
     field1 := FStr "36.7"; field2 := FStr "0"; field3 := FStr "75"; field4 := FStr "97";
     field5 := FStr "17.385"; field6 := FStr "78.4867"; field7 := FStr "0.4";
     field8 := FStr "[0.1,0.2" |}.

Definition batch : list FeedRecord := [rounded_record; malformed_record; zero_latitude_record].

(** ** Historical series *)

(** The entry of the [bp] series that belongs to a record: the [null]
    entry when its samples fail to parse, else an estimate for it. *)
Definition bp_entry_for (feed : FeedRecord) (b : bp_entry) : Prop :=
  (exists e, samples_of feed = Throw e /\ b = null_bp)
  \/ (exists samples g estimate g1,
        samples_of feed = Ret samples
        /\ calculateBP samples (parseFloat (field3 feed)) (parseFloat (field4 feed)) g
             = (estimate, g1)
        /\ b = {| entry_systolic := Some (systolic estimate);
                  entry_diastolic := Some (diastolic estimate) |}).

(** An entry of a numeric series beside the Number its field parses to:
    [null] when that Number is [NaN], else the Number itself. *)
Definition entry_of (parsed : float) (entry : option float) : Prop :=
  match entry with
  | None => Js.isNaN parsed = true
  | Some x => Js.isNaN parsed = false /\ x = parsed
  end.

(** The samples an estimate is made from: none when [field8] is absent or
    empty, else what the text of [field8] parses to. *)
Definition ecg_of (feed : FeedRecord) (samples : option (list float)) : Prop :=
  if field_truthy (field8 feed)
  then exists parsed, JSON_parse (field8 feed) = Ret parsed /\ as_samples parsed = Ret samples
  else samples = Some [].

(** An entry of the [bp] series beside its record: [null] twice when
    [field8] holds text that is not JSON, else an estimate from the
    samples, the heart rate and the SpO2 of that record. *)
Definition bp_entry_of (feed : FeedRecord) (b : bp_entry) : Prop :=
  match entry_systolic b, entry_diastolic b with
  | None, None =>
      field_truthy (field8 feed) = true /\ exists e, JSON_parse (field8 feed) = Throw e
  | Some s, Some d =>
      exists samples g estimate g1,
        ecg_of feed samples
        /\ calculateBP samples (parseFloat (field3 feed)) (parseFloat (field4 feed)) g
           = (estimate, g1)
        /\ s = systolic estimate /\ d = diastolic estimate
  | _, _ => False
  end.

(** The arrays of a series, entry by entry beside the records. *)
Definition series_of (limitedFeeds : list FeedRecord) (s : Series.t) : Prop :=
  Series.timestamps s = map (fun feed => Date_new Date_parse (created_at feed)) limitedFeeds
  /\ Forall2 (fun feed => entry_of (parseFloat (field1 feed))) limitedFeeds (Series.temperature s)
  /\ Forall2 (fun feed => entry_of (parseInt (field2 feed))) limitedFeeds (Series.alertLevel s)
  /\ Forall2 (fun feed => entry_of (parseFloat (field3 feed))) limitedFeeds (Series.heartRate s)
  /\ Forall2 (fun feed => entry_of (parseFloat (field4 feed))) limitedFeeds (Series.spo2 s)
  /\ Forall2 (fun feed => entry_of (parseFloat (field7 feed))) limitedFeeds (Series.avgEcg s)
  /\ Forall2 bp_entry_of limitedFeeds (Series.bp s).

Definition mixed_batch : list FeedRecord := [rounded_record; malformed_record; unparsed_record].

(** ** Rounding and the random source *)

(** After [j] right shifts of a mantissa [M]: what is kept, scaled back,
    is below [M]; with the round bit set, at least half a unit more is. *)
Definition shifted (M j : Z) (mrs : shr_record) : Prop :=
  (0 <= shr_m mrs)%Z
  /\ (shr_m mrs * 2 ^ j <= M)%Z
  /\ (shr_r mrs = true -> (2 * shr_m mrs * 2 ^ j + 2 ^ j <= 2 * M)%Z).

Definition unit_draws (g : rng) : Prop :=
  forall i, (0 <=? draws g i) = true /\ (draws g i <? 1) = true.

Definition in_range (b : bp) : bool :=
  within 80 200 (systolic b) && within 40 120 (diastolic b).

Definition overflowing_record : FeedRecord :=
  {| created_at := FStr "2024-01-01T00:00:00Z";
     field1 := FStr "36.6"; field2 := FStr "0"; field3 := FStr "70"; field4 := FStr "98";
     field5 := FStr "17.385"; field6 := FStr "78.4867"; field7 := FStr "0.4";
     field8 := FStr "[1e999,1e999,1e999,1e999,1e999,1e999,1e999,1e999,1e999,1e999]" |}.

(** ** Further vocabulary *)

(** The test of line 186 on the first record of the list; a list without
    records has no coordinates to accept. *)
Definition current_accepted (feeds : list FeedRecord) : bool :=
  match feeds with
  | [] => false
  | latestEntry :: _ =>
      valid_fix (parseFloat (field5 latestEntry)) (parseFloat (field6 latestEntry))
  end.

Definition undated_record : FeedRecord :=
  {| created_at := FStr "yesterday";
     field1 := FStr "36.7"; field2 := FStr "0"; field3 := FStr "75"; field4 := FStr "97";
     field5 := FStr "17.385"; field6 := FStr "78.4867"; field7 := FStr "0.4";
     field8 := FStr "[]" |}.

(** A record whose ECG samples parse, and one whose [created_at] is a date. *)
Definition parseable (feed : FeedRecord) : Prop := exists samples, samples_of feed = Ret samples.

Definition dated (feed : FeedRecord) : Prop :=
  Js.isNaN (Date_new Date_parse (created_at feed)) = false.

(** ** Requests *)

(** The URL [fetchLatestData] requests with the default key and one result. *)
Definition latest_url (channelId : string) : text :=
  [Lit (BASE_URL ++ "/" ++ channelId ++ "/feeds.json?api_key=" ++ DEFAULT_READ_API_KEY
        ++ "&results=")%string; NumText 1].

(** The JSON of a record and of a body with records. *)
Definition record_value (feed : FeedRecord) : jsval :=
  VObj [("created_at"%string, field_value (created_at feed));
        ("field1"%string, field_value (field1 feed)); ("field2"%string, field_value (field2 feed));
        ("field3"%string, field_value (field3 feed)); ("field4"%string, field_value (field4 feed));
        ("field5"%string, field_value (field5 feed)); ("field6"%string, field_value (field6 feed));
        ("field7"%string, field_value (field7 feed)); ("field8"%string, field_value (field8 feed))].

Definition body_of (feeds : list FeedRecord) : jsval :=
  VObj [("feeds"%string, VArr (map record_value feeds))].

(** A provider that answers every request with the same records. *)
Definition serving (feeds : list FeedRecord) : page :=
  {| world_of := empty_world;
     respond := fun _ _ => Ret {| Response.ok := true; Response.status := 200;
                                Response.json := Ret (body_of feeds) |};
     requests := [];
     downloads := [];
     now := 1704067200000;
     intervals := [];
     next_interval := 1 |}.

(** A record and a body as the provider sends them: each record carries
    its entry number, and the body describes the channel beside the
    records. *)
Definition numbered_record (feed : FeedRecord) : jsval :=
  VObj [("created_at"%string, field_value (created_at feed)); ("entry_id"%string, VNum 1);
        ("field1"%string, field_value (field1 feed)); ("field2"%string, field_value (field2 feed));
        ("field3"%string, field_value (field3 feed)); ("field4"%string, field_value (field4 feed));
        ("field5"%string, field_value (field5 feed)); ("field6"%string, field_value (field6 feed));
        ("field7"%string, field_value (field7 feed)); ("field8"%string, field_value (field8 feed))].

Definition channel_body (feeds : list FeedRecord) : jsval :=
  VObj [("channel"%string,
         VObj [("id"%string, VNum 2001); ("name"%string, VStr "Patient monitor");
               ("field1"%string, VStr "temperature"); ("last_entry_id"%string, VNum 1)]);
        ("feeds"%string, VArr (map numbered_record feeds))].

(** A provider that answers every request with the body [data]. *)
Definition answering (data : jsval) : page :=
  {| world_of := empty_world;
     respond := fun _ _ => Ret {| Response.ok := true; Response.status := 200;
                                Response.json := Ret data |};
     requests := [];
     downloads := [];
     now := 1704067200000;
     intervals := [];
     next_interval := 1 |}.

Definition a_week_before (t days : float) : float := t - days * 86400000.

(** The URL [downloadThingSpeakDataAsCSV] requests, given the ISO text of
    the start date. *)
Definition download_url (channelId : string) (start : text) : text :=
  (Lit (BASE_URL ++ "/" ++ channelId ++ "/feeds.json?api_key=" ++ DEFAULT_READ_API_KEY
        ++ "&start=")%string :: start)%list.

(** The provider answers the request for [url] with the body [data]. *)
Definition delivers (p : page) (url : text) (data : jsval) : Prop :=
  exists r, respond p (requests p) url = Ret r /\ Response.ok r = true /\ Response.json r = Ret data.

(** ** Charts of the patient page *)

(** A chart entry that is a Number other than [NaN]. *)
Definition plotted (value : PatientDetail.element) : Prop :=
  exists x, value = Some (Some x) /\ is_nan x = false.

(** An entry of the [bp] series with two Numbers other than [NaN]. *)
Definition numeric_entry (b : bp_entry) : bool :=
  PatientDetail.valid_value (Some (entry_systolic b))
  && PatientDetail.valid_value (Some (entry_diastolic b)).

Definition negative_level_record : FeedRecord :=
  {| created_at := FStr "2024-01-01T00:00:00Z";
     field1 := FStr "36.7"; field2 := FStr "-1"; field3 := FStr "75"; field4 := FStr "97";
     field5 := FStr "17.385"; field6 := FStr "78.4867"; field7 := FStr "0.4";
     field8 := FStr "[]" |}.

(** ** The logging controller *)

(** Calls made on a controller, and the firing of its interval timer. *)
Inductive call :=
| Start
| Stop
| Tick
| Export (filename : option text)
| GetStored
| Clear.

Section Calls.
Variable channelId : string.
Variable intervalMinutes : float.

Definition perform (c : call) (s : Logger.state) : Logger.state :=
  match c with
  | Start => snd (Logger.start Date_parse channelId intervalMinutes s)
  | Stop => snd (Logger.stop s)
  | Tick =>
      match intervals (snd s) with
      | [] => s
      | _ => snd (Logger.fetchAndStore Date_parse channelId s)
      end
  | Export filename => snd (Logger.exportToCSV Date_parse channelId filename s)
  | GetStored => snd (Logger.getStoredData channelId s)
  | Clear => snd (Logger.clearStoredData channelId s)
  end.

Definition run (calls : list call) (s : Logger.state) : Logger.state :=
  fold_left (fun s c => perform c s) calls s.

End Calls.

(** Neither the timers of the page nor the controller's view of them
    differ between two states. *)
Definition same_timers (s s' : Logger.state) : Prop :=
  intervals (snd s') = intervals (snd s)
  /\ next_interval (snd s') = next_interval (snd s)
  /\ Logger.intervalId (fst s') = Logger.intervalId (fst s)
  /\ Logger.isLogging (fst s') = Logger.isLogging (fst s).

(** A computation relates the state it starts in to the state it ends
    in, whatever its outcome. *)
Definition keeps {A : Type} (R : Logger.state -> Logger.state -> Prop) (m : Logger.M A) : Prop :=
  forall s, R s (snd (m s)).

(** The requests sent, the files downloaded, and the storage together
    with the controller's variables. *)
Definition same_requests (s s' : Logger.state) : Prop := requests (snd s') = requests (snd s).

Definition same_downloads (s s' : Logger.state) : Prop := downloads (snd s') = downloads (snd s).

Definition same_storage (s s' : Logger.state) : Prop :=
  localStorage (world_of (snd s')) = localStorage (world_of (snd s)) /\ fst s' = fst s.

(** One timer while logging, none otherwise. *)
Definition timers_consistent (period : float) (s : Logger.state) : Prop :=
  if Logger.isLogging (fst s)
  then exists id, Logger.intervalId (fst s) = Some id /\ intervals (snd s) = [(id, period)]
  else Logger.intervalId (fst s) = None /\ intervals (snd s) = [].

(** The URL the logger requests when its last timestamp is [ts]. *)
Definition update_url (channelId : string) (ts : option float) : text :=
  (Lit (BASE_URL ++ "/" ++ channelId ++ "/feeds.json?api_key=" ++ DEFAULT_READ_API_KEY)%string
   :: match ts with
      | Some t => [Lit "&start="%string; IsoText t]
      | None => [Lit ""%string]
      end)%list.

(** The entry of [key] parses to [parsed]. *)
Definition holds (p : page) (key : string) (parsed : jsval) : Prop :=
  exists s, getItem (localStorage (world_of p)) key = Some s
            /\ stored_truthy s = true /\ parse_stored s = Ret parsed.

(** The page after a request for [url] and with [value] written under
    [key]. *)
Definition after_store (p : page) (url : text) (key : string) (value : jsval) : page :=
  {| world_of := {| random := random (world_of p);
                    localStorage := setItem (localStorage (world_of p)) key (Stringified value) |};
     respond := respond p;
     requests := (requests p ++ [url])%list;
     downloads := downloads p;
     now := now p;
     intervals := intervals p;
     next_interval := next_interval p |}.

Definition with_lastTimestamp (l : Logger.t) (t : option float) : Logger.t :=
  {| Logger.intervalId := Logger.intervalId l; Logger.isLogging := Logger.isLogging l;
     Logger.lastTimestamp := t |}.





(** A page whose provider sends [feeds] and whose storage is [st]. *)
Definition page_with (feeds : list FeedRecord) (st : store) : page :=
  {| world_of := {| random := steady_draws; localStorage := st |};
     respond := respond (serving feeds);
     requests := [];
     downloads := [];
     now := 1704067200000;
     intervals := [];
     next_interval := 1 |}.

(** The [download] attribute [exportToCSV] uses. *)
Definition export_name (channelId : string) (filename : option text) : file_name :=
  FileName match filename with
           | Some name => name
           | None => [Lit ("patient_data_" ++ channelId ++ ".csv")%string]
           end.

Definition logged_key : string := Logger.storageKey "2001".

(** Storage holding one logged record, a thousand of them (the first with
    malformed ECG samples), and text that is not JSON. *)
Definition one_logged : store := [(logged_key, Stringified (body_of [earlier_fix_record]))].




End Vocabulary.

(** * Properties *)

Local Open Scope float_scope.

(** ** Binary64 comparisons and [NaN] *)

Lemma is_nan_SF x : is_nan x = true <-> Prim2SF x = S754_nan.
Proof.
  unfold Prim2SF. destruct (is_nan x); [tauto|].
  split; [discriminate|].
  destruct (is_zero x); [discriminate|].
  destruct (is_infinity x); [discriminate|].
  destruct (Z.frexp x) as [r ex].
  destruct (shr_fexp _ _ _ _ _) as [sh e'].
  destruct (shr_m sh); discriminate.
Qed.

Lemma not_nan_SF x : is_nan x = false <-> Prim2SF x <> S754_nan.
Proof.
  rewrite <- is_nan_SF. destruct (is_nan x); split; congruence.
Qed.

Lemma SFcompare_antisym x y :
  SFcompare y x = option_map CompOpp (SFcompare x y).
Proof.
  destruct x as [sx|sx| |sx mx ex], y as [sy|sy| |sy my ey]; simpl; try reflexivity;
    try (destruct sx; reflexivity); try (destruct sy; reflexivity);
    try (destruct sx, sy; reflexivity).
  assert (Hm : Pos.compare_cont Eq my mx = CompOpp (Pos.compare_cont Eq mx my)).
  { rewrite (Pos.compare_cont_antisym mx my Eq). reflexivity. }
  rewrite (Z.compare_antisym ex ey), Hm.
  destruct sx, sy; simpl; try reflexivity;
    destruct (ex ?= ey)%Z; simpl; try reflexivity.

Qed.

Lemma ltb_nan_l x y : is_nan x = true -> (x <? y) = false.
Proof. intros H. rewrite ltb_spec. apply is_nan_SF in H. rewrite H. reflexivity. Qed.

Lemma ltb_nan_r x y : is_nan y = true -> (x <? y) = false.
Proof.
  intros H. rewrite ltb_spec. apply is_nan_SF in H. rewrite H.
  unfold SFltb. destruct (Prim2SF x); reflexivity.
Qed.

Lemma eqb_nan_l x y : is_nan x = true -> (x =? y) = false.
Proof. intros H. rewrite eqb_spec. apply is_nan_SF in H. rewrite H. reflexivity. Qed.

Lemma SFcompare_some x y :
  x <> S754_nan -> y <> S754_nan -> exists c, SFcompare x y = Some c.
Proof.
  intros Hx Hy. destruct x, y; simpl; try congruence; eauto.
Qed.

(** Among numbers, [x < y] fails exactly when [y <= x]. *)
Lemma ltb_false_leb x y :
  is_nan x = false -> is_nan y = false -> (x <? y) = negb (y <=? x).
Proof.
  intros Hx Hy. rewrite ltb_spec, leb_spec. unfold SFltb, SFleb.
  rewrite (SFcompare_antisym (Prim2SF x)).
  apply not_nan_SF in Hx, Hy.
  destruct (SFcompare_some _ _ Hx Hy) as [c ->]. destruct c; reflexivity.
Qed.

Lemma ltb_leb x y : (x <? y) = true -> (x <=? y) = true.
Proof.
  rewrite ltb_spec, leb_spec. unfold SFltb, SFleb.
  destruct (SFcompare _ _) as [[]|]; congruence.
Qed.

Lemma SFmul_comm x y : SFmul prec emax x y = SFmul prec emax y x.
Proof.
  destruct x as [sx|sx| |sx mx ex], y as [sy|sy| |sy my ey]; simpl; try reflexivity;
    try (now rewrite xorb_comm).
  now rewrite xorb_comm, Pos.mul_comm, Z.add_comm.
Qed.

Lemma mul_comm x y : x * y = y * x.
Proof. apply Prim2SF_inj. rewrite !mul_spec. apply SFmul_comm. Qed.

Lemma add_zero_r x : Prim2SF x <> S754_zero true -> x + 0 = x.
Proof.
  intros H. apply Prim2SF_inj. rewrite add_spec.
  change (Prim2SF 0) with (S754_zero false).
  destruct (Prim2SF x) as [[]| | |]; simpl; congruence.
Qed.

Lemma neg_zero_SF x : Prim2SF x = S754_zero true -> x = neg_zero.
Proof.
  intros H. rewrite <- (SF2Prim_Prim2SF x), H. reflexivity.
Qed.

(** ** The estimate with sufficient data *)

Lemma hrEffect_code heartRate :
  is_nan heartRate = false ->
  (if heartRate <? 60 then -10 * (1 - (heartRate / 60))
   else if Js.gtb heartRate 100 then 15 * ((heartRate - 100) / 50) else 0)
  = hrEffect heartRate.
Proof.
  intros Hn. unfold hrEffect, Js.gtb.
  rewrite (ltb_false_leb heartRate 60 Hn eq_refl).
  rewrite (ltb_false_leb 100 heartRate eq_refl Hn).
  destruct (60 <=? heartRate), (heartRate <=? 100); reflexivity.
Qed.

Lemma clamp_round_add0 x lo hi :
  clampValue (Js.Math_round neg_zero) lo hi = clampValue (Js.Math_round 0) lo hi ->
  clampValue (Js.Math_round (x + 0)) lo hi = clampValue (Js.Math_round x) lo hi.
Proof.
  intros H.
  destruct (Prim2SF x) as [[]| | |] eqn:E;
    try (rewrite add_zero_r by (rewrite E; discriminate); reflexivity).
  apply neg_zero_SF in E. subst x. symmetry. exact H.
Qed.

(** C1, amended: with at least 10 ECG samples and a finite, nonzero heart
    rate the estimator draws nothing from the random source and returns
    systolic = clamp(round(120 + 0.6*hrEffect + 0.2*spo2Effect +
    0.2*ecgEffect), 80, 200) and diastolic = clamp(round(80 + 0.4*hrEffect
    + 0.1*spo2Effect + 0.1*ecgEffect), 40, 120), where hrEffect is 0 on
    [60,100], [-10 * (1 - heartRate/60)] below 60 and
    [15 * (heartRate-100)/50] above 100, spo2Effect is
    [5 * (95 - spo2) / 5] when [spo2 < 95] and 0 otherwise (also for a
    [spo2] that is not a number), and ecgEffect is 10 times the
    variability score; in particular heart rate 130, SpO2 90 and 20
    samples whose computed standard deviation is 0.6 give 128 over 85. *)
Theorem calculateBP_formula samples heartRate spo2 g :
  (10 <= length samples)%nat ->
  Js.finite heartRate = true ->
  (heartRate =? 0) = false ->
  calculateBP (Some samples) heartRate spo2 g = (estimate samples heartRate spo2, g)
  /\ (heartRate = 130 -> spo2 = 90 -> length samples = 20%nat ->
      populationStdDev samples = 0.6 ->
      calculateBP (Some samples) heartRate spo2 g = ({| systolic := 128; diastolic := 85 |}, g)).
Proof.
  intros Hlen Hfin Hnz.
  assert (Hnan : is_nan heartRate = false).
  { unfold Js.finite in Hfin. destruct (is_nan heartRate); [discriminate|reflexivity]. }
  assert (Hguard : insufficient (Some samples) heartRate = false).
  { unfold insufficient, Js.falsy, Js.isNaN. rewrite Hnan, Hnz.
    apply Nat.ltb_ge in Hlen. rewrite Hlen. reflexivity. }
  assert (Hmain : calculateBP (Some samples) heartRate spo2 g = (estimate samples heartRate spo2, g)).
  { unfold calculateBP. rewrite Hguard. cbv zeta.
    rewrite (hrEffect_code heartRate Hnan).
    fold (spo2Effect spo2).
    unfold estimate, ecgEffect, baselineSystolic, baselineDiastolic.
    rewrite !clamp_round_add0 by reflexivity.
    rewrite (mul_comm (hrEffect heartRate) 0.6), (mul_comm (hrEffect heartRate) 0.4).
    rewrite (mul_comm (spo2Effect spo2) 0.2), (mul_comm (spo2Effect spo2) 0.1).
    rewrite (mul_comm (calculateEcgVariability (Some samples)) 10).
    rewrite (mul_comm (10 * calculateEcgVariability (Some samples)) 0.2).
    rewrite (mul_comm (10 * calculateEcgVariability (Some samples)) 0.1).
    reflexivity. }
  split; [exact Hmain|].
  intros -> -> Hl Hsd. rewrite Hmain.
  unfold estimate, ecgEffect, calculateEcgVariability.
  rewrite Hl, Hsd. reflexivity.
Qed.

(** Twenty samples alternating 1.5 and 0.3, heart rate 130, SpO2 90. *)
Lemma calculateBP_formula_witness :
  calculateBP (Some twenty_samples) 130 90 no_draws
  = ({| systolic := 128; diastolic := 85 |}, no_draws).
Proof.
  apply (calculateBP_formula twenty_samples 130 90 no_draws); reflexivity || (vm_compute; lia).
Defined.

(** The unclamped formula against the code: a heart rate of 1000, and a
    SpO2 that is not a number. *)
Lemma calculateBP_claim_counterexample :
  (* a very fast heart rate: the estimate is clamped *)
  fst (calculateBP (Some twenty_samples) 1000 90 no_draws) = {| systolic := 200; diastolic := 120 |}
  /\ Js.Math_round (120 + 0.6 * hrEffect 1000 + 0.2 * spo2Effect_claimed 90 + 0.2 * ecgEffect twenty_samples) = 285
  /\ Js.Math_round (80 + 0.4 * hrEffect 1000 + 0.1 * spo2Effect_claimed 90 + 0.1 * ecgEffect twenty_samples) = 190
  (* an unavailable SpO2: no effect in the code, NaN in the unclamped formula *)
  /\ fst (calculateBP (Some twenty_samples) 130 nan no_draws) = {| systolic := 127; diastolic := 85 |}
  /\ is_nan (Js.Math_round (120 + 0.6 * hrEffect 130 + 0.2 * spo2Effect_claimed nan + 0.2 * ecgEffect twenty_samples)) = true.
Proof. vm_compute. repeat split; reflexivity. Qed.

(** ** Signs and classes of binary64 results *)

(** Rounding keeps the sign *)

Lemma iter_pos_invariant {A} (f : A -> A) (P : A -> Prop) :
  (forall x, P x -> P (f x)) -> forall n x, P x -> P (iter_pos f n x).
Proof.
  intros Hf. induction n as [n IH|n IH|]; simpl; intros x Hx; auto.
Qed.

Lemma shr_1_nonneg mrs : (0 <= shr_m mrs)%Z -> (0 <= shr_m (shr_1 mrs))%Z.
Proof.
  destruct mrs as [m r s]. simpl. destruct m as [|[p|p|]|[p|p|]]; simpl; lia.
Qed.

Lemma shr_nonneg mrs e n : (0 <= shr_m mrs)%Z -> (0 <= shr_m (fst (shr mrs e n)))%Z.
Proof.
  intros H. destruct n; simpl; auto.
  apply (iter_pos_invariant shr_1 (fun r => 0 <= shr_m r)%Z); auto using shr_1_nonneg.
Qed.

Lemma shr_m_of_loc m l : shr_m (shr_record_of_loc m l) = m.
Proof. destruct l as [|[]]; reflexivity. Qed.

Lemma shr_fexp_nonneg m e l : (0 <= m)%Z -> (0 <= shr_m (fst (shr_fexp prec emax m e l)))%Z.
Proof.
  intros H. unfold shr_fexp. apply shr_nonneg. now rewrite shr_m_of_loc.
Qed.

Lemma round_nearest_even_nonneg m l : (0 <= m)%Z -> (0 <= round_nearest_even m l)%Z.
Proof.
  intros H. destruct l as [|[]]; simpl; try lia. destruct (Z.even m); lia.
Qed.

Lemma binary_round_aux_signed s mx ex lx :
  (0 <= mx)%Z -> signed s (binary_round_aux prec emax s mx ex lx).
Proof.
  intros H. unfold binary_round_aux.
  pose proof (shr_fexp_nonneg mx ex lx H) as H1.
  destruct (shr_fexp prec emax mx ex lx) as [mrs' e']. simpl in H1.
  pose proof (shr_fexp_nonneg _ e' loc_Exact
                (round_nearest_even_nonneg _ (loc_of_shr_record mrs') H1)) as H2.
  destruct (shr_fexp prec emax _ e' loc_Exact) as [mrs'' e'']. simpl in H2.
  destruct (shr_m mrs'') as [|p|p]; simpl; try reflexivity; try lia.
  destruct (_ <=? _)%Z; exact eq_refl.
Qed.

Lemma binary_round_signed s mx ex : signed s (binary_round prec emax s mx ex).
Proof.
  unfold binary_round. destruct (shl_align _ _ _) as [mz ez].
  apply binary_round_aux_signed. lia.
Qed.

Lemma signed_num s x : signed s x -> is_num x.
Proof. destruct x; simpl; unfold is_num; congruence. Qed.

Lemma binary_normalize_num m e sz : is_num (binary_normalize prec emax m e sz).
Proof.
  destruct m; simpl; [discriminate| |]; eapply signed_num, binary_round_signed.
Qed.


Lemma is_infinity_SF x : is_infinity x = true <-> exists s, Prim2SF x = S754_infinity s.
Proof.
  unfold is_infinity. rewrite eqb_spec, abs_spec.
  change (Prim2SF infinity) with (S754_infinity false).
  destruct (Prim2SF x) as [s|s| |s m e]; simpl; split; intros H;
    try discriminate; try (destruct H; discriminate); eauto.
Qed.

Lemma finite_SF x : Js.finite x = true <-> SFfinite (Prim2SF x).
Proof.
  unfold Js.finite. rewrite andb_true_iff, !negb_true_iff.
  split.
  - intros [Hn Hi]. apply not_nan_SF in Hn.
    destruct (Prim2SF x) as [s|s| |s m e] eqn:E; simpl; auto.
    assert (is_infinity x = true) by (apply is_infinity_SF; eauto). congruence.
  - intros H. split.
    + apply not_nan_SF. destruct (Prim2SF x); simpl in H; congruence || tauto.
    + destruct (is_infinity x) eqn:Ei; [|reflexivity].
      apply is_infinity_SF in Ei. destruct Ei as [s Es]. rewrite Es in H. destruct H.
Qed.












Lemma digits2_size p : digits2_pos p = Pos.size p.
Proof. induction p; simpl; congruence. Qed.














Lemma leb_not_nan x y : (x <=? y) = true -> is_nan y = false.
Proof.
  rewrite leb_spec. intros H. apply not_nan_SF. intros E. rewrite E in H.
  unfold SFleb in H. destruct (Prim2SF x); discriminate.
Qed.



(** Constant sequences *)
Lemma sub_diag x : Js.finite x = true -> x - x = 0.
Proof.
  intros H. apply finite_SF in H. apply Prim2SF_inj. rewrite sub_spec.
  change (Prim2SF 0) with (S754_zero false).
  destruct (Prim2SF x) as [s|s| |s m e]; try (now destruct H).
  - destruct s; reflexivity.
  - unfold SF64sub, SFsub. cbv zeta. rewrite Z.sub_diag. reflexivity.
Qed.






(** [Math.round] and [Math.floor] of a Number are Numbers *)
Lemma SFopp_num x : is_num x -> is_num (SFopp x).
Proof. unfold is_num. destruct x; simpl; congruence. Qed.

Lemma SFldexp_num x e : is_num x -> is_num (SFldexp prec emax x e).
Proof.
  destruct x as [s|s| |s m ex]; simpl; auto.
  intros _. eapply signed_num, binary_round_signed.
Qed.

Lemma SF2Prim_num x : is_num x -> is_nan (SF2Prim x) = false.
Proof.
  intros H. destruct x as [s|s| |s m e]; try (now elim H); try (destruct s; reflexivity).
  apply not_nan_SF. unfold SF2Prim.
  assert (Hl : is_num (Prim2SF (Z.ldexp (of_uint63 (Uint63.of_Z (Zpos m))) e))).
  { unfold Z.ldexp. rewrite ldshiftexp_spec. apply SFldexp_num.
    rewrite of_uint63_spec. apply binary_normalize_num. }
  destruct s; [rewrite opp_spec; apply SFopp_num|]; exact Hl.
Qed.

Lemma of_Z_not_nan n : is_nan (Js.of_Z n) = false.
Proof. apply SF2Prim_num, binary_normalize_num. Qed.

Lemma Math_round_not_nan x : is_nan x = false -> is_nan (Js.Math_round x) = false.
Proof.
  intros H. unfold Js.Math_round.
  destruct (Prim2SF x) as [s|s| |s m e]; try exact H.
  destruct (0 <=? e)%Z; [exact H|].
  destruct (_ =? 0)%Z; [destruct s; reflexivity|apply of_Z_not_nan].
Qed.

Lemma Math_floor_not_nan x : is_nan x = false -> is_nan (Js.Math_floor x) = false.
Proof.
  intros H. unfold Js.Math_floor.
  destruct (Prim2SF x) as [s|s| |s m e]; try exact H.
  destruct (0 <=? e)%Z; [exact H|apply of_Z_not_nan].
Qed.

(** [clampValue] bounds every Number *)
Lemma SFcompare_refl x : is_num x -> SFcompare x x = Some Eq.
Proof.
  unfold is_num. destruct x as [s|s| |s m e]; simpl; intros H; try congruence.
  - destruct s; reflexivity.
  - rewrite Z.compare_refl, Pos.compare_cont_refl. destruct s; reflexivity.
Qed.

Lemma leb_refl x : is_nan x = false -> (x <=? x) = true.
Proof.
  intros H. rewrite leb_spec. unfold SFleb.
  rewrite SFcompare_refl by (now apply not_nan_SF). reflexivity.
Qed.

Lemma Math_min_le_l a b :
  is_nan a = false -> is_nan b = false ->
  is_nan (Js.Math_min a b) = false /\ (Js.Math_min a b <=? a) = true.
Proof.
  intros Ha Hb. unfold Js.Math_min. rewrite Ha, Hb. simpl orb. cbv iota.
  destruct (a <? b) eqn:Hab; [split; [exact Ha|now apply leb_refl]|].
  destruct (b <? a) eqn:Hba; [split; [exact Hb|now apply ltb_leb]|].
  rewrite (ltb_false_leb a b Ha Hb) in Hab. apply negb_false_iff in Hab.
  destruct (get_sign a); split; auto using leb_refl.
Qed.

Lemma Math_max_bounds lo w hi :
  is_nan lo = false -> is_nan w = false ->
  (lo <=? hi) = true -> (w <=? hi) = true ->
  (lo <=? Js.Math_max lo w) = true /\ (Js.Math_max lo w <=? hi) = true.
Proof.
  intros Hlo Hw Hlh Hwh. unfold Js.Math_max. rewrite Hlo, Hw. simpl orb. cbv iota.
  destruct (lo <? w) eqn:Hlw; [split; [now apply ltb_leb|exact Hwh]|].
  destruct (w <? lo) eqn:Hwl; [split; [now apply leb_refl|exact Hlh]|].
  rewrite (ltb_false_leb w lo Hw Hlo) in Hwl. apply negb_false_iff in Hwl.
  destruct (get_sign lo); split; auto using leb_refl.
Qed.

Lemma clampValue_within v lo hi :
  is_nan v = false -> (lo <=? hi) = true -> within lo hi (clampValue v lo hi) = true.
Proof.
  intros Hv Hlh.
  assert (Hhi : is_nan hi = false) by exact (leb_not_nan _ _ Hlh).
  assert (Hlo : is_nan lo = false).
  { apply not_nan_SF. intros E. rewrite leb_spec, E in Hlh. discriminate. }
  destruct (Math_min_le_l hi v Hhi Hv) as [Hn Hle].
  destruct (Math_max_bounds lo _ hi Hlo Hn Hlh Hle) as [H1 H2].
  unfold within, clampValue. now rewrite H1, H2.
Qed.

Lemma clampValue_nan lo hi : clampValue nan lo hi = nan.
Proof.
  unfold clampValue, Js.Math_min, Js.Math_max.
  change (is_nan nan) with true. now rewrite !orb_true_r.
Qed.

(** ** Rounding to nearest, and ten times a draw from [0, 1) *)

Lemma shr_1_shifted M j mrs :
  (0 <= j)%Z -> shifted M j mrs -> shifted M (j + 1) (shr_1 mrs).
Proof.
  intros Hj (H0 & Hle & _).
  assert (Hp : (2 ^ (j + 1) = 2 * 2 ^ j)%Z) by (rewrite Z.pow_add_r by lia; lia).
  assert (Hpos : (0 < 2 ^ j)%Z) by (apply Z.pow_pos_nonneg; lia).
  destruct mrs as [m r s]. cbn [shr_m shr_r] in *.
  unfold shifted. rewrite Hp. set (X := (2 ^ j)%Z) in *.
  destruct m as [|[p|p|]|p]; cbn [shr_1 shr_m shr_r];
    try rewrite Pos2Z.inj_xI in Hle; try rewrite Pos2Z.inj_xO in Hle;
    repeat split; try lia; try discriminate; try (intros _); nia.
Qed.

Lemma iter_shr_shifted M p : forall j mrs,
  (0 <= j)%Z -> shifted M j mrs -> shifted M (j + Zpos p) (iter_pos shr_1 p mrs).
Proof.
  induction p as [p IH|p IH|]; simpl; intros j mrs Hj H.
  - replace (j + Zpos p~1)%Z with (j + 1 + Zpos p + Zpos p)%Z by lia.
    apply IH; [lia|]. apply IH; [lia|]. now apply shr_1_shifted.
  - replace (j + Zpos p~0)%Z with (j + Zpos p + Zpos p)%Z by lia.
    apply IH; [lia|]. now apply IH.
  - now apply shr_1_shifted.
Qed.

Lemma shr_shifted M n e :
  (0 <= M)%Z ->
  let '(mrs, e') := shr (shr_record_of_loc M loc_Exact) e n in
  shifted M (Z.max 0 n) mrs /\ e' = (e + Z.max 0 n)%Z.
Proof.
  intros HM.
  assert (H0 : shifted M 0 (shr_record_of_loc M loc_Exact)).
  { unfold shifted. cbn [shr_record_of_loc shr_m shr_r]. repeat split; try lia; discriminate. }
  destruct n as [|p|p]; cbn [shr Z.max]; try rewrite Z.max_r by lia.
  - split; [exact H0|lia].
  - split; [|lia]. exact (iter_shr_shifted M p 0 _ ltac:(lia) H0).
  - split; [exact H0|lia].
Qed.

Lemma round_nearest_even_le mrs :
  (0 <= shr_m mrs)%Z ->
  (shr_m mrs <= round_nearest_even (shr_m mrs) (loc_of_shr_record mrs))%Z
  /\ (round_nearest_even (shr_m mrs) (loc_of_shr_record mrs)
      <= shr_m mrs + (if shr_r mrs then 1 else 0))%Z.
Proof.
  destruct mrs as [m [] []]; cbn [shr_m shr_r loc_of_shr_record round_nearest_even];
    intros H; try destruct (Z.even m); lia.
Qed.

(** The shape of a rounded exact mantissa [M * 2^E]: the result mantissa
    [m] at exponent [e >= E] is at most [M] plus half the first shift. *)
Lemma binary_round_aux_upper s M E :
  (0 <= M)%Z ->
  exists m e,
    (0 <= m)%Z /\ (E <= e)%Z
    /\ (2 * m * 2 ^ (e - E) <= 2 * M + 2 ^ Z.max 0 (fexp prec emax (Zdigits2 M + E) - E))%Z
    /\ binary_round_aux prec emax s M E loc_Exact =
         match m with
         | Z0 => S754_zero s
         | Zpos p => if (e <=? emax - prec)%Z then S754_finite s p e else S754_infinity s
         | Zneg _ => S754_nan
         end.
Proof.
  intros HM. unfold binary_round_aux, shr_fexp.
  set (n1 := (fexp prec emax (Zdigits2 M + E) - E)%Z).
  pose proof (shr_shifted M n1 E HM) as H1.
  destruct (shr (shr_record_of_loc M loc_Exact) E n1) as [mrs1 e1].
  destruct H1 as [(H10 & H1le & H1r) ->].
  set (m2 := round_nearest_even (shr_m mrs1) (loc_of_shr_record mrs1)).
  destruct (round_nearest_even_le mrs1 H10) as [Hm2l Hm2u]. fold m2 in Hm2l, Hm2u.
  set (n2 := (fexp prec emax (Zdigits2 m2 + (E + Z.max 0 n1)) - (E + Z.max 0 n1))%Z).
  pose proof (shr_shifted m2 n2 (E + Z.max 0 n1) ltac:(lia)) as H2.
  destruct (shr (shr_record_of_loc m2 loc_Exact) (E + Z.max 0 n1) n2) as [mrs2 e2].
  destruct H2 as [(H20 & H2le & _) ->].
  exists (shr_m mrs2), (E + Z.max 0 n1 + Z.max 0 n2)%Z.
  split; [exact H20|]. split; [lia|]. split; [|reflexivity].
  replace (E + Z.max 0 n1 + Z.max 0 n2 - E)%Z with (Z.max 0 n2 + Z.max 0 n1)%Z by lia.
  rewrite Z.pow_add_r by lia.
  assert (Hp1 : (0 < 2 ^ Z.max 0 n1)%Z) by (apply Z.pow_pos_nonneg; lia).
  assert (Hp2 : (0 < 2 ^ Z.max 0 n2)%Z) by (apply Z.pow_pos_nonneg; lia).
  assert (Hm2 : (2 * m2 * 2 ^ Z.max 0 n1 <= 2 * M + 2 ^ Z.max 0 n1)%Z).
  { destruct (shr_r mrs1); [specialize (H1r eq_refl)|]; nia. }
  nia.
Qed.

(** Mantissa sizes *)
Lemma digits_upper p : (Zpos p < 2 ^ Zpos (digits2_pos p))%Z.
Proof.
  rewrite digits2_size. pose proof (Pos.size_gt p) as H.
  apply Pos2Z.pos_lt_pos in H. now rewrite Pos2Z.inj_pow in H.
Qed.

Lemma digits_lower p : (2 ^ (Zpos (digits2_pos p) - 1) <= Zpos p)%Z.
Proof.
  rewrite digits2_size. pose proof (Pos.size_le p) as H.
  apply Pos2Z.pos_le_pos in H. rewrite Pos2Z.inj_pow in H.
  change (Zpos p~0) with (2 * Zpos p)%Z in H.
  replace (Zpos (Pos.size p)) with (Zpos (Pos.size p) - 1 + 1)%Z in H at 1 by lia.
  rewrite Z.pow_add_r, Z.pow_1_r in H by lia. lia.
Qed.

Lemma digits_le p n : (0 <= n)%Z -> (Zpos p < 2 ^ n)%Z -> (Zpos (digits2_pos p) <= n)%Z.
Proof.
  intros Hn H. pose proof (digits_lower p) as Hl.
  destruct (Z.le_gt_cases (Zpos (digits2_pos p)) n) as [|Hgt]; [assumption|exfalso].
  assert (2 ^ n <= 2 ^ (Zpos (digits2_pos p) - 1))%Z by (apply Z.pow_le_mono_r; lia).
  lia.
Qed.

(** What validity says of a finite value. *)
Lemma valid_finite x s m e :
  Prim2SF x = S754_finite s m e ->
  (-1074 <= e <= 971)%Z
  /\ (Zpos (digits2_pos m) <= 53)%Z
  /\ ((-1074 < e)%Z -> Zpos (digits2_pos m) = 53%Z).
Proof.
  intros E. pose proof (Prim2SF_valid x) as Hv. rewrite E in Hv.
  cbv [SpecFloat.valid_binary bounded] in Hv. apply andb_true_iff in Hv.
  destruct Hv as [Hc He]. unfold canonical_mantissa in Hc. apply Z.eqb_eq in Hc.
  apply Z.leb_le in He. change (emax - prec)%Z with 971%Z in He.
  revert Hc. unfold fexp, emin. change prec with 53%Z. change emax with 1024%Z. lia.
Qed.

Lemma ten_SF : Prim2SF 10 = S754_finite false 5629499534213120 (-49).
Proof. reflexivity. Qed.

Lemma one_SF : Prim2SF 1 = S754_finite false 4503599627370496 (-52).
Proof. reflexivity. Qed.

(** A Number in [0, 1), as [Math.random] returns, is a zero or a positive
    finite value with exponent at most [-53]. *)
Lemma unit_draw r :
  (0 <=? r) = true -> (r <? 1) = true ->
  (exists s, Prim2SF r = S754_zero s)
  \/ (exists m e, Prim2SF r = S754_finite false m e /\ (e <= -53)%Z /\ (Zpos m < 2 ^ 53)%Z).
Proof.
  intros H0 H1. rewrite leb_spec in H0. rewrite ltb_spec, one_SF in H1.
  change (Prim2SF 0) with (S754_zero false) in H0.
  destruct (Prim2SF r) as [s|s| |s m e] eqn:E; try discriminate.
  - left. eauto.
  - destruct s; discriminate.
  - destruct s; [discriminate|]. right. exists m, e. split; [reflexivity|].
    destruct (valid_finite r _ _ _ E) as (He & Hd & Hn).
    pose proof (digits_upper m) as Hu. pose proof (digits_lower m) as Hl.
    assert (Hm : (Zpos m < 2 ^ 53)%Z).
    { eapply Z.lt_le_trans; [exact Hu|]. apply Z.pow_le_mono_r; lia. }
    split; [|exact Hm].
    unfold SFltb, SFcompare in H1.
    destruct (Z.compare_spec e (-52)) as [Heq|Hlt|Hgt]; try discriminate H1; [|lia].
    subst e. rewrite Hn in Hl by lia.
    assert (Hc : (m ?= 4503599627370496)%positive = Lt).
    { unfold Pos.compare. destruct (Pos.compare_cont Eq m 4503599627370496); congruence. }
    pose proof (Pos2Z.pos_lt_pos _ _ (proj1 (Pos.compare_lt_iff _ _) Hc)) as Hc'.
    clear Hc H1 H0 Hu Hm.
    change (2 ^ (53 - 1))%Z with 4503599627370496%Z in Hl. lia.
Qed.

Lemma pow2_pos n : (0 < 2 ^ n)%Z \/ (n < 0)%Z.
Proof. destruct (Z.le_gt_cases 0 n); [left; now apply Z.pow_pos_nonneg|right; lia]. Qed.

(** Ten times a draw from [0, 1) stays below ten. *)
Lemma draw_times_ten r :
  (0 <=? r) = true -> (r <? 1) = true ->
  (exists s, Prim2SF (r * 10) = S754_zero s)
  \/ (exists p e, Prim2SF (r * 10) = S754_finite false p e
                  /\ (e < 0)%Z /\ (Zpos p < 10 * 2 ^ (- e))%Z).
Proof.
  intros H0 H1.
  destruct (unit_draw r H0 H1) as [[s E]|(m & e & E & He & Hm)].
  { left. rewrite mul_spec, E, ten_SF. simpl. eauto. }
  destruct (valid_finite r _ _ _ E) as ((Hemin & _) & _ & _).
  pose proof (mul_spec r 10) as Hy. rewrite E, ten_SF in Hy.
  unfold SF64mul, SFmul in Hy. simpl xorb in Hy.
  set (c := 5629499534213120%positive) in *.
  set (E0 := (e + -49)%Z) in *.
  destruct (binary_round_aux_upper false (Zpos (m * c)) E0 ltac:(lia))
    as (m3 & e3 & Hm3 & HE & Hb & Hr).
  rewrite Hr in Hy. clear Hr.
  (* the first shift is by at most 53 places *)
  assert (HM : (Zpos (m * c) < 2 ^ 106)%Z).
  { rewrite Pos2Z.inj_mul. subst c.
    change (2 ^ 106)%Z with (2 ^ 53 * 2 ^ 53)%Z.
    apply Z.mul_lt_mono_nonneg; try lia. }
  assert (HD : (Zdigits2 (Zpos (m * c)) <= 106)%Z) by (apply digits_le; [lia|exact HM]).
  assert (Hk : (Z.max 0 (fexp prec emax (Zdigits2 (Zpos (m * c)) + E0) - E0) <= 53)%Z).
  { unfold fexp, emin. change prec with 53%Z. change emax with 1024%Z. subst E0. lia. }
  assert (Hp : (2 ^ Z.max 0 (fexp prec emax (Zdigits2 (Zpos (m * c)) + E0) - E0) <= 2 ^ 53)%Z).
  { apply Z.pow_le_mono_r; lia. }
  set (T := (2 ^ (e3 - E0))%Z) in *.
  assert (HT : (0 < T)%Z) by (subst T; apply Z.pow_pos_nonneg; lia).
  assert (Hval : (m3 * T < 5 * 2 ^ 103)%Z).
  { set (Q := (2 ^ Z.max 0 (fexp prec emax (Zdigits2 (Z.pos (m * c)) + E0) - E0))%Z) in *.
    clearbody Q. rewrite Pos2Z.inj_mul in Hb. subst c.
    change (2 ^ 53)%Z with 9007199254740992%Z in *.
    change (5 * 2 ^ 103)%Z with 50706024009129176059868128215040%Z.
    replace (2 * m3 * T)%Z with (2 * (m3 * T))%Z in Hb by ring.
    set (P := (m3 * T)%Z) in *.
    clearbody P. clear HM HD Hy E H0 H1. lia. }
  clear Hb Hp Hk HD HM.
  destruct m3 as [|p|p]; [left; eauto| |lia].
  destruct (e3 <=? emax - prec)%Z eqn:Hfin.
  - right. exists p, e3. split; [exact Hy|].
    destruct (valid_finite _ _ _ _ Hy) as (_ & _ & Hn).
    assert (He3 : (e3 < 0)%Z).
    { destruct (Z.lt_ge_cases e3 0) as [|Hge]; [assumption|exfalso].
      pose proof (digits_lower p) as Hl. rewrite Hn in Hl by lia.
      change (2 ^ (53 - 1))%Z with 4503599627370496%Z in Hl.
      assert (HT' : (2 ^ 102 <= T)%Z) by (subst T; apply Z.pow_le_mono_r; subst E0; lia).
      change (2 ^ 102)%Z with 5070602400912917605986812821504%Z in HT'.
      change (5 * 2 ^ 103)%Z with 50706024009129176059868128215040%Z in Hval.
      clear Hy E H0 H1. nia. }
    split; [exact He3|].
    assert (Hsplit : (2 ^ (- E0) = 2 ^ (- e3) * T)%Z).
    { subst T. rewrite <- Z.pow_add_r by lia. f_equal. lia. }
    assert (Hlow : (2 ^ 102 <= 2 ^ (- E0))%Z) by (apply Z.pow_le_mono_r; subst E0; lia).
    apply (Z.mul_lt_mono_pos_r T); [lia|].
    replace (10 * 2 ^ (- e3) * T)%Z with (10 * 2 ^ (- E0))%Z by (rewrite Hsplit; ring).
    change (5 * 2 ^ 103)%Z with (10 * 2 ^ 102)%Z in Hval. lia.
  - exfalso. apply Z.leb_gt in Hfin. change (emax - prec)%Z with 971%Z in Hfin.
    assert (HT' : (2 ^ 1074 <= T)%Z) by (subst T; apply Z.pow_le_mono_r; subst E0; lia).
    assert (Hbig : (5 * 2 ^ 103 < 2 ^ 1074)%Z) by reflexivity.
    clear Hy E H0 H1. nia.
Qed.

Lemma small_cases (n : Z) :
  (0 <= n <= 9)%Z ->
  n = 0%Z \/ n = 1%Z \/ n = 2%Z \/ n = 3%Z \/ n = 4%Z \/ n = 5%Z \/ n = 6%Z
  \/ n = 7%Z \/ n = 8%Z \/ n = 9%Z.
Proof. lia. Qed.

Lemma random_offset r :
  (0 <=? r) = true -> (r <? 1) = true ->
  exists k, (-5 <= k <= 4)%Z /\ Js.Math_floor (r * 10) - 5 = Js.of_Z k.
Proof.
  intros H0 H1.
  destruct (draw_times_ten r H0 H1) as [[s E]|(p & e & E & He & Hp)].
  - exists (-5)%Z. split; [lia|].
    unfold Js.Math_floor. rewrite E.
    apply Prim2SF_inj. rewrite sub_spec, E. now destruct s.
  - unfold Js.Math_floor. rewrite E.
    destruct (0 <=? e)%Z eqn:H; [apply Z.leb_le in H; lia|clear H].
    cbn [cond_Zopp]. rewrite Z.shiftr_div_pow2 by lia.
    assert (Hn : (0 <= Zpos p / 2 ^ (- e) <= 9)%Z).
    { assert (0 < 2 ^ (- e))%Z by (apply Z.pow_pos_nonneg; lia).
      split; [apply Z.div_pos; lia|].
      apply Z.lt_succ_r. apply Z.div_lt_upper_bound; lia. }
    set (n := (Zpos p / 2 ^ (- e))%Z) in *. clearbody n.
    exists (n - 5)%Z. split; [lia|].
    destruct (small_cases n Hn) as [->|[->|[->|[->|[->|[->|[->|[->|[->| ->]]]]]]]]];
      vm_compute; reflexivity.
Qed.

Lemma baseline_offset (base k : Z) :
  (base = 120 \/ base = 80)%Z -> (-5 <= k <= 4)%Z ->
  Js.of_Z base + Js.of_Z k = Js.of_Z (base + k).
Proof.
  intros Hb Hk.
  assert (H : (k = -5 \/ k = -4 \/ k = -3 \/ k = -2 \/ k = -1 \/ k = 0
               \/ k = 1 \/ k = 2 \/ k = 3 \/ k = 4)%Z) by lia.
  destruct Hb as [-> | ->];
    destruct H as [->|[->|[->|[->|[->|[->|[->|[->|[->| ->]]]]]]]]];
    vm_compute; reflexivity.
Qed.

Lemma calculateBP_insufficient ecgSamples heartRate spo2 g :
  insufficient ecgSamples heartRate = true ->
  unit_draws g ->
  exists k1 k2,
    (-5 <= k1 <= 4)%Z /\ (-5 <= k2 <= 4)%Z
    /\ calculateBP ecgSamples heartRate spo2 g =
         ({| systolic := Js.of_Z (120 + k1); diastolic := Js.of_Z (80 + k2) |},
          {| draws := draws g; drawn := S (S (drawn g)) |}).
Proof.
  intros Hi Hg. unfold calculateBP. rewrite Hi.
  unfold randomVariation, Math_random. cbn [draws drawn].
  destruct (Hg (drawn g)) as [Ha Hb]. destruct (Hg (S (drawn g))) as [Hc Hd].
  destruct (random_offset _ Ha Hb) as (k1 & Hk1 & ->).
  destruct (random_offset _ Hc Hd) as (k2 & Hk2 & ->).
  exists k1, k2. split; [exact Hk1|]. split; [exact Hk2|].
  unfold baselineSystolic, baselineDiastolic.
  change 120 with (Js.of_Z 120). change 80 with (Js.of_Z 80).
  rewrite !baseline_offset by (auto; lia). reflexivity.
Qed.

Lemma baseline_in_range k1 k2 :
  (-5 <= k1 <= 4)%Z -> (-5 <= k2 <= 4)%Z ->
  in_range {| systolic := Js.of_Z (120 + k1); diastolic := Js.of_Z (80 + k2) |} = true.
Proof.
  intros H1 H2. unfold in_range. cbn [systolic diastolic].
  assert (A : (k1 = -5 \/ k1 = -4 \/ k1 = -3 \/ k1 = -2 \/ k1 = -1 \/ k1 = 0
               \/ k1 = 1 \/ k1 = 2 \/ k1 = 3 \/ k1 = 4)%Z) by lia.
  assert (B : (k2 = -5 \/ k2 = -4 \/ k2 = -3 \/ k2 = -2 \/ k2 = -1 \/ k2 = 0
               \/ k2 = 1 \/ k2 = 2 \/ k2 = 3 \/ k2 = 4)%Z) by lia.
  apply andb_true_intro; split.
  - destruct A as [->|[->|[->|[->|[->|[->|[->|[->|[->| ->]]]]]]]]]; vm_compute; reflexivity.
  - destruct B as [->|[->|[->|[->|[->|[->|[->|[->|[->| ->]]]]]]]]]; vm_compute; reflexivity.
Qed.

(** C2 (a defect of the code): [clampValue] bounds every value that is a
    number, and the degenerate branch returns 120/80 plus whole offsets
    between -5 and 4 whenever the random source yields values in [0, 1),
    which is inside [80,200] x [40,120]; but ten ECG samples equal to
    [Infinity] (field8 holding ten times [1e999]) with heart rate 70 and
    SpO2 98 make both components [NaN], which [clampValue] hands back
    unchanged: the estimate is outside the range, and the snapshot built
    from such a record carries it with the status "Normal". *)
Theorem calculateBP_escapes_range :
  (forall v lo hi, is_nan v = false -> (lo <=? hi) = true ->
     within lo hi (clampValue v lo hi) = true)
  /\ (forall ecgSamples heartRate spo2 g,
        insufficient ecgSamples heartRate = true -> unit_draws g ->
        exists k1 k2,
          (-5 <= k1 <= 4)%Z /\ (-5 <= k2 <= 4)%Z
          /\ calculateBP ecgSamples heartRate spo2 g =
               ({| systolic := Js.of_Z (120 + k1); diastolic := Js.of_Z (80 + k2) |},
                {| draws := draws g; drawn := S (S (drawn g)) |})
          /\ in_range (fst (calculateBP ecgSamples heartRate spo2 g)) = true)
  /\ (unit_draws steady_draws
      /\ fst (calculateBP (Some [0.1; 0.2]) 70 98 steady_draws)
           = {| systolic := 120; diastolic := 80 |})
  /\ (forall g, calculateBP (Some (repeat infinity 10)) 70 98 g =
                ({| systolic := nan; diastolic := nan |}, g))
  /\ in_range {| systolic := nan; diastolic := nan |} = false
  /\ (exists snap w,
        mapThingSpeakToPatientVitals example_Date_parse [overflowing_record] "2001" empty_world
          = (Ret (Some snap), w)
        /\ Vitals.ecgSamples (vitals snap) = repeat infinity 10
        /\ Vitals.heartRate (vitals snap) = DNum 70
        /\ Vitals.spo2 (vitals snap) = DNum 98
        /\ Vitals.bp (vitals snap) = {| systolic := nan; diastolic := nan |}
        /\ Status.bp (status snap) = "Normal"%string).
Proof.
  split; [exact clampValue_within|].
  split.
  { intros ecgSamples heartRate spo2 g Hi Hg.
    destruct (calculateBP_insufficient ecgSamples heartRate spo2 g Hi Hg)
      as (k1 & k2 & H1 & H2 & E).
    exists k1, k2. rewrite E. cbn [fst]. auto using baseline_in_range. }
  split; [split; [intros i; split; reflexivity|vm_compute; reflexivity]|].
  split; [intros g; vm_compute; reflexivity|].
  split; [vm_compute; reflexivity|].
  destruct (mapThingSpeakToPatientVitals example_Date_parse [overflowing_record] "2001"
              empty_world) as [[[snap| ]| | ] w] eqn:E;
    try (vm_compute in E; discriminate E).
  exists snap, w. vm_compute in E. injection E as <- <-.
  repeat split; vm_compute; reflexivity.
Qed.

(** ** The snapshot of current vitals *)

Section Snapshot.
Variable Date_parse : string -> float.

Lemma snapshot_inversion latestEntry rest channelId w snap w' :
  mapThingSpeakToPatientVitals Date_parse (latestEntry :: rest) channelId w
    = (Ret (Some snap), w') ->
  let temperature := parseFloat (field1 latestEntry) in
  let alertLevel := parseInt (field2 latestEntry) in
  let heartRate := parseFloat (field3 latestEntry) in
  let spo2 := parseFloat (field4 latestEntry) in
  let avgEcg := parseFloat (field7 latestEntry) in
  Vitals.temperature (vitals snap) = shown_fixed temperature
  /\ Vitals.alertLevel (vitals snap) = (if Js.isNaN alertLevel then 0 else alertLevel)
  /\ Vitals.heartRate (vitals snap) = shown_rounded heartRate
  /\ Vitals.spo2 (vitals snap) = shown_rounded spo2
  /\ Vitals.avgEcg (vitals snap) = shown_number avgEcg
  /\ Status.temperature (status snap) =
       (if Js.gtb temperature 37.8 then "Elevated"%string
        else if temperature <? 35.5 then "Low"%string else "Normal"%string)
  /\ Status.heartRate (status snap) =
       (if Js.gtb heartRate 100 then "Elevated"%string
        else if heartRate <? 60 then "Low"%string else "Normal"%string)
  /\ Status.spo2 (status snap) = (if spo2 <? 95 then "Low"%string else "Normal"%string)
  /\ Status.alert (status snap) =
       (if Js.strict_eq alertLevel 0 then "Normal"%string
        else if Js.strict_eq alertLevel 1 then "Moderate Risk"%string else "High Risk"%string).
Proof.
  unfold mapThingSpeakToPatientVitals.
  destruct (getLastValidLocation _ _ _) as [locationData|e|]; try discriminate.
  destruct (JSON_parse _) as [parsed|e|]; try discriminate.
  destruct (as_samples parsed) as [ecgSamples|e|]; try discriminate.
  destruct (calculateBP _ _ _ _) as [bp g].
  intros H. injection H as <- _. cbv zeta. simpl. repeat split; reflexivity.
Qed.

End Snapshot.

Section SnapshotClaims.
Variable Date_parse : string -> float.

Lemma shown_rounded_not_nan x : display_nan (shown_rounded x) = false.
Proof.
  unfold shown_rounded, Js.isNaN. destruct (is_nan x) eqn:E; [reflexivity|].
  simpl. now apply Math_round_not_nan.
Qed.

Lemma shown_number_not_nan x : display_nan (shown_number x) = false.
Proof.
  unfold shown_number, Js.isNaN. destruct (is_nan x) eqn:E; [reflexivity|exact E].
Qed.

Lemma shown_fixed_not_nan x : display_nan (shown_fixed x) = false.
Proof. unfold shown_fixed. destruct (Js.isNaN x); reflexivity. Qed.

(** C4, amended: in the snapshot of a record, temperature is the text
    [parseFloat(field1).toFixed(1)], heart rate and SpO2 are
    [Math.round(parseFloat(...))], avgEcg is [parseFloat(field7)] itself,
    each replaced by "--" exactly when the parsed value is [NaN], and
    alertLevel is [parseInt(field2)] or 0 when that is [NaN]; none of the
    five is ever [NaN]. *)
Theorem parsed_vitals latestEntry rest channelId w snap w' :
  mapThingSpeakToPatientVitals Date_parse (latestEntry :: rest) channelId w
    = (Ret (Some snap), w') ->
  (Vitals.temperature (vitals snap) = shown_fixed (parseFloat (field1 latestEntry))
   /\ Vitals.heartRate (vitals snap) = shown_rounded (parseFloat (field3 latestEntry))
   /\ Vitals.spo2 (vitals snap) = shown_rounded (parseFloat (field4 latestEntry))
   /\ Vitals.avgEcg (vitals snap) = shown_number (parseFloat (field7 latestEntry))
   /\ Vitals.alertLevel (vitals snap) =
        (if Js.isNaN (parseInt (field2 latestEntry)) then 0 else parseInt (field2 latestEntry)))
  /\ (display_nan (Vitals.temperature (vitals snap)) = false
      /\ display_nan (Vitals.heartRate (vitals snap)) = false
      /\ display_nan (Vitals.spo2 (vitals snap)) = false
      /\ display_nan (Vitals.avgEcg (vitals snap)) = false
      /\ is_nan (Vitals.alertLevel (vitals snap)) = false).
Proof.
  intros H. apply snapshot_inversion in H. cbv zeta in H.
  destruct H as (Ht & Ha & Hh & Hs & He & _).
  rewrite Ht, Ha, Hh, Hs, He.
  repeat split; auto using shown_fixed_not_nan, shown_rounded_not_nan, shown_number_not_nan.
  unfold Js.isNaN. destruct (is_nan (parseInt (field2 latestEntry))) eqn:E; [reflexivity|exact E].
Qed.

(** C5 (a defect of the code): when field2 does not parse as an integer
    the snapshot has [vitals.alertLevel = 0], yet its alert text is
    "High Risk" and not "Normal": line 284 tests the unparsed value
    instead of the defaulted one. *)
Theorem unparsed_alert_level latestEntry rest channelId w snap w' :
  mapThingSpeakToPatientVitals Date_parse (latestEntry :: rest) channelId w
    = (Ret (Some snap), w') ->
  Js.isNaN (parseInt (field2 latestEntry)) = true ->
  Vitals.alertLevel (vitals snap) = 0
  /\ Status.alert (status snap) = "High Risk"%string.
Proof.
  intros H Hn. apply snapshot_inversion in H. cbv zeta in H.
  destruct H as (_ & Ha & _ & _ & _ & _ & _ & _ & Hal).
  rewrite Ha, Hal, Hn. unfold Js.strict_eq. rewrite !eqb_nan_l by exact Hn.
  split; reflexivity.
Qed.

(** C10: when the temperature, the heart rate or SpO2 of a record does
    not parse, the status of that vital in the snapshot is "Normal":
    every comparison with [NaN] is false, so it is neither "Low" nor
    "Elevated". *)
Theorem unavailable_vital_status latestEntry rest channelId w snap w' :
  mapThingSpeakToPatientVitals Date_parse (latestEntry :: rest) channelId w
    = (Ret (Some snap), w') ->
  (Js.isNaN (parseFloat (field1 latestEntry)) = true ->
   Status.temperature (status snap) = "Normal"%string)
  /\ (Js.isNaN (parseFloat (field3 latestEntry)) = true ->
      Status.heartRate (status snap) = "Normal"%string)
  /\ (Js.isNaN (parseFloat (field4 latestEntry)) = true ->
      Status.spo2 (status snap) = "Normal"%string).
Proof.
  intros H. apply snapshot_inversion in H. cbv zeta in H.
  destruct H as (_ & _ & _ & _ & _ & Ht & Hh & Hs & _).
  rewrite Ht, Hh, Hs. unfold Js.gtb, Js.isNaN.
  repeat split; intros Hn;
    repeat (rewrite (ltb_nan_r _ _ Hn) || rewrite (ltb_nan_l _ _ Hn)); reflexivity.
Qed.

End SnapshotClaims.

Ltac run_snapshot snap w' E :=
  match goal with
  | |- exists s w, ?call = _ /\ _ =>
      destruct call as [[[snap|]|?|] w'] eqn:E;
      try (vm_compute in E; discriminate);
      exists snap, w'; split; [reflexivity|]
  end.

Lemma parsed_vitals_witness :
  exists snap w',
    mapThingSpeakToPatientVitals example_Date_parse [rounded_record] "42" empty_world
      = (Ret (Some snap), w')
    /\ Vitals.heartRate (vitals snap) = DNum 73
    /\ Vitals.temperature (vitals snap) = DText [Lit "37.3"]
    /\ display_nan (Vitals.spo2 (vitals snap)) = false.
Proof.
  run_snapshot snap w' E.
  destruct (parsed_vitals _ _ _ _ _ _ _ E) as ((Ht & Hh & _) & (_ & _ & Hs & _)).
  rewrite Ht, Hh. repeat split; solve [vm_compute; reflexivity | exact Hs].
Defined.

(** Heart rate 72.6 is shown as 73, temperature 37.25 as the text 37.3,
    and an infinite avgEcg is kept. *)
Lemma parsed_vitals_counterexample :
  exists snap w',
    mapThingSpeakToPatientVitals example_Date_parse [rounded_record] "42" empty_world
      = (Ret (Some snap), w')
    /\ parseFloat (field3 rounded_record) = 72.6
    /\ Vitals.heartRate (vitals snap) = DNum 73
    /\ parseFloat (field1 rounded_record) = 37.25
    /\ Vitals.temperature (vitals snap) = DText [Lit "37.3"]
    /\ Js.finite (parseFloat (field7 rounded_record)) = false
    /\ Vitals.avgEcg (vitals snap) = DNum infinity.
Proof.
  run_snapshot snap w' E.
  vm_compute in E. injection E as <- _. vm_compute. repeat split; reflexivity.
Qed.

Lemma unparsed_alert_level_witness :
  exists snap w',
    mapThingSpeakToPatientVitals example_Date_parse [unparsed_record] "42" empty_world
      = (Ret (Some snap), w')
    /\ Vitals.alertLevel (vitals snap) = 0
    /\ Status.alert (status snap) = "High Risk"%string.
Proof.
  run_snapshot snap w' E.
  apply (unparsed_alert_level _ _ _ _ _ _ _ E). vm_compute. reflexivity.
Defined.

Lemma unavailable_vital_status_witness :
  exists snap w',
    mapThingSpeakToPatientVitals example_Date_parse [unparsed_record] "42" empty_world
      = (Ret (Some snap), w')
    /\ Status.temperature (status snap) = "Normal"%string
    /\ Status.heartRate (status snap) = "Normal"%string
    /\ Status.spo2 (status snap) = "Normal"%string.
Proof.
  run_snapshot snap w' E.
  destruct (unavailable_vital_status _ _ _ _ _ _ _ E) as (Ht & Hh & Hs).
  repeat split; [apply Ht | apply Hh | apply Hs]; vm_compute; reflexivity.
Defined.

(** ** Location resolver *)

Lemma historicalLocation_first_fix feeds :
  historicalLocation feeds = option_map last_known (first_fix feeds).
Proof.
  induction feeds as [|feed rest IH]; simpl; [reflexivity|].
  destruct (valid_fix _ _); [reflexivity|exact IH].
Qed.

Lemma obj_get_set props k v : obj_get (obj_set props k v) k = v.
Proof.
  induction props as [|[k' v'] r IH]; simpl.
  - now rewrite String.eqb_refl.
  - destruct (String.eqb k k') eqn:E; simpl; [now rewrite String.eqb_refl|].
    now rewrite E.
Qed.

Lemma storedLocation_flagged channelId st v :
  storedLocation channelId st = Ret v -> member v "isLastKnown" = VBool true.
Proof.
  unfold storedLocation.
  destruct (getItem st _) as [s|]; [|intros [= <-]; reflexivity].
  destruct (stored_truthy s); [|intros [= <-]; reflexivity].
  destruct (parse_stored s) as [j|e|]; intros [= <-]; [|reflexivity].
  simpl. apply obj_get_set.
Qed.

Lemma valid_fix_zero lat lng :
  (lat =? 0) = true \/ (lng =? 0) = true -> valid_fix lat lng = false.
Proof.
  unfold valid_fix, Js.strict_neq. intros [H|H]; rewrite H; simpl;
    now rewrite ?andb_false_r.
Qed.

Lemma fall_through_flagged latestEntry rest channelId st loc :
  valid_fix (parseFloat (field5 latestEntry)) (parseFloat (field6 latestEntry)) = false ->
  getLastValidLocation (latestEntry :: rest) channelId st = Ret loc ->
  member loc "isLastKnown" = VBool true.
Proof.
  intros Hv. unfold getLastValidLocation. simpl hd_error. simpl optional. rewrite Hv.
  rewrite historicalLocation_first_fix.
  destruct (first_fix _) as [feed|]; simpl.
  - intros [= <-]. reflexivity.
  - apply storedLocation_flagged.
Qed.

Lemma valid_fix_spec lat lng :
  valid_fix lat lng = true
  <-> (is_nan lat = false /\ is_nan lng = false /\ (lat =? 0) = false /\ (lng =? 0) = false).
Proof.
  unfold valid_fix, Js.isNaN, Js.strict_neq.
  rewrite !andb_true_iff, !negb_true_iff. tauto.
Qed.

Lemma obj_get_set_other props k v k' :
  k' <> k -> obj_get (obj_set props k v) k' = obj_get props k'.
Proof.
  intros Hk. induction props as [|[k0 v0] r IH]; simpl.
  - destruct (String.eqb_spec k' k); [contradiction|reflexivity].
  - destruct (String.eqb_spec k k0) as [<-|Hne]; simpl.
    + destruct (String.eqb_spec k' k); [contradiction|reflexivity].
    + now rewrite IH.
Qed.

(** C6, amended: the coordinates of the most recent record are accepted
    exactly when both parse to a Number other than [NaN] and neither
    equals 0 (an infinite coordinate is accepted); when either is 0 the
    resolver returns the first record of the list that passes the same
    test, marked [isLastKnown = true]; when there is none and the
    cache holds an object for the channel, it returns that object's
    properties with [isLastKnown] set to true; when the cache holds no
    entry, an empty one or text that is not JSON, it returns
    [{lat: null, lng: null, accuracy: 15, isLastKnown: true}]; whatever
    it returns then has [isLastKnown = true]. *)
Theorem zero_coordinate_falls_through latestEntry rest channelId st :
  (getLastValidLocation (latestEntry :: rest) channelId st
     = Ret (location (parseFloat (field5 latestEntry)) (parseFloat (field6 latestEntry))
              false (created_at latestEntry))
   <-> (is_nan (parseFloat (field5 latestEntry)) = false
        /\ is_nan (parseFloat (field6 latestEntry)) = false
        /\ (parseFloat (field5 latestEntry) =? 0) = false
        /\ (parseFloat (field6 latestEntry) =? 0) = false))
  /\ ((parseFloat (field5 latestEntry) =? 0) = true
      \/ (parseFloat (field6 latestEntry) =? 0) = true ->
      (forall feed, first_fix rest = Some feed ->
         getLastValidLocation (latestEntry :: rest) channelId st = Ret (last_known feed))
      /\ (first_fix rest = None ->
          (forall props, cached st channelId (VObj props) ->
             exists loc,
               getLastValidLocation (latestEntry :: rest) channelId st = Ret loc
               /\ member loc "isLastKnown"%string = VBool true
               /\ forall k, k <> "isLastKnown"%string -> member loc k = obj_get props k)
          /\ (nothing_cached st channelId ->
              getLastValidLocation (latestEntry :: rest) channelId st = Ret no_location))
      /\ (forall loc, getLastValidLocation (latestEntry :: rest) channelId st = Ret loc ->
          member loc "isLastKnown"%string = VBool true)).
Proof.
  split.
  - rewrite <- valid_fix_spec. split.
    + intros H. destruct (valid_fix _ _) eqn:Hv; [reflexivity|].
      pose proof (fall_through_flagged _ _ _ _ _ Hv H) as Hf. discriminate Hf.
    + intros Hv. unfold getLastValidLocation. simpl hd_error. simpl optional.
      now rewrite Hv.
  - intros Hz. pose proof (valid_fix_zero _ _ Hz) as Hv.
    assert (Hmain : getLastValidLocation (latestEntry :: rest) channelId st =
                    match first_fix rest with
                    | Some feed => Ret (last_known feed)
                    | None => storedLocation channelId st
                    end).
    { unfold getLastValidLocation. simpl hd_error. simpl optional. rewrite Hv.
      rewrite historicalLocation_first_fix. unfold first_fix. simpl find. rewrite Hv.
      fold (first_fix rest). destruct (first_fix rest); reflexivity. }
    rewrite Hmain. split; [|split].
    + intros feed ->. reflexivity.
    + intros ->. unfold storedLocation. split.
      * intros props (s & -> & -> & ->). eexists. split; [reflexivity|].
        cbn [member spread]. split; [apply obj_get_set|].
        intros k Hk. now apply obj_get_set_other.
      * unfold nothing_cached. destruct (getItem st _) as [s|]; [|reflexivity].
        intros [->|(e & ->)]; [reflexivity|]. now destruct (stored_truthy s).
    + intros loc. destruct (first_fix rest) as [feed|].
      * intros [= <-]. reflexivity.
      * apply storedLocation_flagged.
Qed.

Lemma zero_coordinate_falls_through_witness :
  getLastValidLocation [zero_latitude_record; earlier_fix_record] "42" []
    = Ret (location 17.385 78.4867 true (FStr "2024-01-01T00:00:00Z"))
  /\ (exists loc,
        getLastValidLocation [zero_latitude_record] "42" cached_fix = Ret loc
        /\ member loc "isLastKnown" = VBool true
        /\ member loc "lat" = VNum 17.385
        /\ member loc "lng" = VNum 78.4867
        /\ member loc "timestamp" = VStr "2024-01-01T00:00:00Z")
  /\ getLastValidLocation [zero_latitude_record] "42" [] = Ret no_location.
Proof.
  destruct (proj2 (zero_coordinate_falls_through zero_latitude_record [earlier_fix_record]
                     "42" [])) as (H1 & _); [left; reflexivity|].
  destruct (proj2 (zero_coordinate_falls_through zero_latitude_record [] "42" cached_fix))
    as (_ & H2 & _); [left; reflexivity|].
  destruct (proj2 (zero_coordinate_falls_through zero_latitude_record [] "42" []))
    as (_ & H3 & _); [left; reflexivity|].
  split; [rewrite (H1 earlier_fix_record eq_refl); reflexivity|].
  split; [|apply (proj2 (H3 eq_refl)); exact I].
  destruct (proj1 (H2 eq_refl)
              [("lat"%string, VNum 17.385); ("lng"%string, VNum 78.4867);
               ("accuracy"%string, VNum 15); ("isLastKnown"%string, VBool false);
               ("timestamp"%string, VStr "2024-01-01T00:00:00Z")])
    as (loc & E & Hflag & Hprops).
  { eexists. split; [reflexivity|]. split; vm_compute; reflexivity. }
  exists loc. split; [exact E|]. split; [exact Hflag|].
  split; [|split]; rewrite Hprops; (reflexivity || discriminate).
Defined.

(** After a zero latitude the loop of lines 199-214 stops at a record
    whose latitude is infinite; as the most recent record, the same
    coordinates are accepted as the current location. *)
Lemma zero_coordinate_reaches_infinite_fix :
  (parseFloat (field5 zero_latitude_record) =? 0) = true
  /\ getLastValidLocation infinite_history "42" []
     = Ret (location infinity 5 true (FStr "2024-01-01T00:00:00Z"))
  /\ getLastValidLocation [infinite_latitude_record] "42" []
     = Ret (location infinity 5 false (FStr "2024-01-01T00:00:00Z"))
  /\ Js.finite (parseFloat (field5 infinite_latitude_record)) = false.
Proof. repeat split; reflexivity. Qed.

(** ** CSV exporter *)

Section Exporter.
Variable Date_parse : string -> float.

Lemma feed_row_ret feed g cells g1 :
  feed_row Date_parse feed g = (Ret cells, g1) ->
  exists estimate, cells = record_cells Date_parse feed estimate.
Proof.
  unfold feed_row, toISOString.
  destruct (samples_of feed) as [samples|e|]; try discriminate.
  destruct (calculateBP _ _ _ _) as [estimate g2].
  destruct (Js.isNaN _); intros H; try discriminate.
  injection H as <- <-. now exists estimate.
Qed.

Lemma feed_row_total feed g :
  exportable Date_parse feed -> exists cells g1, feed_row Date_parse feed g = (Ret cells, g1).
Proof.
  intros [[samples Hs] Hd]. unfold feed_row, toISOString. rewrite Hs.
  destruct (calculateBP _ _ _ _) as [estimate g2]. rewrite Hd. eauto.
Qed.

Lemma feed_row_throw feed g e :
  samples_of feed = Throw e -> feed_row Date_parse feed g = (Throw e, g).
Proof. intros H. unfold feed_row. now rewrite H. Qed.

Lemma forEach_feed_ret feeds : forall acc g rows g',
  forEach_feed Date_parse feeds acc g = (Ret rows, g') ->
  exists estimates,
    length estimates = length feeds
    /\ rows = (acc ++ map (record_row Date_parse) (combine feeds estimates))%list.
Proof.
  induction feeds as [|feed rest IH]; simpl; intros acc g rows g' H.
  - injection H as <- _. exists []. now rewrite app_nil_r.
  - destruct (feed_row Date_parse feed g) as [[cells| |] g1] eqn:Er; try discriminate.
    destruct (feed_row_ret _ _ _ _ Er) as [estimate ->].
    destruct (IH _ _ _ _ H) as (estimates & Hl & ->).
    exists (estimate :: estimates). split; [simpl; congruence|].
    rewrite <- app_assoc. reflexivity.
Qed.

Lemma forEach_feed_total feeds : forall acc g,
  Forall (exportable Date_parse) feeds ->
  exists rows g', forEach_feed Date_parse feeds acc g = (Ret rows, g').
Proof.
  induction feeds as [|feed rest IH]; simpl; intros acc g H; [eauto|].
  inversion H as [|? ? Hf Hr]; subst.
  destruct (feed_row_total feed g Hf) as (cells & g1 & ->). now apply IH.
Qed.

Lemma forEach_feed_throw feeds : forall acc g feed e rows,
  In feed feeds -> samples_of feed = Throw e ->
  fst (forEach_feed Date_parse feeds acc g) <> Ret rows.
Proof.
  induction feeds as [|first rest IH]; simpl; intros acc g feed e rows Hin Hs; [destruct Hin|].
  destruct (feed_row Date_parse first g) as [[cells|e'|] g1] eqn:Er; try discriminate.
  destruct Hin as [->|Hin].
  - rewrite (feed_row_throw _ _ _ Hs) in Er. discriminate.
  - eapply IH; eassumption.
Qed.

End Exporter.

Section ExportClaims.
Variable Date_parse : string -> float.

(** C9, amended: for an empty feed list the exporter returns [null] and
    no header; for a non-empty list whose records all have parseable ECG
    samples and a valid timestamp it returns the fixed header followed by
    exactly one row per record in the order received; each row holds the
    ISO-8601 timestamp, then the parsed fields with the empty string for
    every field that parses to [NaN], then the two estimated pressures. *)
Theorem csv_export feeds g :
  (feeds = [] -> convertThingSpeakDataToCSV Date_parse feeds g = (Ret None, g))
  /\ (feeds <> [] -> Forall (exportable Date_parse) feeds ->
      exists t g', convertThingSpeakDataToCSV Date_parse feeds g = (Ret (Some t), g'))
  /\ (forall t g', convertThingSpeakDataToCSV Date_parse feeds g = (Ret (Some t), g') ->
      exists estimates,
        length estimates = length feeds
        /\ t = join newline
                 (join "," headers :: map (record_row Date_parse) (combine feeds estimates)))
  /\ literal (join "," headers) =
       Some "timestamp,temperature,alertLevel,heartRate,spo2,latitude,longitude,avgEcg,systolicBP,diastolicBP"%string
  /\ (forall feed estimate,
        record_cells Date_parse feed estimate =
          [ DText [IsoText (Date_new Date_parse (created_at feed))];
            csv_fixed (parseFloat (field1 feed));
            csv_number (parseInt (field2 feed));
            csv_rounded (parseFloat (field3 feed));
            csv_rounded (parseFloat (field4 feed));
            csv_number (parseFloat (field5 feed));
            csv_number (parseFloat (field6 feed));
            csv_number (parseFloat (field7 feed));
            DNum (systolic estimate);
            DNum (diastolic estimate) ]).
Proof.
  split; [intros ->; reflexivity|]. split; [|split; [|split; [reflexivity|reflexivity]]].
  - intros Hne Hall. destruct feeds as [|feed rest]; [congruence|].
    unfold convertThingSpeakDataToCSV, csvRows.
    destruct (forEach_feed_total Date_parse (feed :: rest) [join "," headers] g Hall)
      as (rows & g' & ->). eauto.
  - intros t g'. unfold convertThingSpeakDataToCSV, csvRows.
    destruct feeds as [|feed rest]; [discriminate|].
    destruct (forEach_feed Date_parse (feed :: rest) _ g) as [[rows|e|] g1] eqn:E;
      try discriminate.
    intros H. injection H as <- _.
    destruct (forEach_feed_ret _ _ _ _ _ _ E) as (estimates & Hl & ->).
    exists estimates. split; [exact Hl|reflexivity].
Qed.

Lemma map_bp_no_throw feeds : forall g e, fst (map_bp feeds g) <> Throw e.
Proof.
  induction feeds as [|feed rest IH]; simpl; intros g e; [discriminate|].
  unfold bp_of_feed.
  destruct (samples_of feed) as [samples|e'|]; simpl; try discriminate.
  - destruct (calculateBP _ _ _ _) as [estimate g1].
    specialize (IH g1 e). destruct (map_bp rest g1) as [[bs|e''|] g2]; simpl in *;
      congruence.
  - specialize (IH g e). destruct (map_bp rest g) as [[bs|e''|] g2]; simpl in *; congruence.
Qed.

(** C7 (a defect of the code): when one record of a batch has malformed
    ECG samples, the historical assembler catches the error per record
    (that record's entry is [{systolic: null, diastolic: null}] and the
    call does not throw), but the CSV exporter has no such handler: the
    error leaves [convertThingSpeakDataToCSV] and no row is emitted. *)
Theorem malformed_samples_abort_export feeds feed e g :
  In feed feeds -> samples_of feed = Throw e ->
  (forall r, fst (convertThingSpeakDataToCSV Date_parse feeds g) <> Ret r)
  /\ (forall e', fst (fetchHistoricalData Date_parse feeds g) <> Throw e')
  /\ (forall g1, bp_of_feed feed g1 = (Ret null_bp, g1)).
Proof.
  intros Hin Hs. split; [|split].
  - intros r. unfold convertThingSpeakDataToCSV, csvRows.
    destruct feeds as [|first rest]; [destruct Hin|].
    pose proof (forEach_feed_throw Date_parse (first :: rest) [join "," headers] g feed e) as Ht.
    destruct (forEach_feed Date_parse (first :: rest) _ g) as [[rows|e'|] g1];
      simpl; try discriminate.
    exfalso. exact (Ht rows Hin Hs eq_refl).
  - intros e'. unfold fetchHistoricalData.
    destruct feeds as [|first rest]; [destruct Hin|].
    pose proof (map_bp_no_throw (slice_last 10 (first :: rest)) g e') as Hn.
    destruct (map_bp _ g) as [[bs|e''|] g1]; simpl in *; congruence.
  - intros g1. unfold bp_of_feed. now rewrite Hs.
Qed.

End ExportClaims.

Lemma malformed_samples_abort_export_witness :
  fst (convertThingSpeakDataToCSV example_Date_parse batch steady_draws) = Throw SyntaxError
  /\ (forall r, fst (convertThingSpeakDataToCSV example_Date_parse batch steady_draws) <> Ret r)
  /\ (exists h g',
        fetchHistoricalData example_Date_parse batch steady_draws = (Ret h, g')
        /\ Series.bp (formatted h) =
             [ {| entry_systolic := Some 120; entry_diastolic := Some 80 |};
               null_bp;
               {| entry_systolic := Some 120; entry_diastolic := Some 80 |} ]).
Proof.
  split; [vm_compute; reflexivity|]. split.
  - apply (malformed_samples_abort_export example_Date_parse batch malformed_record SyntaxError).
    + right; left; reflexivity.
    + vm_compute. reflexivity.
  - eexists. eexists. split; vm_compute; reflexivity.
Defined.

Lemma csv_export_witness :
  exists t g',
    convertThingSpeakDataToCSV example_Date_parse [unparsed_record] steady_draws
      = (Ret (Some t), g')
    /\ t = join newline
             [ join "," headers;
               [ IsoText 1704067200000; Lit ","; Lit ""; Lit ","; Lit ""; Lit ","; Lit "";
                 Lit ","; Lit ""; Lit ","; NumText 0; Lit ","; NumText 5; Lit ","; Lit "";
                 Lit ","; NumText 120; Lit ","; NumText 80 ] ].
Proof.
  destruct (csv_export example_Date_parse [unparsed_record] steady_draws) as (_ & Htot & _).
  destruct Htot as (t & g' & E); [discriminate| |].
  - repeat constructor. exists (Some []). reflexivity.
  - exists t, g'. split; [exact E|].
    vm_compute in E. now injection E as <- _.
Defined.

(** No feeds: the result is [null], not a header. *)
Lemma csv_export_counterexample :
  convertThingSpeakDataToCSV example_Date_parse [] steady_draws = (Ret None, steady_draws).
Proof. reflexivity. Qed.

(** ** Historical series *)

Lemma bp_of_feed_ret feed g b g1 :
  bp_of_feed feed g = (Ret b, g1) -> bp_entry_for feed b.
Proof.
  unfold bp_of_feed, bp_entry_for.
  destruct (samples_of feed) as [samples|e|] eqn:Es; try discriminate.
  - destruct (calculateBP _ _ _ _) as [estimate g2] eqn:Ec. intros [= <- <-].
    right. exists samples, g, estimate, g2. auto.
  - intros [= <- <-]. left. eauto.
Qed.

Lemma map_bp_ret feeds : forall g bs g',
  map_bp feeds g = (Ret bs, g') -> Forall2 bp_entry_for feeds bs.
Proof.
  induction feeds as [|feed rest IH]; simpl; intros g bs g' H.
  - injection H as <- _. constructor.
  - destruct (bp_of_feed feed g) as [[b|e|] g1] eqn:Eb; try discriminate.
    destruct (map_bp rest g1) as [[bs'|e|] g2] eqn:Em; try discriminate.
    injection H as <- _. constructor; [eapply bp_of_feed_ret|eapply IH]; eassumption.
Qed.

Lemma map_bp_total feeds : forall g,
  Forall (fun feed => samples_of feed <> Unmodelled) feeds ->
  exists bs g', map_bp feeds g = (Ret bs, g').
Proof.
  induction feeds as [|feed rest IH]; simpl; intros g H; [eauto|].
  inversion H as [|? ? Hf Hr]; subst. unfold bp_of_feed.
  destruct (samples_of feed) as [samples|e|]; [| |congruence].
  - destruct (calculateBP _ _ _ _) as [estimate g1].
    destruct (IH g1 Hr) as (bs & g' & ->). eauto.
  - destruct (IH g Hr) as (bs & g' & ->). eauto.
Qed.

Lemma number_or_null_none x : number_or_null x = None <-> Js.isNaN x = true.
Proof. unfold number_or_null. destruct (Js.isNaN x); split; congruence. Qed.

Lemma entry_of_number_or_null x : entry_of x (number_or_null x).
Proof. unfold entry_of, number_or_null. destruct (Js.isNaN x) eqn:E; auto. Qed.

Lemma Forall2_entries (f : FeedRecord -> float) feeds :
  Forall2 (fun feed => entry_of (f feed)) feeds (map (fun feed => number_or_null (f feed)) feeds).
Proof. induction feeds; constructor; [apply entry_of_number_or_null|assumption]. Qed.

Lemma bp_entry_for_of feed b : bp_entry_for feed b -> bp_entry_of feed b.
Proof.
  unfold bp_entry_for, bp_entry_of, samples_of, ecg_of.
  intros [(e & Hs & ->)|(samples & g & estimate & g1 & Hs & Hc & ->)]; cbn.
  - destruct (field_truthy (field8 feed)); [|discriminate]. split; [reflexivity|].
    destruct (JSON_parse (field8 feed)) as [parsed|e'|]; try discriminate; [|eauto].
    destruct parsed as [| | | | |l|]; cbn in Hs; try discriminate.
    destruct (all_numbers l); discriminate.
  - exists samples, g, estimate, g1. repeat split; try assumption.
    destruct (field_truthy (field8 feed)); [|congruence].
    destruct (JSON_parse (field8 feed)) as [parsed|e'|]; try discriminate. eauto.
Qed.

Lemma entry_of_inv parsed entry :
  entry_of parsed entry -> entry = if Js.isNaN parsed then None else Some parsed.
Proof.
  unfold entry_of. destruct entry as [x|].
  - intros [-> ->]. reflexivity.
  - intros ->. reflexivity.
Qed.

Section HistoricalClaims.
Variable Date_parse : string -> float.

(** C8: for every non-empty feed list the historical assembler does not
    throw, and the series it returns are built from the last ten records:
    timestamps, temperature, heartRate, spo2, bp and avgEcg all have that
    many entries, and entry [i] of each comes from record [i] alone: an
    entry of a numeric series is [null] exactly when [parseFloat] of its
    own field ([parseInt] for the alert level) is [NaN] and is that
    Number otherwise; an entry of [bp] is [null] twice exactly when
    [field8] of its record holds text that [JSON.parse] rejects, and is an
    estimate from that record's samples, heart rate and SpO2 otherwise
    (for a [field8] that, where it is JSON, is [null] or an array of
    Numbers). *)
Theorem historical_series_lengths feeds g :
  feeds <> [] ->
  (forall e, fst (fetchHistoricalData Date_parse feeds g) <> Throw e)
  /\ (Forall (fun feed => samples_of feed <> Unmodelled) (slice_last 10 feeds) ->
      exists h g', fetchHistoricalData Date_parse feeds g = (Ret h, g'))
  /\ (forall h g', fetchHistoricalData Date_parse feeds g = (Ret h, g') ->
      let s := formatted h in
      raw_feeds h = slice_last 10 feeds
      /\ (length (Series.timestamps s) = length (Series.temperature s)
          /\ length (Series.temperature s) = length (Series.heartRate s)
          /\ length (Series.heartRate s) = length (Series.spo2 s)
          /\ length (Series.spo2 s) = length (Series.bp s)
          /\ length (Series.bp s) = length (Series.avgEcg s)
          /\ length (Series.avgEcg s) = Nat.min 10 (length feeds))
      /\ series_of Date_parse (raw_feeds h) s).
Proof.
  intros Hne. destruct feeds as [|first rest]; [congruence|].
  unfold fetchHistoricalData.
  set (limitedFeeds := slice_last 10 (first :: rest)).
  split; [|split].
  - intros e. pose proof (map_bp_no_throw limitedFeeds g e) as Hn.
    destruct (map_bp limitedFeeds g) as [[bs|e'|] g1]; simpl in *; congruence.
  - intros Hall. destruct (map_bp_total limitedFeeds g Hall) as (bs & g' & ->). eauto.
  - intros h g'. destruct (map_bp limitedFeeds g) as [[bs|e'|] g1] eqn:Em; try discriminate.
    intros [= <- <-]. cbv zeta. simpl.
    pose proof (map_bp_ret _ _ _ _ Em) as Hf.
    pose proof (Forall2_length Hf) as Hl.
    assert (Hlim : length limitedFeeds = Nat.min 10 (length (first :: rest))).
    { subst limitedFeeds. unfold slice_last. rewrite length_skipn. lia. }
    split; [reflexivity|]. split.
    + rewrite !length_map. rewrite <- Hl. repeat split; try reflexivity. exact Hlim.
    + unfold series_of. cbn [Series.timestamps Series.temperature Series.alertLevel
                             Series.heartRate Series.spo2 Series.avgEcg Series.bp].
      split; [reflexivity|].
      repeat (split; [apply Forall2_entries|]).
      clear -Hf. induction Hf; constructor; [now apply bp_entry_for_of|assumption].
Qed.

End HistoricalClaims.

Lemma historical_series_lengths_witness :
  exists h g',
    fetchHistoricalData example_Date_parse mixed_batch steady_draws = (Ret h, g')
    /\ length (Series.timestamps (formatted h)) = 3%nat
    /\ Series.temperature (formatted h) = [Some 37.25; Some 36.7; None]
    /\ Series.heartRate (formatted h) = [Some 72.6; Some 75; None]
    /\ Series.avgEcg (formatted h) = [Some infinity; Some 0.4; None]
    /\ exists first last,
         Series.bp (formatted h) = [first; null_bp; last]
         /\ entry_systolic first <> None /\ entry_systolic last <> None.
Proof.
  destruct (historical_series_lengths example_Date_parse mixed_batch steady_draws)
    as (_ & Htot & Hser); [discriminate|].
  destruct Htot as (h & g' & E).
  { repeat constructor; vm_compute; discriminate. }
  exists h, g'. split; [exact E|].
  destruct (Hser h g' E) as (Hraw & (H1 & H2 & H3 & H4 & H5 & H6) & Hs).
  rewrite Hraw in Hs. change (slice_last 10 mixed_batch) with mixed_batch in Hs.
  destruct Hs as (_ & Ht & _ & Hh & _ & Ha & Hb).
  split; [change (Nat.min 10 (length mixed_batch)) with 3%nat in H6; congruence|].
  unfold mixed_batch in *.
  repeat match goal with
         | H : Forall2 _ (_ :: _) _ |- _ => inversion H; subst; clear H
         | H : Forall2 _ [] _ |- _ => inversion H; subst; clear H
         | H : entry_of _ _ |- _ => apply entry_of_inv in H; vm_compute in H; subst
         end.
  repeat (split; [reflexivity|]).
  match goal with
  | Hf : bp_entry_of rounded_record ?first, Hm : bp_entry_of malformed_record ?middle,
    Hl : bp_entry_of unparsed_record ?last |- _ =>
      exists first, last;
      unfold bp_entry_of, ecg_of in Hf, Hm, Hl;
      destruct first as [[s0|] [d0|]], middle as [[s1|] [d1|]], last as [[s2|] [d2|]];
      cbn [entry_systolic entry_diastolic] in Hf, Hm, Hl;
      try contradiction;
      try (destruct Hf as (_ & e & Hf); vm_compute in Hf; discriminate Hf);
      try (destruct Hl as (_ & e & Hl); vm_compute in Hl; discriminate Hl);
      try (destruct Hm as (samples & _ & _ & _ & Hm & _); vm_compute in Hm;
           destruct Hm as (parsed & Hm & _); discriminate Hm)
  end.
  repeat split; discriminate.
Defined.

(** * Further properties of the service *)

(** ** [clampValue] *)

Lemma SFltb_trans x y z : SFltb x y = true -> SFltb y z = true -> SFltb x z = true.
Proof.
  unfold SFltb.
  destruct x as [sx|sx| |sx mx ex], y as [sy|sy| |sy my ey], z as [sz|sz| |sz mz ez];
    simpl; try discriminate; try (destruct sx, sy, sz; simpl; congruence);
    try (destruct sx, sy; simpl; congruence); try (destruct sy, sz; simpl; congruence);
    try (destruct sx, sz; simpl; congruence).
  destruct sx, sy, sz; simpl; try congruence;
    destruct (Z.compare_spec ex ey), (Z.compare_spec ey ez), (Z.compare_spec ex ez);
    simpl; try congruence; try lia; subst;
    rewrite ?Pos.compare_cont_spec; simpl;
    destruct (Pos.compare_spec mx my), (Pos.compare_spec my mz), (Pos.compare_spec mx mz);
    simpl; try congruence; try lia.
Qed.

Lemma ltb_trans x y z : (x <? y) = true -> (y <? z) = true -> (x <? z) = true.
Proof. rewrite !ltb_spec. apply SFltb_trans. Qed.

Lemma ltb_not_nan x y : (x <? y) = true -> is_nan x = false /\ is_nan y = false.
Proof.
  rewrite ltb_spec. intros H. split; apply not_nan_SF; intros E; rewrite E in H;
    unfold SFltb in H; simpl in H; try discriminate.
  destruct (Prim2SF x); discriminate.
Qed.

Lemma ltb_asym x y : (x <? y) = true -> (y <? x) = false.
Proof.
  intros H. destruct (ltb_not_nan _ _ H) as [Hx Hy].
  rewrite (ltb_false_leb y x Hy Hx), (ltb_leb _ _ H). reflexivity.
Qed.

Lemma eqb_of_leb x y : (x <=? y) = true -> (y <=? x) = true -> (x =? y) = true.
Proof.
  rewrite !leb_spec, eqb_spec. unfold SFleb, SFeqb.
  rewrite (SFcompare_antisym (Prim2SF x)).
  destruct (SFcompare (Prim2SF x) (Prim2SF y)) as [[]|]; simpl; congruence.
Qed.

Lemma eqb_refl_num x : is_nan x = false -> (x =? x) = true.
Proof. intros H. apply eqb_of_leb; now apply leb_refl. Qed.

(** X1: between bounds [lo < hi], [clampValue] returns [lo] for a value
    below [lo], [hi] for a value above [hi], and a value equal to the
    argument for an argument between the bounds. *)
Theorem clampValue_saturates v lo hi :
  (lo <? hi) = true ->
  ((v <? lo) = true -> clampValue v lo hi = lo)
  /\ ((hi <? v) = true -> clampValue v lo hi = hi)
  /\ ((lo <=? v) = true -> (v <=? hi) = true -> (clampValue v lo hi =? v) = true).
Proof.
  intros Hlh. destruct (ltb_not_nan _ _ Hlh) as [Hlo Hhi].
  unfold clampValue. split; [|split].
  - intros Hv. destruct (ltb_not_nan _ _ Hv) as [Hn _].
    pose proof (ltb_trans _ _ _ Hv Hlh) as Hvh.
    unfold Js.Math_min. rewrite Hhi, Hn. simpl orb. cbv iota.
    rewrite (ltb_asym _ _ Hvh), Hvh.
    unfold Js.Math_max. rewrite Hlo, Hn. simpl orb. cbv iota.
    now rewrite (ltb_asym _ _ Hv), Hv.
  - intros Hv. destruct (ltb_not_nan _ _ Hv) as [_ Hn].
    unfold Js.Math_min. rewrite Hhi, Hn. simpl orb. cbv iota. rewrite Hv.
    unfold Js.Math_max. rewrite Hlo, Hhi. simpl orb. cbv iota. now rewrite Hlh.
  - intros Hlv Hvh. pose proof (leb_not_nan _ _ Hlv) as Hn.
    assert (Hmin : exists w, Js.Math_min hi v = w /\ (w =? v) = true
                             /\ (w = v \/ w = hi) /\ is_nan w = false).
    { unfold Js.Math_min. rewrite Hhi, Hn. simpl orb. cbv iota.
      rewrite (ltb_false_leb hi v Hhi Hn), Hvh. simpl negb. cbv iota.
      destruct (v <? hi) eqn:E.
      - exists v. auto using eqb_refl_num.
      - rewrite (ltb_false_leb v hi Hn Hhi) in E. apply negb_false_iff in E.
        destruct (get_sign hi).
        + exists hi. repeat split; auto. now apply eqb_of_leb.
        + exists v. auto using eqb_refl_num. }
    destruct Hmin as (w & -> & Hwv & Hw & Hwn).
    assert (Hlw : (lo <=? w) = true).
    { destruct Hw as [->| ->]; [exact Hlv|now apply ltb_leb]. }
    unfold Js.Math_max. rewrite Hlo, Hwn. simpl orb. cbv iota.
    destruct (lo <? w) eqn:E1; [exact Hwv|].
    rewrite (ltb_false_leb w lo Hwn Hlo), Hlw. simpl negb. cbv iota.
    rewrite (ltb_false_leb lo w Hlo Hwn) in E1. apply negb_false_iff in E1.
    assert (Hlweq : (lo =? w) = true) by now apply eqb_of_leb.
    destruct (get_sign lo); [exact Hwv|].
    destruct Hw as [->| ->]; [exact Hlweq|].
    (* w = hi would give lo = hi *)
    rewrite (ltb_false_leb lo hi Hlo Hhi), E1 in Hlh. discriminate.
Qed.

Lemma clampValue_saturates_witness :
  clampValue 72 80 200 = 80 /\ clampValue 285 80 200 = 200
  /\ (clampValue 128 80 200 =? 128) = true.
Proof.
  destruct (clampValue_saturates 72 80 200 eq_refl) as (H1 & _ & _).
  destruct (clampValue_saturates 285 80 200 eq_refl) as (_ & H2 & _).
  destruct (clampValue_saturates 128 80 200 eq_refl) as (_ & _ & H3).
  split; [apply H1; reflexivity|]. split; [apply H2; reflexivity|].
  apply H3; reflexivity.
Defined.

(** ** Location resolver and its cache *)

Lemma storedLocation_no_throw channelId st e : storedLocation channelId st <> Throw e.
Proof.
  unfold storedLocation.
  destruct (getItem st _) as [s|]; [|discriminate].
  destruct (stored_truthy s); [|discriminate].
  destruct (parse_stored s); discriminate.
Qed.

Lemma historicalLocation_none feeds :
  first_fix feeds = None -> historicalLocation feeds = None.
Proof. intros H. now rewrite historicalLocation_first_fix, H. Qed.

(** X2: the resolver never raises, whatever the feed list (also an empty
    one) and whatever the cache holds; the location it returns has
    [isLastKnown = false] exactly when the coordinates of the first record
    were accepted; and when no record has usable coordinates and the
    cached text is not JSON, the parse error is absorbed and the empty
    location is returned. *)
Theorem getLastValidLocation_absorbs_errors feeds channelId st :
  (forall e, getLastValidLocation feeds channelId st <> Throw e)
  /\ (forall loc, getLastValidLocation feeds channelId st = Ret loc ->
        member loc "isLastKnown" = VBool (negb (current_accepted feeds)))
  /\ (forall s e, first_fix feeds = None ->
        getItem st (location_key channelId) = Some (Raw s) ->
        Json.parse_text s = Throw e ->
        getLastValidLocation feeds channelId st = Ret no_location).
Proof.
  unfold getLastValidLocation, current_accepted.
  destruct feeds as [|latestEntry rest].
  - simpl hd_error. simpl optional.
    change (valid_fix (parseFloat FUndefined) (parseFloat FUndefined)) with false.
    cbv iota. simpl historicalLocation. split; [|split].
    + intros e. apply storedLocation_no_throw.
    + intros loc. apply storedLocation_flagged.
    + intros s e _ Hs He. unfold storedLocation. rewrite Hs.
      unfold parse_stored. rewrite He. now destruct (stored_truthy _).
  - simpl hd_error. simpl optional.
    destruct (valid_fix _ _) eqn:Hv.
    + split; [discriminate|]. split; [intros loc [= <-]; reflexivity|].
      intros s e Hf. unfold first_fix in Hf. simpl in Hf. rewrite Hv in Hf. discriminate.
    + rewrite historicalLocation_first_fix. split; [|split].
      * intros e. destruct (first_fix _); [discriminate|apply storedLocation_no_throw].
      * intros loc. destruct (first_fix _); [intros [= <-]; reflexivity|].
        apply storedLocation_flagged.
      * intros s e Hf Hs He. rewrite Hf. simpl. unfold storedLocation. rewrite Hs.
        unfold parse_stored. rewrite He. now destruct (stored_truthy _).
Qed.

Lemma first_fix_none_head feeds :
  first_fix feeds = None -> current_accepted feeds = false.
Proof.
  destruct feeds as [|feed rest]; [reflexivity|].
  unfold first_fix, current_accepted. simpl. now destruct (valid_fix _ _).
Qed.

Lemma getItem_setItem st k v : getItem (setItem st k v) k = Some v.
Proof. unfold setItem. simpl. now rewrite String.eqb_refl. Qed.

Lemma getItem_setItem_other st k k' v :
  k' <> k -> getItem (setItem st k v) k' = getItem st k'.
Proof.
  intros H. unfold setItem. simpl.
  destruct (String.eqb_spec k' k); [contradiction|reflexivity].
Qed.

Section LocationCache.
Variable Date_parse : string -> float.

(** What the snapshot does with the location: it is the resolver's answer,
    and it is written to the cache when both coordinates are truthy. *)
Lemma snapshot_location feeds channelId w snap w' :
  mapThingSpeakToPatientVitals Date_parse feeds channelId w = (Ret (Some snap), w') ->
  getLastValidLocation feeds channelId (localStorage w) = Ret (location_of snap)
  /\ localStorage w' =
       (if truthy (member (location_of snap) "lat") && truthy (member (location_of snap) "lng")
        then setItem (localStorage w) (location_key channelId) (Stringified (location_of snap))
        else localStorage w).
Proof.
  unfold mapThingSpeakToPatientVitals.
  destruct feeds as [|latestEntry rest]; [discriminate|].
  destruct (getLastValidLocation _ _ _) as [locationData|e|]; try discriminate.
  destruct (JSON_parse _) as [parsed|e|]; try discriminate.
  destruct (as_samples parsed) as [ecgSamples|e|]; try discriminate.
  destruct (calculateBP _ _ _ _) as [bp g].
  intros H. injection H as <- <-. cbn [location_of]. split; [reflexivity|].
  unfold with_random. cbn [localStorage].
  destruct (truthy _ && truthy _); reflexivity.
Qed.

(** X3: a snapshot whose first record has accepted, finite coordinates
    writes them to the cache of its channel and touches no other key; a
    later call whose records have no usable coordinates gets those
    coordinates back from the cache, with the accuracy and the timestamp
    of the record and [isLastKnown = true]. *)
Theorem location_cache_round_trip latestEntry rest later channelId w snap w' :
  mapThingSpeakToPatientVitals Date_parse (latestEntry :: rest) channelId w
    = (Ret (Some snap), w') ->
  current_accepted (latestEntry :: rest) = true ->
  Js.finite (parseFloat (field5 latestEntry)) = true ->
  Js.finite (parseFloat (field6 latestEntry)) = true ->
  first_fix later = None ->
  (exists loc,
     getLastValidLocation later channelId (localStorage w') = Ret loc
     /\ member loc "lat" = VNum (parseFloat (field5 latestEntry))
     /\ member loc "lng" = VNum (parseFloat (field6 latestEntry))
     /\ member loc "accuracy" = VNum 15
     /\ member loc "isLastKnown" = VBool true
     /\ member loc "timestamp" = field_value (created_at latestEntry))
  /\ (forall k, k <> location_key channelId ->
        getItem (localStorage w') k = getItem (localStorage w) k).
Proof.
  intros Hsnap Hacc Hflat Hflng Hlater.
  destruct (snapshot_location _ _ _ _ _ Hsnap) as [Hloc Hst].
  unfold current_accepted in Hacc.
  assert (Hcur : location_of snap =
                 location (parseFloat (field5 latestEntry)) (parseFloat (field6 latestEntry))
                   false (created_at latestEntry)).
  { unfold getLastValidLocation in Hloc. simpl hd_error in Hloc. simpl optional in Hloc.
    rewrite Hacc in Hloc. now injection Hloc as <-. }
  apply valid_fix_spec in Hacc. destruct Hacc as (Hn1 & Hn2 & Hz1 & Hz2).
  rewrite Hcur in Hst. cbn [location member obj_get String.eqb Ascii.eqb Bool.eqb truthy] in Hst.
  unfold Js.falsy in Hst. rewrite Hn1, Hn2, Hz1, Hz2 in Hst. simpl in Hst.
  split.
  - unfold getLastValidLocation.
    pose proof (first_fix_none_head _ Hlater) as Hhead.
    assert (Hv : valid_fix (parseFloat (optional field5 (hd_error later)))
                   (parseFloat (optional field6 (hd_error later))) = false).
    { destruct later; [reflexivity|exact Hhead]. }
    rewrite Hv, (historicalLocation_none _ Hlater).
    unfold storedLocation. rewrite Hst, getItem_setItem. cbn [stored_truthy parse_stored location].
    unfold location. cbn [reparse]. rewrite Hflat, Hflng, Hz1, Hz2.
    change (Js.finite 15) with true. change (15 =? 0) with false. cbv iota.
    eexists. split; [reflexivity|].
    destruct (created_at latestEntry) as [| |s]; repeat split; reflexivity.
  - intros k Hk. rewrite Hst. now apply getItem_setItem_other.
Qed.

End LocationCache.

Lemma location_cache_round_trip_witness :
  exists snap w' loc,
    mapThingSpeakToPatientVitals example_Date_parse [earlier_fix_record] "42" empty_world
      = (Ret (Some snap), w')
    /\ getLastValidLocation [zero_latitude_record] "42" (localStorage w') = Ret loc
    /\ member loc "lat" = VNum 17.385
    /\ member loc "isLastKnown" = VBool true.
Proof.
  destruct (mapThingSpeakToPatientVitals example_Date_parse [earlier_fix_record] "42" empty_world)
    as [[[snap|]|?|] w'] eqn:E; try (vm_compute in E; discriminate E).
  destruct (location_cache_round_trip example_Date_parse earlier_fix_record []
              [zero_latitude_record] "42" empty_world snap w' E) as [(loc & H & Hlat & _ & _ & Hk & _) _];
    try reflexivity.
  exists snap, w', loc. repeat split; assumption.
Defined.

(** ** The snapshot when the data is insufficient for an estimate *)

(** The text of [status.bp], lines 281-282. *)
Lemma offsets_cases k : (-5 <= k <= 4)%Z ->
  (k = -5 \/ k = -4 \/ k = -3 \/ k = -2 \/ k = -1 \/ k = 0
   \/ k = 1 \/ k = 2 \/ k = 3 \/ k = 4)%Z.
Proof. lia. Qed.

Lemma baseline_not_flagged k1 k2 :
  (-5 <= k1 <= 4)%Z -> (-5 <= k2 <= 4)%Z ->
  Js.gtb (Js.of_Z (120 + k1)) 140 = false
  /\ Js.gtb (Js.of_Z (80 + k2)) 90 = false
  /\ (Js.of_Z (120 + k1) <? 90) = false
  /\ (Js.of_Z (80 + k2) <? 60) = false.
Proof.
  intros H1 H2.
  destruct (offsets_cases k1 H1) as [->|[->|[->|[->|[->|[->|[->|[->|[->| ->]]]]]]]]];
    destruct (offsets_cases k2 H2) as [->|[->|[->|[->|[->|[->|[->|[->|[->| ->]]]]]]]]];
    vm_compute; repeat split; reflexivity.
Qed.

Section InsufficientData.
Variable Date_parse : string -> float.

Lemma snapshot_bp latestEntry rest channelId w snap w' :
  mapThingSpeakToPatientVitals Date_parse (latestEntry :: rest) channelId w
    = (Ret (Some snap), w') ->
  exists parsed ecgSamples,
    JSON_parse (field8 latestEntry) = Ret parsed
    /\ as_samples parsed = Ret ecgSamples
    /\ calculateBP ecgSamples (parseFloat (field3 latestEntry))
         (parseFloat (field4 latestEntry)) (random w)
       = (Vitals.bp (vitals snap), random w')
    /\ Status.bp (status snap) =
         (if Js.gtb (systolic (Vitals.bp (vitals snap))) 140
             || Js.gtb (diastolic (Vitals.bp (vitals snap))) 90 then "Elevated"%string
          else if (systolic (Vitals.bp (vitals snap)) <? 90)
                  || (diastolic (Vitals.bp (vitals snap)) <? 60) then "Low"%string
          else "Normal"%string).
Proof.
  unfold mapThingSpeakToPatientVitals.
  destruct (getLastValidLocation _ _ _) as [locationData|e|]; try discriminate.
  destruct (JSON_parse _) as [parsed|e|] eqn:Hp; try discriminate.
  destruct (as_samples parsed) as [ecgSamples|e|] eqn:Hs; try discriminate.
  assert (Hr : forall b : bool, random (if b then {| random := random w;
                                      localStorage := setItem (localStorage w)
                                        (location_key channelId) (Stringified locationData) |}
                                 else w) = random w) by (intros []; reflexivity).
  rewrite Hr.
  destruct (calculateBP _ _ _ _) as [bp g] eqn:Hb.
  intros H. injection H as <- <-. exists parsed, ecgSamples. cbn. auto.
Qed.

(** X4: when the first record gives the estimator insufficient data (fewer
    than 10 ECG samples, or a heart rate that is missing, zero or not a
    number) and the random source yields values in [0, 1), the snapshot's
    blood pressure is inside [80,200] x [40,120], its status is "Normal",
    and exactly two random values have been drawn. *)
Theorem insufficient_data_bp_normal latestEntry rest channelId w snap w' parsed ecgSamples :
  mapThingSpeakToPatientVitals Date_parse (latestEntry :: rest) channelId w
    = (Ret (Some snap), w') ->
  JSON_parse (field8 latestEntry) = Ret parsed ->
  as_samples parsed = Ret ecgSamples ->
  insufficient ecgSamples (parseFloat (field3 latestEntry)) = true ->
  unit_draws (random w) ->
  in_range (Vitals.bp (vitals snap)) = true
  /\ Status.bp (status snap) = "Normal"%string
  /\ drawn (random w') = S (S (drawn (random w))).
Proof.
  intros Hsnap Hp Hs Hi Hu.
  destruct (snapshot_bp _ _ _ _ _ _ Hsnap) as (parsed' & ecg' & Hp' & Hs' & Hbp & Hst).
  rewrite Hp in Hp'. injection Hp' as <-. rewrite Hs in Hs'. injection Hs' as <-.
  destruct (calculateBP_insufficient ecgSamples (parseFloat (field3 latestEntry))
              (parseFloat (field4 latestEntry)) (random w) Hi Hu)
    as (k1 & k2 & H1 & H2 & E).
  destruct (baseline_not_flagged k1 k2 H1 H2) as (A & B & C & D).
  pose proof (baseline_in_range k1 k2 H1 H2) as Hin.
  set (s := Js.of_Z (120 + k1)) in *. set (d := Js.of_Z (80 + k2)) in *.
  rewrite E in Hbp. injection Hbp as Hb Hr.
  rewrite Hst, <- Hb, <- Hr. cbv beta iota delta [systolic diastolic drawn].
  rewrite A, B, C, D. auto.
Qed.

End InsufficientData.

Lemma insufficient_data_bp_normal_witness :
  exists snap w',
    mapThingSpeakToPatientVitals example_Date_parse [unparsed_record] "42" empty_world
      = (Ret (Some snap), w')
    /\ in_range (Vitals.bp (vitals snap)) = true
    /\ Status.bp (status snap) = "Normal"%string.
Proof.
  destruct (mapThingSpeakToPatientVitals example_Date_parse [unparsed_record] "42" empty_world)
    as [[[snap|]|?|] w'] eqn:E; try (vm_compute in E; discriminate E).
  exists snap, w'. split; [reflexivity|].
  destruct (insufficient_data_bp_normal example_Date_parse unparsed_record [] "42" empty_world
              snap w' (VArr []) (Some []) E) as (H1 & H2 & _);
    try reflexivity; [intros i; split; reflexivity|].
  split; assumption.
Defined.

(** ** Records without a valid timestamp, and the window of the history *)

Section Timestamps.
Variable Date_parse : string -> float.

Lemma feed_row_parseable feed g :
  parseable feed ->
  (dated Date_parse feed /\ exists cells g1, feed_row Date_parse feed g = (Ret cells, g1))
  \/ (~ dated Date_parse feed /\ exists g1, feed_row Date_parse feed g = (Throw RangeError, g1)).
Proof.
  intros [samples Hs]. unfold feed_row, toISOString, dated. rewrite Hs.
  destruct (calculateBP _ _ _ _) as [estimate g1].
  destruct (Js.isNaN _); [right|left]; split; eauto; discriminate.
Qed.

Lemma forEach_feed_parseable feeds : forall acc g,
  Forall parseable feeds ->
  (Forall (dated Date_parse) feeds /\ exists rows g', forEach_feed Date_parse feeds acc g = (Ret rows, g'))
  \/ (exists g', forEach_feed Date_parse feeds acc g = (Throw RangeError, g')).
Proof.
  induction feeds as [|feed rest IH]; simpl; intros acc g H.
  - left. split; [constructor|eauto].
  - inversion H as [|? ? Hf Hr]; subst.
    destruct (feed_row_parseable feed g Hf) as [[Hd (cells & g1 & ->)]|[Hd (g1 & ->)]].
    + destruct (IH (acc ++ [join "," (map ToString cells)])%list g1 Hr)
        as [[Hall Hret]|Hthrow]; [left|right; exact Hthrow].
      split; [now constructor|exact Hret].
    + right. eauto.
Qed.

Lemma Forall_slice_last (P : FeedRecord -> Prop) n feeds :
  Forall P feeds -> Forall P (slice_last n feeds).
Proof.
  unfold slice_last. generalize (length feeds - n)%nat as k.
  intros k. revert feeds. induction k as [|k IH]; intros feeds H; [exact H|].
  destruct feeds as [|feed rest]; [constructor|]. simpl. apply IH.
  now inversion H.
Qed.

(** X5: when every record of a non-empty batch has parseable ECG samples
    but one has a [created_at] that is no date, the CSV exporter raises a
    [RangeError] (from [toISOString]) and produces nothing, whereas the
    historical assembler returns its series for the same batch. *)
Theorem invalid_timestamp_aborts_export feeds feed g :
  Forall parseable feeds ->
  In feed feeds ->
  Js.isNaN (Date_new Date_parse (created_at feed)) = true ->
  fst (convertThingSpeakDataToCSV Date_parse feeds g) = Throw RangeError
  /\ exists h g', fetchHistoricalData Date_parse feeds g = (Ret h, g').
Proof.
  intros Hall Hin Hnan. split.
  - unfold convertThingSpeakDataToCSV, csvRows.
    destruct feeds as [|first rest]; [destruct Hin|].
    destruct (forEach_feed_parseable (first :: rest) [join "," headers] g Hall)
      as [[Hd _]|(g' & ->)]; [|reflexivity].
    rewrite Forall_forall in Hd. specialize (Hd feed Hin). unfold dated in Hd. congruence.
  - destruct feeds as [|first rest]; [destruct Hin|].
    unfold fetchHistoricalData.
    destruct (map_bp_total (slice_last 10 (first :: rest)) g) as (bs & g' & ->); [|eauto].
    apply Forall_slice_last. eapply Forall_impl; [|exact Hall].
    intros f [samples Hs]. congruence.
Qed.

(** X6: the historical assembler looks at the last ten records only:
    records before them change nothing in the result, and a list of at
    most ten records is used whole. *)
Theorem fetchHistoricalData_last_ten older recent g :
  (length recent = 10%nat ->
   fetchHistoricalData Date_parse (older ++ recent) g = fetchHistoricalData Date_parse recent g)
  /\ ((length recent <= 10)%nat ->
      forall h g', fetchHistoricalData Date_parse recent g = (Ret h, g') -> raw_feeds h = recent).
Proof.
  split.
  - intros Hlen.
    assert (Hs : slice_last 10 (older ++ recent) = recent).
    { unfold slice_last. rewrite length_app, Hlen.
      replace (length older + 10 - 10)%nat with (length older + 0)%nat by lia.
      rewrite skipn_app, Nat.add_0_r, skipn_all, Nat.sub_diag. reflexivity. }
    assert (Hr : slice_last 10 recent = recent).
    { unfold slice_last. rewrite Hlen. reflexivity. }
    unfold fetchHistoricalData.
    destruct recent as [|r0 rs]; [discriminate|].
    destruct (older ++ r0 :: rs)%list as [|f0 fs] eqn:E.
    { destruct older; discriminate. }
    rewrite Hs, Hr. reflexivity.
  - intros Hlen h g'. unfold fetchHistoricalData.
    destruct recent as [|r0 rs]; [discriminate|].
    assert (Hr : slice_last 10 (r0 :: rs) = r0 :: rs).
    { unfold slice_last. replace (length (r0 :: rs) - 10)%nat with 0%nat by lia. reflexivity. }
    rewrite Hr. destruct (map_bp _ g) as [[bs|e|] g1]; try discriminate.
    now intros [= <- _].
Qed.

End Timestamps.

Lemma invalid_timestamp_aborts_export_witness :
  fst (convertThingSpeakDataToCSV example_Date_parse [rounded_record; undated_record]
         steady_draws) = Throw RangeError.
Proof.
  apply (invalid_timestamp_aborts_export example_Date_parse
           [rounded_record; undated_record] undated_record steady_draws).
  - repeat constructor; eexists; vm_compute; reflexivity.
  - right; left; reflexivity.
  - reflexivity.
Defined.

Lemma fetchHistoricalData_last_ten_witness :
  fetchHistoricalData example_Date_parse
    ([malformed_record; undated_record] ++ repeat rounded_record 10) steady_draws
  = fetchHistoricalData example_Date_parse (repeat rounded_record 10) steady_draws.
Proof.
  apply (proj1 (fetchHistoricalData_last_ten example_Date_parse
                  [malformed_record; undated_record] (repeat rounded_record 10) steady_draws)).
  reflexivity.
Defined.

(** ** Requests to the provider *)

Lemma fetchLatestData_ret channelId apiKey results p data p1 :
  fetchLatestData channelId apiKey results p = (Ret data, p1) ->
  exists first rest, as_payload data = Ret (PFeeds (first :: rest)).
Proof.
  unfold fetchLatestData, fetch.
  destruct (no_channel channelId); [discriminate|].
  destruct (respond p _ _) as [r|e|]; try discriminate.
  destruct (negb (Response.ok r)); [discriminate|].
  destruct (Response.json r) as [d|e|]; try discriminate.
  destruct (as_payload d) as [[| |[|first rest]]|e|] eqn:E; try discriminate.
  intros [= <- _]. eauto.
Qed.

Lemma as_payload_truthy data view :
  as_payload data = Ret view -> view <> PNull -> data <> VUndefined /\ data <> VNull.
Proof.
  intros H Hv. split; intros ->; cbn in H; injection H as <-; congruence.
Qed.

Lemma as_field_value f : as_field (field_value f) = Some f.
Proof. destruct f; reflexivity. Qed.

Lemma as_record_value feed : as_record (record_value feed) = Some feed.
Proof.
  destruct feed as [c f1 f2 f3 f4 f5 f6 f7 f8]. unfold record_value, as_record.
  cbn [obj_get String.eqb Ascii.eqb Bool.eqb created_at field1 field2 field3 field4 field5
       field6 field7 field8].
  rewrite !as_field_value. reflexivity.
Qed.

Lemma as_records_values feeds : as_records (map record_value feeds) = Some feeds.
Proof.
  induction feeds as [|feed rest IH]; [reflexivity|].
  cbn [map as_records]. now rewrite as_record_value, IH.
Qed.

(** The body made of records is read back as those records. *)
Lemma as_payload_body feeds : as_payload (body_of feeds) = Ret (PFeeds feeds).
Proof.
  unfold as_payload, body_of. cbn [truthy negb obj_get String.eqb Ascii.eqb Bool.eqb].
  now rewrite as_records_values.
Qed.

Lemma fetchLatestData_requests channelId apiKey results p :
  no_channel channelId = false ->
  requests (snd (fetchLatestData channelId apiKey results p))
  = (requests p ++ [[Lit (BASE_URL ++ "/" ++ channelId ++ "/feeds.json?api_key=" ++ apiKey
                          ++ "&results=")%string; NumText results]])%list
  /\ world_of (snd (fetchLatestData channelId apiKey results p)) = world_of p
  /\ downloads (snd (fetchLatestData channelId apiKey results p)) = downloads p.
Proof.
  intros Hc. unfold fetchLatestData, fetch. rewrite Hc.
  destruct (respond p _ _) as [r|e|]; [|repeat split..].
  destruct (negb (Response.ok r)); [repeat split|].
  destruct (Response.json r) as [d|e|]; [|repeat split..].
  destruct (as_payload d) as [view|e|]; [|repeat split..].
  destruct (has_no_feeds view); repeat split.
Qed.

Section ClientClaims.
Variable Date_parse : string -> float.
Variable days_before : float -> float -> float.

Lemma snapshot_not_null feeds channelId w w' :
  feeds <> [] -> mapThingSpeakToPatientVitals Date_parse feeds channelId w <> (Ret None, w').
Proof.
  intros Hne. unfold mapThingSpeakToPatientVitals.
  destruct feeds as [|latestEntry rest]; [congruence|].
  destruct (getLastValidLocation _ _ _) as [locationData|e|]; try discriminate.
  destruct (JSON_parse _) as [parsed|e|]; try discriminate.
  destruct (as_samples parsed) as [ecgSamples|e|]; try discriminate.
  destruct (calculateBP _ _ _ _) as [bp g]. discriminate.
Qed.

(** X7: without a channel id [getPatientVitals] raises "Channel ID is
    required" and sends nothing; with one it sends exactly one request,
    for the latest record with the default key; what [fetchLatestData]
    hands over always has a first record, so the mapping never yields
    [null] and the error "Failed to map ThingSpeak data to vitals" is not
    raised by line 302; and when the provider answers with a body whose
    [feeds] is a non-empty array of records, whatever else the body and
    the records hold, the result is the snapshot of those records. *)
Theorem getPatientVitals_snapshot channelId p :
  (no_channel channelId = true ->
   getPatientVitals Date_parse channelId p = (Throw (Error "Channel ID is required"), p))
  /\ (no_channel channelId = false ->
      requests (snd (getPatientVitals Date_parse channelId p))
      = (requests p ++ [latest_url channelId])%list
      /\ (forall data p1,
            fetchLatestData channelId DEFAULT_READ_API_KEY 1 p = (Ret data, p1) ->
            fst (mapThingSpeakToPatientVitals_data Date_parse data channelId (world_of p1))
            <> Ret None)
      /\ (forall data first rest vitals w,
            delivers p (latest_url channelId) data ->
            as_payload data = Ret (PFeeds (first :: rest)) ->
            mapThingSpeakToPatientVitals Date_parse (first :: rest) channelId (world_of p)
              = (Ret (Some vitals), w) ->
            fst (getPatientVitals Date_parse channelId p) = Ret vitals
            /\ world_of (snd (getPatientVitals Date_parse channelId p)) = w)).
Proof.
  split.
  { intros Hc. unfold getPatientVitals. now rewrite Hc. }
  intros Hc. split; [|split].
  - unfold getPatientVitals. rewrite Hc.
    destruct (fetchLatestData_requests channelId DEFAULT_READ_API_KEY 1 p Hc) as (Hr & _).
    fold (latest_url channelId) in Hr.
    destruct (fetchLatestData _ _ _ p) as [[data|e|] p1]; cbn [snd] in *; try exact Hr.
    destruct (mapThingSpeakToPatientVitals_data _ _ _ _) as [[[v|]|e|] w]; exact Hr.
  - intros data p1 Hf. destruct (fetchLatestData_ret _ _ _ _ _ _ Hf) as (first & rest & Hv).
    destruct (as_payload_truthy _ _ Hv ltac:(discriminate)) as [Hu Hn].
    assert (Hd : mapThingSpeakToPatientVitals_data Date_parse data channelId (world_of p1)
                 = mapThingSpeakToPatientVitals Date_parse (first :: rest) channelId
                     (world_of p1)).
    { unfold mapThingSpeakToPatientVitals_data. rewrite Hv. destruct data; congruence. }
    rewrite Hd.
    destruct (mapThingSpeakToPatientVitals Date_parse (first :: rest) channelId (world_of p1))
      as [r w] eqn:E.
    cbn [fst]. intros ->. now apply snapshot_not_null in E.
  - intros data first rest vitals w (r & Hresp & Hok & Hjson) Hv Hmap.
    destruct (as_payload_truthy _ _ Hv ltac:(discriminate)) as [Hu Hn].
    unfold getPatientVitals, fetchLatestData, fetch. rewrite Hc.
    fold (latest_url channelId). rewrite Hresp, Hok, Hjson, Hv.
    cbn [negb has_no_feeds world_of].
    unfold mapThingSpeakToPatientVitals_data. rewrite Hv.
    destruct data; try congruence; rewrite Hmap; split; reflexivity.
Qed.

Lemma convert_data_some data g csv g' :
  convertThingSpeakDataToCSV_data Date_parse data g = (Ret (Some csv), g') ->
  exists first rest,
    as_payload data = Ret (PFeeds (first :: rest))
    /\ convertThingSpeakDataToCSV Date_parse (first :: rest) g = (Ret (Some csv), g').
Proof.
  unfold convertThingSpeakDataToCSV_data.
  destruct (as_payload data) as [[| |[|first rest]]|e|]; try discriminate. eauto.
Qed.

(** X8: [downloadThingSpeakDataAsCSV] hands the browser a file only when
    it returns [true], and then exactly one: it has the given name and
    its content is the CSV of the records the provider sent; on every
    other outcome nothing is downloaded; [localStorage] is never
    changed. *)
Theorem downloadThingSpeakDataAsCSV_file channelId filename days p :
  (forall b p', downloadThingSpeakDataAsCSV Date_parse days_before channelId filename days p
                = (Ret b, p') ->
     b = true
     /\ exists start data first rest csv g',
          toISOString (days_before (now p) days) = Ret start
          /\ delivers p (download_url channelId start) data
          /\ as_payload data = Ret (PFeeds (first :: rest))
          /\ convertThingSpeakDataToCSV Date_parse (first :: rest) (random (world_of p))
            = (Ret (Some csv), g')
          /\ downloads p' =
               (downloads p ++ [{| download_name := FileName filename; blob := [PartText csv] |}])%list)
  /\ ((forall b, fst (downloadThingSpeakDataAsCSV Date_parse days_before channelId filename
                        days p) <> Ret b) ->
      downloads (snd (downloadThingSpeakDataAsCSV Date_parse days_before channelId filename
                        days p)) = downloads p)
  /\ localStorage (world_of (snd (downloadThingSpeakDataAsCSV Date_parse days_before channelId
                                    filename days p)))
     = localStorage (world_of p).
Proof.
  unfold downloadThingSpeakDataAsCSV, fetch.
  destruct (no_channel channelId); [repeat split; try discriminate; reflexivity|].
  destruct (toISOString _) as [start|e|]; [|repeat split; try discriminate; reflexivity..].
  fold (download_url channelId start).
  destruct (respond p _ _) as [r|e|] eqn:Hr; [|repeat split; try discriminate; reflexivity..].
  destruct (Response.ok r) eqn:Hok; cbn [negb];
    [|repeat split; try discriminate; reflexivity].
  destruct (Response.json r) as [data|e|] eqn:Hj;
    [|repeat split; try discriminate; reflexivity..].
  cbn [world_of].
  destruct (convertThingSpeakDataToCSV_data Date_parse data (random (world_of p)))
    as [[[csv|]|e|] g] eqn:E; [|repeat split; try discriminate; reflexivity..].
  destruct (convert_data_some _ _ _ _ E) as (first & rest & Hv & Hc).
  split; [|split].
  - intros b p' [= <- <-]. split; [reflexivity|].
    exists start, data, first, rest, csv, g. split; [reflexivity|].
    split; [exists r; auto|]. repeat split; assumption || reflexivity.
  - intros H. exfalso. apply (H true). reflexivity.
  - reflexivity.
Qed.

End ClientClaims.

Lemma getPatientVitals_snapshot_witness :
  (exists p', getPatientVitals example_Date_parse "" (serving [rounded_record])
              = (Throw (Error "Channel ID is required"), p'))
  /\ requests (snd (getPatientVitals example_Date_parse "2001" (serving [rounded_record])))
     = [latest_url "2001"]
  /\ exists snap w,
       mapThingSpeakToPatientVitals example_Date_parse [rounded_record] "2001" empty_world
         = (Ret (Some snap), w)
       /\ fst (getPatientVitals example_Date_parse "2001"
                 (answering (channel_body [rounded_record]))) = Ret snap
       /\ world_of (snd (getPatientVitals example_Date_parse "2001"
                           (answering (channel_body [rounded_record])))) = w.
Proof.
  split; [|split].
  - eexists. apply (proj1 (getPatientVitals_snapshot example_Date_parse "" _)). reflexivity.
  - apply (proj2 (getPatientVitals_snapshot example_Date_parse "2001" (serving [rounded_record]))).
    reflexivity.
  - destruct (mapThingSpeakToPatientVitals example_Date_parse [rounded_record] "2001"
                empty_world) as [[[snap|]|?|] w] eqn:E;
      try (vm_compute in E; discriminate E).
    exists snap, w. split; [reflexivity|].
    apply (proj2 (proj2 (proj2 (getPatientVitals_snapshot example_Date_parse "2001"
                                  (answering (channel_body [rounded_record])))
                               ltac:(vm_compute; reflexivity)))
             (channel_body [rounded_record]) rounded_record [] snap w).
    + eexists. split; [reflexivity|]. split; reflexivity.
    + vm_compute. reflexivity.
    + exact E.
Defined.

Lemma downloadThingSpeakDataAsCSV_file_witness :
  exists p' csv,
    downloadThingSpeakDataAsCSV example_Date_parse a_week_before "2001" [Lit "vitals.csv"] 7
      (serving [unparsed_record]) = (Ret true, p')
    /\ downloads p' = [{| download_name := FileName [Lit "vitals.csv"]; blob := [PartText csv] |}].
Proof.
  destruct (downloadThingSpeakDataAsCSV example_Date_parse a_week_before "2001"
              [Lit "vitals.csv"] 7 (serving [unparsed_record])) as [[[]|?|] p'] eqn:E;
    try (vm_compute in E; discriminate E).
  destruct (proj1 (downloadThingSpeakDataAsCSV_file example_Date_parse a_week_before "2001"
                     [Lit "vitals.csv"] 7 (serving [unparsed_record])) true p' E)
    as (_ & start & data & first & rest & csv & g' & _ & _ & _ & _ & Hd).
  exists p', csv. split; [reflexivity|exact Hd].
Defined.

(** ** The patient page: charts and alert *)

Lemma map_index_combine {A C : Type} (h : option A -> C) (ts : list float) :
  forall (vs pre : list A),
    length ts = length vs ->
    PatientDetail.map_index (fun time index => (time, h (nth_error (pre ++ vs) index)))
      ts (length pre)
    = combine ts (map (fun v => h (Some v)) vs).
Proof.
  induction ts as [|t ts IH]; intros vs pre Hlen; [reflexivity|].
  destruct vs as [|v vs]; [discriminate|]. simpl.
  rewrite nth_error_app2, Nat.sub_diag by lia. simpl. f_equal.
  specialize (IH vs (pre ++ [v])%list ltac:(simpl in Hlen; lia)).
  rewrite <- app_assoc, length_app, Nat.add_comm in IH. exact IH.
Qed.

Lemma map_index_aligned {A C : Type} (h : option A -> C) (ts : list float) (vs : list A) :
  length ts = length vs ->
  PatientDetail.map_index (fun time index => (time, h (nth_error vs index))) ts 0
  = combine ts (map (fun v => h (Some v)) vs).
Proof. intros Hlen. exact (map_index_combine h ts vs [] Hlen). Qed.

Lemma filter_map_swap {A B : Type} (p : B -> bool) (f : A -> B) (l : list A) :
  filter p (map f l) = map f (filter (fun a => p (f a)) l).
Proof.
  induction l as [|a l IH]; simpl; [reflexivity|].
  destruct (p (f a)); simpl; now rewrite IH.
Qed.

Lemma combine_map_map {A B C : Type} (f : A -> B) (g : A -> C) (l : list A) :
  combine (map f l) (map g l) = map (fun a => (f a, g a)) l.
Proof. induction l as [|a l IH]; simpl; [reflexivity|now rewrite IH]. Qed.

Lemma chart_of_records (tf vf : FeedRecord -> float) (fs : list FeedRecord) :
  PatientDetail.prepareHistoricalChartData (map tf fs) (map (fun f => number_or_null (vf f)) fs)
  = {| PatientDetail.labels := map tf (filter (fun f => negb (Js.isNaN (vf f))) fs);
       PatientDetail.data :=
         map (fun f => Some (Some (vf f))) (filter (fun f => negb (Js.isNaN (vf f))) fs) |}.
Proof.
  unfold PatientDetail.prepareHistoricalChartData.
  rewrite (map_index_aligned (fun o : option (option float) => o))
    by now rewrite !length_map.
  rewrite map_map, combine_map_map, filter_map_swap. cbn [snd].
  assert (Hp : forall f, PatientDetail.valid_value (Some (number_or_null (vf f)))
                         = negb (Js.isNaN (vf f))).
  { intros f. unfold number_or_null. destruct (Js.isNaN (vf f)) eqn:E; simpl; [reflexivity|].
    now rewrite E. }
  rewrite (filter_ext _ _ Hp). rewrite !map_map. cbn [fst snd]. f_equal.
  apply map_ext_in. intros f Hin. apply filter_In in Hin. destruct Hin as [_ Hn].
  unfold number_or_null. apply negb_true_iff in Hn. now rewrite Hn.
Qed.

Section PageClaims.
Variable Date_parse : string -> float.

Lemma fetchHistoricalData_series feeds g h g' :
  fetchHistoricalData Date_parse feeds g = (Ret h, g') ->
  let recent := slice_last 10 feeds in
  Series.timestamps (formatted h) = map (fun feed => Date_new Date_parse (created_at feed)) recent
  /\ Series.temperature (formatted h)
     = map (fun feed => number_or_null (parseFloat (field1 feed))) recent
  /\ Series.heartRate (formatted h)
     = map (fun feed => number_or_null (parseFloat (field3 feed))) recent
  /\ Series.spo2 (formatted h)
     = map (fun feed => number_or_null (parseFloat (field4 feed))) recent
  /\ length (Series.bp (formatted h)) = length recent.
Proof.
  unfold fetchHistoricalData. destruct feeds as [|first rest]; [discriminate|].
  destruct (map_bp _ g) as [[bs|e|] g1] eqn:Em; try discriminate.
  intros [= <- _]. cbn. repeat split.
  symmetry. exact (Forall2_length (map_bp_ret _ _ _ _ Em)).
Qed.

(** X9: the heart-rate, temperature and SpO2 charts drawn from a
    historical series have one point for each of the last ten records
    whose field parses to a number, in the order of the records: the
    label is the record's date and the value is the parsed number;
    records whose field does not parse are left out. *)
Theorem history_charts feeds g h g' :
  fetchHistoricalData Date_parse feeds g = (Ret h, g') ->
  let chart_of field :=
    let parsed feed := negb (Js.isNaN (parseFloat (field feed))) in
    {| PatientDetail.labels :=
         map (fun feed => Date_new Date_parse (created_at feed))
           (filter parsed (slice_last 10 feeds));
       PatientDetail.data :=
         map (fun feed => Some (Some (parseFloat (field feed))))
           (filter parsed (slice_last 10 feeds)) |} in
  PatientDetail.prepareHistoricalChartData (Series.timestamps (formatted h))
    (Series.heartRate (formatted h)) = chart_of field3
  /\ PatientDetail.prepareHistoricalChartData (Series.timestamps (formatted h))
       (Series.temperature (formatted h)) = chart_of field1
  /\ PatientDetail.prepareHistoricalChartData (Series.timestamps (formatted h))
       (Series.spo2 (formatted h)) = chart_of field4.
Proof.
  intros H. destruct (fetchHistoricalData_series _ _ _ _ H) as (Ht & Htemp & Hhr & Hs & _).
  cbv zeta. rewrite Ht, Htemp, Hhr, Hs.
  repeat split;
    [ exact (chart_of_records _ (fun feed => parseFloat (field3 feed)) _)
    | exact (chart_of_records _ (fun feed => parseFloat (field1 feed)) _)
    | exact (chart_of_records _ (fun feed => parseFloat (field4 feed)) _) ].
Qed.

(** X10: the blood-pressure chart drawn from a historical series has one
    point for each entry whose systolic and diastolic values are both
    Numbers other than [NaN], in the order of the records; entries that
    are [null] (the record's ECG samples did not parse) or [NaN] are left
    out together with their dates, so no value of the chart is [null] or
    [NaN]. *)
Theorem bp_chart_points feeds g h g' :
  fetchHistoricalData Date_parse feeds g = (Ret h, g') ->
  let points :=
    filter (fun p => numeric_entry (snd p))
      (combine (Series.timestamps (formatted h)) (Series.bp (formatted h))) in
  let c := PatientDetail.prepareBPChartData (Series.timestamps (formatted h))
             (Series.bp (formatted h)) in
  PatientDetail.bp_labels c = map fst points
  /\ PatientDetail.systolic_data c = map (fun p => Some (entry_systolic (snd p))) points
  /\ PatientDetail.diastolic_data c = map (fun p => Some (entry_diastolic (snd p))) points
  /\ Forall plotted (PatientDetail.systolic_data c)
  /\ Forall plotted (PatientDetail.diastolic_data c).
Proof.
  intros H. destruct (fetchHistoricalData_series _ _ _ _ H) as (Ht & _ & _ & _ & Hb).
  cbv zeta.
  assert (Hlen : length (Series.timestamps (formatted h)) = length (Series.bp (formatted h)))
    by (rewrite Hb, Ht; now rewrite length_map).
  clear Ht Hb.
  generalize dependent (Series.bp (formatted h)).
  generalize (Series.timestamps (formatted h)). intros ts bs Hlen.
  unfold PatientDetail.prepareBPChartData.
  rewrite (map_index_aligned
             (fun o : option bp_entry =>
                (option_map entry_systolic o, option_map entry_diastolic o))
             ts bs Hlen).
  cbn [PatientDetail.bp_labels PatientDetail.systolic_data PatientDetail.diastolic_data].
  cbn [option_map].
  assert (Hc : combine ts (map (fun v => (Some (entry_systolic v), Some (entry_diastolic v))) bs)
               = map (fun p => (fst p, (Some (entry_systolic (snd p)),
                                        Some (entry_diastolic (snd p)))))
                   (combine ts bs)).
  { clear. revert bs. induction ts as [|t ts IH]; intros [|b bs]; simpl; try reflexivity.
    now rewrite IH. }
  rewrite Hc, filter_map_swap. cbn [fst snd]. fold numeric_entry.
  assert (Hf : filter (fun a => PatientDetail.valid_value (Some (entry_systolic (snd a)))
                                && PatientDetail.valid_value (Some (entry_diastolic (snd a))))
                 (combine ts bs)
               = filter (fun p => numeric_entry (snd p)) (combine ts bs)) by reflexivity.
  rewrite Hf, !map_map. cbn [fst snd].
  repeat split; try reflexivity.
  - apply Forall_map, Forall_forall. intros p Hin. apply filter_In in Hin.
    destruct Hin as [_ Hn]. unfold numeric_entry in Hn. apply andb_true_iff in Hn.
    destruct Hn as [Hn _]. unfold plotted. destruct (entry_systolic (snd p)) as [x|];
      [|discriminate]. exists x. split; [reflexivity|].
    simpl in Hn. now apply negb_true_iff in Hn.
  - apply Forall_map, Forall_forall. intros p Hin. apply filter_In in Hin.
    destruct Hin as [_ Hn]. unfold numeric_entry in Hn. apply andb_true_iff in Hn.
    destruct Hn as [_ Hn]. unfold plotted. destruct (entry_diastolic (snd p)) as [x|];
      [|discriminate]. exists x. split; [reflexivity|].
    simpl in Hn. now apply negb_true_iff in Hn.
Qed.

(** X11: with no level set by hand, the page shows the alert text
    "Normal" exactly when field2 of the first record parses to 0 or does
    not parse, and renders the alert banner exactly when it parses to a
    number above 0; so for a field2 that does not parse the page shows
    "Normal" while the snapshot's own [status.alert] is "High Risk"; a
    level set by hand always replaces the level of the snapshot. *)
Theorem alert_display latestEntry rest channelId w snap w' :
  mapThingSpeakToPatientVitals Date_parse (latestEntry :: rest) channelId w
    = (Ret (Some snap), w') ->
  let level := parseInt (field2 latestEntry) in
  let shown := PatientDetail.effectiveAlertLevel None snap in
  (PatientDetail.alertStatusText shown = "Normal"%string
   <-> Js.isNaN level = true \/ (level =? 0) = true)
  /\ PatientDetail.banner_shown shown = Js.gtb level 0
  /\ (Js.isNaN level = true ->
      PatientDetail.alertStatusText shown = "Normal"%string
      /\ Status.alert (status snap) = "High Risk"%string)
  /\ (forall manual, PatientDetail.effectiveAlertLevel (Some manual) snap = manual).
Proof.
  intros H. apply snapshot_inversion in H. cbv zeta in H.
  destruct H as (_ & Ha & _ & _ & _ & _ & _ & _ & Hal).
  cbv zeta. unfold PatientDetail.effectiveAlertLevel, PatientDetail.alertStatusText,
    PatientDetail.banner_shown, Js.strict_eq, Js.gtb, Js.isNaN in *.
  rewrite Ha, Hal.
  destruct (is_nan (parseInt (field2 latestEntry))) eqn:Hn.
  - rewrite (ltb_nan_r _ _ Hn), !(eqb_nan_l _ _ Hn).
    change (0 =? 0) with true. change (0 <? 0) with false. cbv iota.
    repeat split; auto.
  - split; [|split; [reflexivity|split; [discriminate|reflexivity]]].
    destruct (parseInt (field2 latestEntry) =? 0); [split; auto|].
    split; [|intros [?|?]; discriminate].
    destruct (parseInt (field2 latestEntry) =? 1); discriminate.
Qed.

End PageClaims.

Lemma history_charts_witness :
  exists h g',
    fetchHistoricalData example_Date_parse batch steady_draws = (Ret h, g')
    /\ PatientDetail.data
         (PatientDetail.prepareHistoricalChartData (Series.timestamps (formatted h))
            (Series.heartRate (formatted h)))
       = [Some (Some 72.6); Some (Some 75); Some (Some 70)].
Proof.
  destruct (fetchHistoricalData example_Date_parse batch steady_draws) as [[h|?|] g'] eqn:E;
    try (vm_compute in E; discriminate E).
  exists h, g'. split; [reflexivity|].
  rewrite (proj1 (history_charts example_Date_parse batch steady_draws h g' E)).
  vm_compute. reflexivity.
Defined.

Lemma bp_chart_points_witness :
  exists h g',
    fetchHistoricalData example_Date_parse batch steady_draws = (Ret h, g')
    /\ PatientDetail.systolic_data
         (PatientDetail.prepareBPChartData (Series.timestamps (formatted h))
            (Series.bp (formatted h)))
       = [Some (Some 120); Some (Some 120)].
Proof.
  destruct (fetchHistoricalData example_Date_parse batch steady_draws) as [[h|?|] g'] eqn:E;
    try (vm_compute in E; discriminate E).
  exists h, g'. split; [reflexivity|].
  destruct (bp_chart_points example_Date_parse batch steady_draws h g' E) as (_ & -> & _).
  vm_compute in E. injection E as <- _. vm_compute. reflexivity.
Defined.

Lemma alert_display_witness :
  exists snap w',
    mapThingSpeakToPatientVitals example_Date_parse [unparsed_record] "42" empty_world
      = (Ret (Some snap), w')
    /\ PatientDetail.alertStatusText (PatientDetail.effectiveAlertLevel None snap)
       = "Normal"%string
    /\ Status.alert (status snap) = "High Risk"%string.
Proof.
  destruct (mapThingSpeakToPatientVitals example_Date_parse [unparsed_record] "42" empty_world)
    as [[[snap|]|?|] w'] eqn:E; try (vm_compute in E; discriminate E).
  exists snap, w'. split; [reflexivity|].
  destruct (alert_display example_Date_parse unparsed_record [] "42" empty_world snap w' E)
    as (_ & _ & H & _).
  apply H. vm_compute. reflexivity.
Defined.

(** ** The logging controller *)

Section Frames.
Variable R : Logger.state -> Logger.state -> Prop.
Hypothesis R_refl : forall s, R s s.
Hypothesis R_trans : forall s1 s2 s3, R s1 s2 -> R s2 s3 -> R s1 s3.

Lemma keeps_ret {A} (a : A) : keeps R (Logger.ret a).
Proof. intros s. apply R_refl. Qed.

Lemma keeps_lift {A} (o : outcome A) : keeps R (Logger.lift o).
Proof. intros s. apply R_refl. Qed.

Lemma keeps_read {A} (f : Logger.state -> A) : keeps R (fun s => (Ret (f s), s)).
Proof. intros s. apply R_refl. Qed.

Lemma keeps_getItem k : keeps R (Logger.localStorage_getItem k).
Proof. intros s. apply R_refl. Qed.

Lemma keeps_bind {A B} (m : Logger.M A) (k : A -> Logger.M B) :
  keeps R m -> (forall a, keeps R (k a)) -> keeps R (Logger.bind m k).
Proof.
  intros Hm Hk s. unfold Logger.bind. specialize (Hm s).
  destruct (m s) as [[a|e|] s1]; cbn [snd] in *; try exact Hm.
  eapply R_trans; [exact Hm|apply Hk].
Qed.

Lemma keeps_try_catch {A} (body handler : Logger.M A) :
  keeps R body -> keeps R handler -> keeps R (Logger.try_catch body handler).
Proof.
  intros Hb Hh s. unfold Logger.try_catch. specialize (Hb s).
  destruct (body s) as [[a|e|] s1]; cbn [snd] in *; try exact Hb.
  eapply R_trans; [exact Hb|apply Hh].
Qed.

End Frames.

Lemma same_timers_refl s : same_timers s s.
Proof. repeat split. Qed.

Lemma same_timers_trans s1 s2 s3 : same_timers s1 s2 -> same_timers s2 s3 -> same_timers s1 s3.
Proof. unfold same_timers. intuition congruence. Qed.

Lemma same_requests_trans s1 s2 s3 :
  same_requests s1 s2 -> same_requests s2 s3 -> same_requests s1 s3.
Proof. unfold same_requests. congruence. Qed.

Lemma same_downloads_trans s1 s2 s3 :
  same_downloads s1 s2 -> same_downloads s2 s3 -> same_downloads s1 s3.
Proof. unfold same_downloads. congruence. Qed.

Lemma same_storage_trans s1 s2 s3 :
  same_storage s1 s2 -> same_storage s2 s3 -> same_storage s1 s3.
Proof. unfold same_storage. intuition congruence. Qed.

(** The steps of the controller and what each leaves alone. *)
Lemma update_store_frame f :
  keeps same_timers (Logger.update_store f) /\ keeps same_requests (Logger.update_store f)
  /\ keeps same_downloads (Logger.update_store f).
Proof. repeat apply conj; intros s; repeat split. Qed.

Lemma set_lastTimestamp_frame v :
  keeps same_timers (Logger.set_lastTimestamp v) /\ keeps same_requests (Logger.set_lastTimestamp v)
  /\ keeps same_downloads (Logger.set_lastTimestamp v).
Proof. repeat apply conj; intros s; repeat split. Qed.

Lemma download_file_frame name parts :
  keeps same_timers (Logger.download_file name parts)
  /\ keeps same_requests (Logger.download_file name parts)
  /\ keeps same_storage (Logger.download_file name parts).
Proof. repeat apply conj; intros s; repeat split; now destruct s. Qed.

Lemma convertToCSV_frame Date_parse data :
  keeps same_timers (Logger.convertToCSV Date_parse data)
  /\ keeps same_requests (Logger.convertToCSV Date_parse data)
  /\ keeps same_downloads (Logger.convertToCSV Date_parse data)
  /\ keeps same_storage (Logger.convertToCSV Date_parse data).
Proof.
  repeat apply conj; intros s; unfold Logger.convertToCSV;
    destruct (convertThingSpeakDataToCSV_data _ _ _) as [r g]; repeat split; now destruct s.
Qed.

Lemma fetchDataSinceLastUpdate_frame channelId lastTimestamp apiKey :
  keeps same_timers
    (Logger.on_page (fetchDataSinceLastUpdate channelId lastTimestamp apiKey))
  /\ keeps same_downloads
       (Logger.on_page (fetchDataSinceLastUpdate channelId lastTimestamp apiKey))
  /\ keeps same_storage
       (Logger.on_page (fetchDataSinceLastUpdate channelId lastTimestamp apiKey)).
Proof.
  repeat apply conj; intros s; unfold Logger.on_page, fetchDataSinceLastUpdate, fetch;
    (destruct (no_channel channelId); [repeat split; now destruct s|]);
    (destruct (respond (snd s) _ _) as [r|e|]; [|repeat split; now destruct s..]);
    destruct (negb (Response.ok r)); repeat split; now destruct s.
Qed.

Ltac keeps_step :=
  first
    [ apply keeps_ret | apply keeps_lift | apply keeps_getItem | apply keeps_read
    | apply update_store_frame | apply set_lastTimestamp_frame | apply download_file_frame
    | apply convertToCSV_frame | apply fetchDataSinceLastUpdate_frame
    | apply keeps_try_catch | apply keeps_bind; [| |intros ?]
    | match goal with
      | |- keeps _ (match ?x with _ => _ end) => destruct x
      end ].

Ltac keeps :=
  repeat first
    [ exact same_timers_refl | exact same_timers_trans | exact same_requests_trans
    | exact same_downloads_trans | exact same_storage_trans
    | (intros ?; reflexivity)
    | (intros ?; split; reflexivity)
    | keeps_step ].

Section LoggerClaims.
Variable Date_parse : string -> float.
Variable channelId : string.
Variable intervalMinutes : float.

Lemma keeps_initFromStorage : keeps same_timers (Logger.initFromStorage Date_parse channelId).
Proof. unfold Logger.initFromStorage, Logger.localStorage_removeItem. keeps. Qed.

Lemma keeps_fetchAndStore : keeps same_timers (Logger.fetchAndStore Date_parse channelId).
Proof.
  unfold Logger.fetchAndStore, Logger.localStorage_setItem. keeps.
Qed.

Lemma keeps_exportToCSV filename :
  keeps same_timers (Logger.exportToCSV Date_parse channelId filename).
Proof. unfold Logger.exportToCSV. keeps. Qed.

Lemma keeps_getStoredData : keeps same_timers (Logger.getStoredData channelId).
Proof. unfold Logger.getStoredData. keeps. Qed.

Lemma keeps_clearStoredData : keeps same_timers (Logger.clearStoredData channelId).
Proof.
  unfold Logger.clearStoredData, Logger.localStorage_removeItem. keeps.
Qed.

Lemma timers_consistent_same period s s' :
  same_timers s s' -> timers_consistent period s -> timers_consistent period s'.
Proof.
  unfold same_timers, timers_consistent. intros (Hi & _ & Hid & Hl). rewrite Hl, Hid, Hi. auto.
Qed.

Lemma perform_consistent c s :
  timers_consistent (intervalMinutes * 60 * 1000) s ->
  timers_consistent (intervalMinutes * 60 * 1000) (perform Date_parse channelId intervalMinutes c s).
Proof.
  intros Hs. destruct c; cbn [perform].
  - (* start *)
    unfold Logger.start. destruct (Logger.isLogging (fst s)) eqn:Hl; [exact Hs|].
    unfold timers_consistent in Hs. rewrite Hl in Hs. destruct Hs as [Hid Hint].
    unfold Logger.bind at 1.
    pose proof (keeps_initFromStorage s) as H1.
    destruct (Logger.initFromStorage Date_parse channelId s) as [[[]|e|] s1]; cbn [snd] in *;
      try (eapply timers_consistent_same; [exact H1|];
           unfold timers_consistent; rewrite Hl; auto).
    unfold Logger.bind at 1.
    pose proof (keeps_fetchAndStore s1) as H2.
    pose proof (same_timers_trans _ _ _ H1 H2) as H12.
    destruct (Logger.fetchAndStore Date_parse channelId s1) as [[[]|e|] s2]; cbn [snd] in *;
      try (eapply timers_consistent_same; [exact H12|];
           unfold timers_consistent; rewrite Hl; auto).
    destruct H12 as (Hi2 & _ & _ & _).
    unfold Logger.bind, Logger.setInterval. cbn. unfold timers_consistent. cbn.
    exists (next_interval (snd s2)). rewrite Hi2, Hint. auto.
  - (* stop *)
    unfold Logger.stop. destruct (Logger.isLogging (fst s)) eqn:Hl; [|exact Hs].
    unfold timers_consistent in Hs. rewrite Hl in Hs. destruct Hs as (id & Hid & Hint).
    cbn. unfold timers_consistent. cbn. rewrite Hid, Hint. cbn.
    rewrite Nat.eqb_refl. auto.
  - destruct (intervals (snd s)); [exact Hs|].
    eapply timers_consistent_same; [apply keeps_fetchAndStore|exact Hs].
  - eapply timers_consistent_same; [apply keeps_exportToCSV|exact Hs].
  - eapply timers_consistent_same; [apply keeps_getStoredData|exact Hs].
  - eapply timers_consistent_same; [apply keeps_clearStoredData|exact Hs].
Qed.

(** X12: on a page without timers, whatever calls are made on the
    controller and whenever its timer fires, the controller owns exactly
    one interval timer (of [intervalMinutes] minutes) while [isLogging] is
    true and none while it is false: [start] while logging sets no second
    timer and [stop] leaves none behind. *)
Theorem logger_single_timer calls p :
  intervals p = [] ->
  timers_consistent (intervalMinutes * 60 * 1000)
    (run Date_parse channelId intervalMinutes calls (Logger.initial, p)).
Proof.
  intros Hp.
  assert (H0 : timers_consistent (intervalMinutes * 60 * 1000) (Logger.initial, p)).
  { unfold timers_consistent. cbn. auto. }
  unfold run. generalize dependent (Logger.initial, p). clear Hp.
  induction calls as [|c calls IH]; intros s Hs; [exact Hs|].
  cbn [fold_left]. apply IH. now apply perform_consistent.
Qed.

End LoggerClaims.

Lemma logger_single_timer_witness :
  timers_consistent (5 * 60 * 1000)
    (run example_Date_parse "2001" 5 [Start; Start; Tick; Stop; Stop; Start]
       (Logger.initial, serving [rounded_record])).
Proof.
  apply (logger_single_timer example_Date_parse "2001" 5). reflexivity.
Defined.

(** ** What a fetch of the logger stores *)

Ltac logger_run :=
  cbv beta iota zeta delta
    [Logger.bind Logger.lift Logger.ret Logger.try_catch Logger.set_lastTimestamp
     Logger.localStorage_getItem Logger.localStorage_setItem Logger.localStorage_removeItem
     Logger.update_store Logger.download_file Logger.feeds_present with_world fst snd];
  cbn [world_of localStorage random requests downloads now intervals next_interval respond
       Logger.lastTimestamp Logger.intervalId Logger.isLogging].


Section LoggerStore.
Variable Date_parse : string -> float.
Variable channelId : string.

Lemma fetch_delivers l p data :
  no_channel channelId = false ->
  delivers p (update_url channelId (Logger.lastTimestamp l)) data ->
  Logger.on_page (fetchDataSinceLastUpdate channelId (Logger.lastTimestamp l)
                    DEFAULT_READ_API_KEY) (l, p)
  = (Ret data,
     (l, {| world_of := world_of p; respond := respond p;
            requests := (requests p ++ [update_url channelId (Logger.lastTimestamp l)])%list;
            downloads := downloads p; now := now p;
            intervals := intervals p; next_interval := next_interval p |})).
Proof.
  intros Hc (r & Hr & Hok & Hj).
  unfold Logger.on_page, fetchDataSinceLastUpdate, fetch. cbn [fst snd]. rewrite Hc.
  fold (update_url channelId (Logger.lastTimestamp l)). rewrite Hr, Hok. cbn [negb].
  now rewrite Hj.
Qed.

Lemma feeds_array data elems :
  get_property data "feeds" = Ret (VArr elems) -> truthy data = true.
Proof. destruct data; simpl; try discriminate; reflexivity. Qed.

(** X13: when the provider delivers a body whose [feeds] is a non-empty
    array ending in a record with a valid date, a fetch of the logger
    sends exactly one request (with [&start=] and the previous timestamp
    when there is one), sets [lastTimestamp] to the date of the last
    delivered record and downloads nothing as long as at most 1000
    records are held: with no stored entry it stores the delivered body as
    it is; with a stored entry whose [feeds] is an array it stores the
    delivered body with [feeds] replaced by the stored records followed by
    the delivered ones. *)
Theorem fetchAndStore_appends l p data new t :
  no_channel channelId = false ->
  delivers p (update_url channelId (Logger.lastTimestamp l)) data ->
  get_property data "feeds" = Ret (VArr new) ->
  new <> [] ->
  Logger.latest_timestamp Date_parse (VArr new) = Ret t ->
  (getItem (localStorage (world_of p)) (Logger.storageKey channelId) = None ->
   (length new <= 1000)%nat ->
   Logger.fetchAndStore Date_parse channelId (l, p)
   = (Ret tt,
      (with_lastTimestamp l (Some t),
       after_store p (update_url channelId (Logger.lastTimestamp l))
         (Logger.storageKey channelId) data)))
  /\ (forall parsed old,
        holds p (Logger.storageKey channelId) parsed ->
        get_property parsed "feeds" = Ret (VArr old) ->
        (length old + length new <= 1000)%nat ->
        Logger.fetchAndStore Date_parse channelId (l, p)
        = (Ret tt,
           (with_lastTimestamp l (Some t),
            after_store p (update_url channelId (Logger.lastTimestamp l))
              (Logger.storageKey channelId) (Logger.with_feeds data (VArr (old ++ new)))))).
Proof.
  intros Hc Hd Hfeeds Hne Ht.
  pose proof (fetch_delivers l p data Hc Hd) as Hfetch.
  assert (Hpos : (0 <? length new)%nat = true) by (destruct new; [congruence|reflexivity]).
  split.
  - intros Hget Hlen.
    assert (Hsmall : (1000 <? length new)%nat = false) by (now apply Nat.ltb_ge).
    unfold Logger.fetchAndStore.
    logger_run. rewrite Hfetch.
    logger_run. rewrite (feeds_array _ _ Hfeeds), Hfeeds.
    logger_run. cbn [truthy length_above]. rewrite Hpos.
    logger_run. rewrite Ht.
    logger_run. rewrite Hget.
    logger_run. rewrite Hfeeds.
    logger_run. cbn [length_above]. rewrite Hsmall.
    reflexivity.
  - intros parsed old (s & Hget & Htruthy & Hparse) Hold Hlen.
    assert (Hsmall : (1000 <? length (old ++ new))%nat = false).
    { apply Nat.ltb_ge. rewrite length_app. exact Hlen. }
    unfold Logger.fetchAndStore.
    logger_run. rewrite Hfetch.
    logger_run. rewrite (feeds_array _ _ Hfeeds), Hfeeds.
    logger_run. cbn [truthy length_above]. rewrite Hpos.
    logger_run. rewrite Ht.
    logger_run. rewrite Hget, Htruthy.
    logger_run. rewrite Hparse.
    logger_run. rewrite Hold.
    logger_run. cbn [iterate].
    logger_run. unfold Logger.with_feeds at 1. cbn [get_property]. rewrite obj_get_set.
    logger_run. cbn [length_above]. rewrite Hsmall.
    reflexivity.
Qed.



End LoggerStore.

(** ** Exporting and clearing the log *)

Lemma getItem_removeItem st k : getItem (removeItem st k) k = None.
Proof.
  induction st as [|[k' v] st IH]; [reflexivity|]. unfold removeItem in *. cbn [filter fst].
  destruct (String.eqb k k') eqn:E; cbn [negb]; [exact IH|].
  cbn [getItem]. now rewrite E.
Qed.

Lemma getItem_removeItem_other st k k' :
  k' <> k -> getItem (removeItem st k) k' = getItem st k'.
Proof.
  intros Hk. induction st as [|[k0 v] st IH]; [reflexivity|]. unfold removeItem in *.
  cbn [filter fst]. destruct (String.eqb_spec k k0) as [<-|Hne]; cbn [negb getItem].
  - rewrite IH. destruct (String.eqb_spec k' k); [contradiction|reflexivity].
  - now rewrite IH.
Qed.

Section LoggerExport.
Variable Date_parse : string -> float.
Variable channelId : string.

(** X16: [exportToCSV] never raises and changes neither the storage nor
    the controller's variables; it returns [true] exactly when it has
    handed the browser one file, named as asked (or
    [patient_data_<channel>.csv]) and made of the CSV of the stored
    entry; it returns [false], with nothing downloaded, when there is no
    entry, when the entry is not JSON, and when the conversion raises;
    and when the entry parses but the conversion yields [null] (no
    records), a file is still downloaded, made of [null]. *)
Theorem exportToCSV_outcomes filename s :
  (forall e, fst (Logger.exportToCSV Date_parse channelId filename s) <> Throw e)
  /\ same_storage s (snd (Logger.exportToCSV Date_parse channelId filename s))
  /\ (forall s', Logger.exportToCSV Date_parse channelId filename s = (Ret true, s') ->
        exists parsed csvContent g,
          holds (snd s) (Logger.storageKey channelId) parsed
          /\ convertThingSpeakDataToCSV_data Date_parse parsed (random (world_of (snd s)))
             = (Ret csvContent, g)
          /\ downloads (snd s') =
               (downloads (snd s)
                ++ [{| download_name := export_name channelId filename;
                       blob := Logger.blob_of csvContent |}])%list)
  /\ (forall s', Logger.exportToCSV Date_parse channelId filename s = (Ret false, s') ->
        downloads (snd s') = downloads (snd s))
  /\ (forall parsed g,
        holds (snd s) (Logger.storageKey channelId) parsed ->
        convertThingSpeakDataToCSV_data Date_parse parsed (random (world_of (snd s)))
          = (Ret None, g) ->
        fst (Logger.exportToCSV Date_parse channelId filename s) = Ret true
        /\ downloads (snd (snd (Logger.exportToCSV Date_parse channelId filename s))) =
             (downloads (snd s)
              ++ [{| download_name := export_name channelId filename;
                     blob := [PartNull] |}])%list).
Proof.
  destruct s as [l p]. unfold Logger.exportToCSV, holds, same_storage, export_name.
  logger_run.
  destruct (getItem (localStorage (world_of p)) (Logger.storageKey channelId)) as [stored|] eqn:Hget.
  2:{ refine (conj _ (conj _ (conj _ (conj _ _)))); try discriminate.
      - split; reflexivity.
      - intros s' [= <-]. reflexivity.
      - intros parsed g (s0 & H & _). discriminate. }
  destruct (stored_truthy stored) eqn:Htruthy.
  2:{ refine (conj _ (conj _ (conj _ (conj _ _)))); try discriminate.
      - split; reflexivity.
      - intros s' [= <-]. reflexivity.
      - intros parsed g (s0 & H & Ht & _). congruence. }
  destruct (parse_stored stored) as [parsed|e|] eqn:Hparse; logger_run.
  2:{ refine (conj _ (conj _ (conj _ (conj _ _)))); try discriminate.
      - split; reflexivity.
      - intros s' [= <-]. reflexivity.
      - intros parsed g (s0 & H & _ & Hp). congruence. }
  2:{ refine (conj _ (conj _ (conj _ (conj _ _)))); try discriminate.
      - split; reflexivity.
      - intros parsed g (s0 & H & _ & Hp). congruence. }
  unfold Logger.convertToCSV. logger_run.
  destruct (convertThingSpeakDataToCSV_data Date_parse parsed (random (world_of p)))
    as [[csvContent|e|] g] eqn:Hconv; logger_run;
    refine (conj _ (conj _ (conj _ (conj _ _)))); try discriminate;
    try (split; reflexivity).
  - intros s' [= <-]. exists parsed, csvContent, g. cbn [snd downloads click_download].
    split; [eauto|]. split; [exact Hconv|reflexivity].
  - intros parsed' g' (s0 & H & _ & Hp) Hc.
    assert (parsed' = parsed) as -> by congruence.
    rewrite Hconv in Hc. injection Hc as -> _. split; reflexivity.
  - intros s' [= <-]. reflexivity.
  - intros parsed' g' (s0 & H & _ & Hp) Hc.
    assert (parsed' = parsed) as -> by congruence. congruence.
  - intros parsed' g' (s0 & H & _ & Hp) Hc.
    assert (parsed' = parsed) as -> by congruence. congruence.
Qed.

Lemma fetchAndStore_request s :
  no_channel channelId = false ->
  requests (snd (snd (Logger.fetchAndStore Date_parse channelId s)))
  = (requests (snd s) ++ [update_url channelId (Logger.lastTimestamp (fst s))])%list.
Proof.
  intros Hc. unfold Logger.fetchAndStore, Logger.try_catch.
  unfold Logger.bind at 1. cbn [fst snd].
  unfold Logger.bind at 1.
  assert (Hf : requests (snd (snd (Logger.on_page
                 (fetchDataSinceLastUpdate channelId (Logger.lastTimestamp (fst s))
                    DEFAULT_READ_API_KEY) s)))
               = (requests (snd s) ++ [update_url channelId (Logger.lastTimestamp (fst s))])%list).
  { unfold Logger.on_page, fetchDataSinceLastUpdate, fetch. rewrite Hc.
    fold (update_url channelId (Logger.lastTimestamp (fst s))).
    destruct (respond (snd s) _ _) as [r|e|]; [|reflexivity..].
    destruct (negb (Response.ok r)); reflexivity. }
  destruct (Logger.on_page _ s) as [[data|e|] s1]; cbn [snd] in *; try exact Hf.
  match goal with
  | |- context [Logger.bind ?m ?k s1] =>
      assert (Hk : keeps same_requests (Logger.bind m k))
  end.
  { unfold Logger.localStorage_setItem. keeps. }
  specialize (Hk s1). unfold same_requests in Hk.
  destruct (Logger.bind _ _ s1) as [[[]|e|] s2]; unfold Logger.ret; cbn [snd] in *; congruence.
Qed.

(** X17: [clearStoredData] returns [true], removes the entry of the
    channel and nothing else, and forgets [lastTimestamp]: right after it
    [getStoredData] returns [null], and the next fetch of the logger asks
    the provider for the feed without a [&start=] bound. *)
Theorem clearStoredData_forgets s :
  let s1 := snd (Logger.clearStoredData channelId s) in
  fst (Logger.clearStoredData channelId s) = Ret true
  /\ Logger.getStoredData channelId s1 = (Ret VNull, s1)
  /\ Logger.lastTimestamp (fst s1) = None
  /\ (forall k, k <> Logger.storageKey channelId ->
        getItem (localStorage (world_of (snd s1))) k
        = getItem (localStorage (world_of (snd s))) k)
  /\ (no_channel channelId = false ->
      requests (snd (snd (Logger.fetchAndStore Date_parse channelId s1)))
      = (requests (snd s) ++ [update_url channelId None])%list).
Proof.
  cbv zeta.
  assert (Hlast : no_channel channelId = false ->
                  requests (snd (snd (Logger.fetchAndStore Date_parse channelId
                                        (snd (Logger.clearStoredData channelId s)))))
                  = (requests (snd s) ++ [update_url channelId None])%list).
  { intros Hc. rewrite (fetchAndStore_request _ Hc). destruct s as [l p]. reflexivity. }
  refine (conj _ (conj _ (conj _ (conj _ Hlast)))); clear Hlast; destruct s as [l p];
    unfold Logger.clearStoredData; logger_run.
  - reflexivity.
  - unfold Logger.getStoredData. logger_run. now rewrite getItem_removeItem.
  - reflexivity.
  - intros k Hk. now apply getItem_removeItem_other.
Qed.

End LoggerExport.

(** ** The logger on sample pages *)

Ltac by_computation := vm_compute; reflexivity.

Lemma fetchAndStore_appends_witness :
  exists s' value,
    Logger.fetchAndStore example_Date_parse "2001"
      (Logger.initial, page_with [rounded_record] one_logged) = (Ret tt, s')
    /\ Logger.lastTimestamp (fst s') = Some 1704067200000
    /\ getItem (localStorage (world_of (snd s'))) logged_key = Some (Stringified value)
    /\ as_payload value = Ret (PFeeds [earlier_fix_record; rounded_record]).
Proof.
  assert (Hd : delivers (page_with [rounded_record] one_logged)
                 (update_url "2001" (Logger.lastTimestamp Logger.initial))
                 (body_of [rounded_record])).
  { eexists. split; [reflexivity|]. split; reflexivity. }
  assert (Hh : holds (page_with [rounded_record] one_logged) (Logger.storageKey "2001")
                 (reparse (body_of [earlier_fix_record]))).
  { eexists. split; [by_computation|]. split; by_computation. }
  pose proof (proj2 (fetchAndStore_appends example_Date_parse "2001" Logger.initial
                       (page_with [rounded_record] one_logged) (body_of [rounded_record])
                       [record_value rounded_record] 1704067200000
                       ltac:(by_computation) Hd ltac:(by_computation) ltac:(discriminate)
                       ltac:(by_computation))
                (reparse (body_of [earlier_fix_record]))
                [reparse (record_value earlier_fix_record)]
                Hh ltac:(by_computation) ltac:(vm_compute; lia)) as H.
  rewrite H.
  eexists. eexists. split; [reflexivity|]. split; [reflexivity|].
  split; [by_computation|]. by_computation.
Defined.



Lemma exportToCSV_outcomes_witness :
  fst (Logger.exportToCSV example_Date_parse "2001" None
         (Logger.initial, page_with [] [(logged_key, Stringified (body_of []))])) = Ret true
  /\ downloads (snd (snd (Logger.exportToCSV example_Date_parse "2001" None
                            (Logger.initial,
                             page_with [] [(logged_key, Stringified (body_of []))]))))
     = [{| download_name := FileName [Lit "patient_data_2001.csv"]; blob := [PartNull] |}].
Proof.
  apply (proj2 (proj2 (proj2 (proj2 (exportToCSV_outcomes example_Date_parse "2001" None
           (Logger.initial, page_with [] [(logged_key, Stringified (body_of []))])))))
         (reparse (body_of [])) steady_draws).
  - eexists. split; [by_computation|]. split; by_computation.
  - by_computation.
Defined.

Lemma clearStoredData_forgets_witness :
  requests (snd (snd (Logger.fetchAndStore example_Date_parse "2001"
                        (snd (Logger.clearStoredData "2001"
                                ({| Logger.intervalId := Some 1%nat; Logger.isLogging := true;
                                    Logger.lastTimestamp := Some 1704067200000 |},
                                 page_with [rounded_record] one_logged))))))
  = [update_url "2001" None].
Proof.
  apply (proj2 (proj2 (proj2 (proj2 (clearStoredData_forgets example_Date_parse "2001"
           ({| Logger.intervalId := Some 1%nat; Logger.isLogging := true;
               Logger.lastTimestamp := Some 1704067200000 |},
            page_with [rounded_record] one_logged)))))).
  by_computation.
Defined.
